(** * pdf-ocr-guiapp: the OCR text-layer engine of [gui-app.py]

    A shallow embedding of [PdfOcrProcessor] ([_setup_font], [process_pdf],
    [_create_text_layer], [_write_text_block]) and the properties its
    specification states about it.

    Python values are modelled as far as the code inspects them: [int] as
    [Z], [float] as IEEE binary64 ([spec_float] at precision 53), [str] as
    a list of Unicode code points.  The libraries the code calls
    (reportlab, PyPDF2, pdf2image, pytesseract, the Unicode database) are
    the fields of the class [Externals]; the file system, the font
    registry and the log are the state the code threads through.

    Of [main], the loop over the events of the window is embedded; its
    layout is not.  Left out: the progress bar ([tqdm] only wraps the
    iteration over the pages), the configuration of [logging] and the
    path of the tesseract executable, which belongs to the engine. *)

From Stdlib Require Import ZArith NArith List String Ascii Lia Bool.
From Stdlib Require Import Floats.SpecFloat DecimalString.
From stdpp Require Import gmap strings list.

Local Open Scope Z_scope.

(** ** Exceptions and results *)

(** The exception classes that can reach an [except Exception] clause of
    the source.  [LibraryError] stands for any exception raised inside a
    library call; its tag tells two of them apart. *)
Inductive exn :=
| KeyError (key : string)
| IndexError
| ValueError
| TypeError
| AttributeError
| OverflowError
| FileNotFoundError (path : string)
| FileExistsError (path : string)
| NotADirectoryError (path : string)
| IsADirectoryError (path : string)
| LibraryError (tag : N).

Inductive result (A : Type) :=
| Ok (a : A)
| Raise (e : exn).
Arguments Ok {A} a.
Arguments Raise {A} e.

Definition is_Ok {A} (r : result A) : bool :=
  match r with Ok _ => true | Raise _ => false end.

(** ** Python strings *)

(** A [str] is a sequence of code points; lone surrogates are allowed in
    it, as in Python. *)
Definition pystr := list N.

Definition ustr (s : string) : pystr :=
  map N_of_ascii (list_ascii_of_string s).

(** [str.isspace] of one character ([Py_UNICODE_ISSPACE]). *)
Definition Py_UNICODE_ISSPACE (c : N) : bool :=
  ((9 <=? c) && (c <=? 13) || (28 <=? c) && (c <=? 32)
   || (c =? 133) || (c =? 160) || (c =? 5760)
   || (8192 <=? c) && (c <=? 8202)
   || (c =? 8232) || (c =? 8233) || (c =? 8239) || (c =? 8287)
   || (c =? 12288))%N.

(** The C-locale white space of CPython's number parser ([Py_ISSPACE]). *)
Definition Py_ISSPACE (c : N) : bool :=
  ((9 <=? c) && (c <=? 13) || (c =? 32))%N.

Fixpoint lstrip (sp : N -> bool) (s : pystr) : pystr :=
  match s with
  | c :: s' => if sp c then lstrip sp s' else s
  | [] => []
  end.

Definition rstrip (sp : N -> bool) (s : pystr) : pystr :=
  rev (lstrip sp (rev s)).

(** [s.strip()] *)
Definition str_strip (s : pystr) : pystr :=
  rstrip Py_UNICODE_ISSPACE (lstrip Py_UNICODE_ISSPACE s).

Definition is_surrogate (c : N) : bool := ((55296 <=? c) && (c <=? 57343))%N.

(** [s.encode('utf-8', 'ignore').decode('utf-8')]: the only code points
    UTF-8 cannot encode are the surrogates, and ['ignore'] drops them;
    decoding what was encoded gives the remaining code points back. *)
Definition utf8_roundtrip_ignore (s : pystr) : pystr :=
  List.filter (fun c => negb (is_surrogate c)) s.

(** ** Python numbers *)

Definition prec64 : Z := 53.
Definition emax64 : Z := 1024.

(** The binary64 nearest to [m * 2^e], ties to even. *)
Definition round64 (m e : Z) : spec_float :=
  binary_normalize prec64 emax64 m e false.

(** [float(n)] of an [int]: the nearest double, [OverflowError] beyond
    the range. *)
Definition float_of_int (n : Z) : result spec_float :=
  match round64 n 0 with
  | S754_infinity _ => Raise OverflowError
  | f => Ok f
  end.

(** The double nearest to [d * 10^e10] for a decimal literal with digits
    [d] (correctly rounded, as CPython's [strtod] is).  For a negative
    exponent the quotient is taken with 64 bits to spare and a sticky
    bit, so that one rounding decides. *)
Definition float_of_decimal (neg : bool) (d e10 : Z) : spec_float :=
  if d =? 0 then S754_zero neg
  else
    let sgn := fun m => if neg then - m else m in
    if 0 <=? e10 then round64 (sgn (d * 10 ^ e10)) 0
    else
      let den := 10 ^ (- e10) in
      let s := Z.max 0 (Z.log2 den - Z.log2 d + 64) in
      let '(q, r) := Z.div_eucl (d * 2 ^ s) den in
      round64 (sgn (2 * q + (if r =? 0 then 0 else 1))) (- s - 1).

(** [f ? n] between a [float] and an [int], which Python decides on the
    exact values; [None] when [f] is a NaN. *)
Definition float_cmp_int (f : spec_float) (n : Z) : option comparison :=
  match f with
  | S754_nan => None
  | S754_infinity s => Some (if s then Lt else Gt)
  | S754_zero _ => Some (0 ?= n)
  | S754_finite s m e =>
      let v := if s then Zneg m else Zpos m in
      Some (if 0 <=? e then (v * 2 ^ e ?= n) else (v ?= n * 2 ^ (- e)))
  end.

(** [f < n] *)
Definition float_lt_int (f : spec_float) (n : Z) : bool :=
  match float_cmp_int f n with Some Lt => true | _ => false end.

(** [f == n] *)
Definition float_eq_int (f : spec_float) (n : Z) : bool :=
  match float_cmp_int f n with Some Eq => true | _ => false end.

(** ** [float(s)] of a [str] *)

Definition is_digit (c : N) : bool := ((48 <=? c) && (c <=? 57))%N.

Fixpoint pystr_eqb (s t : pystr) : bool :=
  match s, t with
  | [], [] => true
  | c :: s', d :: t' => (c =? d)%N && pystr_eqb s' t'
  | _, _ => false
  end.

Section FloatOfStr.

(** The Unicode database's decimal-digit value of a code point
    ([Py_UNICODE_TODECIMAL]), which CPython consults for the code points
    from 127 on. *)
Variable todecimal : N -> option N.

(** [_PyUnicode_TransformDecimalAndSpaceToASCII]: in a string that is
    not ASCII, white space becomes a blank, a decimal digit its ASCII
    digit, and anything else ends the string with a question mark. *)
Fixpoint transform_nonascii (s : pystr) : pystr :=
  match s with
  | [] => []
  | ch :: s' =>
      if (ch <? 127)%N then ch :: transform_nonascii s'
      else if Py_UNICODE_ISSPACE ch then 32%N :: transform_nonascii s'
      else match todecimal ch with
           | Some d => (48 + d)%N :: transform_nonascii s'
           | None => [63%N]
           end
  end.

Definition TransformDecimalAndSpaceToASCII (s : pystr) : pystr :=
  if forallb (fun c => (c <? 128)%N) s then s else transform_nonascii s.

(** [_Py_string_to_number_with_underscores]: an underscore is allowed
    only between two digits; the accepted ones are removed. *)
Fixpoint drop_underscores (prev : N) (s : pystr) : option pystr :=
  match s with
  | [] => if (prev =? 95)%N then None else Some []
  | c :: s' =>
      if (c =? 95)%N then
        if is_digit prev then drop_underscores c s' else None
      else if (prev =? 95)%N && negb (is_digit c) then None
      else option_map (cons c) (drop_underscores c s')
  end.

Definition without_underscores (s : pystr) : option pystr :=
  if existsb (fun c => (c =? 95)%N) s then drop_underscores 0%N s else Some s.

Fixpoint take_digits (s : pystr) : list Z * pystr :=
  match s with
  | c :: s' =>
      if is_digit c then
        let '(ds, r) := take_digits s' in (Z.of_N c - 48 :: ds, r)
      else ([], s)
  | [] => ([], [])
  end.

Definition digits_value (ds : list Z) : Z :=
  fold_left (fun a d => 10 * a + d) ds 0.

Definition parse_sign (s : pystr) : bool * pystr :=
  match s with
  | 45%N :: r => (true, r)
  | 43%N :: r => (false, r)
  | _ => (false, s)
  end.

Definition Py_TOLOWER (c : N) : N :=
  if ((65 <=? c) && (c <=? 90))%N then (c + 32)%N else c.

(** [_Py_parse_inf_or_nan], on a string that has to be consumed whole. *)
Definition parse_inf_or_nan (s : pystr) : option spec_float :=
  let '(neg, r) := parse_sign s in
  let l := map Py_TOLOWER r in
  if pystr_eqb l (ustr "inf") || pystr_eqb l (ustr "infinity")
  then Some (S754_infinity neg)
  else if pystr_eqb l (ustr "nan") then Some S754_nan
  else None.

(** [_Py_dg_strtod], on a string that has to be consumed whole: sign,
    digits with an optional point (one digit at least), and an optional
    exponent with one digit at least. *)
Definition parse_decimal (s : pystr) : option spec_float :=
  let '(neg, r) := parse_sign s in
  let '(ip, r1) := take_digits r in
  let '(fp, r2) := match r1 with
                   | 46%N :: r' => take_digits r'
                   | _ => ([], r1)
                   end in
  match ip ++ fp with
  | [] => None
  | _ =>
      let mant := digits_value (ip ++ fp) in
      let scale := Z.of_nat (length fp) in
      match r2 with
      | [] => Some (float_of_decimal neg mant (- scale))
      | c :: r3 =>
          if ((c =? 101) || (c =? 69))%N then
            let '(eneg, r4) := parse_sign r3 in
            match take_digits r4 with
            | ((_ :: _) as ed, []) =>
                let e := if eneg then - digits_value ed else digits_value ed in
                Some (float_of_decimal neg mant (e - scale))
            | _ => None
            end
          else None
      end
  end.

(** [PyFloat_FromString] *)
Definition float_of_str (s : pystr) : result spec_float :=
  match without_underscores (TransformDecimalAndSpaceToASCII s) with
  | None => Raise ValueError
  | Some t =>
      let body := rstrip Py_ISSPACE (lstrip Py_ISSPACE t) in
      match parse_inf_or_nan body with
      | Some f => Ok f
      | None =>
          match parse_decimal body with
          | Some f => Ok f
          | None => Raise ValueError
          end
      end
  end.

End FloatOfStr.

(** ** Python values *)

(** The values the recognition output can carry in its columns. *)
Inductive pyval :=
| PyNone
| PyInt (n : Z)
| PyFloat (f : spec_float)
| PyStr (s : pystr).

Definition SFsub64 := SFsub prec64 emax64.

(** [a - b] *)
Definition py_sub (a b : pyval) : result pyval :=
  match a, b with
  | PyInt x, PyInt y => Ok (PyInt (x - y))
  | PyInt x, PyFloat g =>
      match float_of_int x with
      | Ok f => Ok (PyFloat (SFsub64 f g))
      | Raise e => Raise e
      end
  | PyFloat f, PyInt y =>
      match float_of_int y with
      | Ok g => Ok (PyFloat (SFsub64 f g))
      | Raise e => Raise e
      end
  | PyFloat f, PyFloat g => Ok (PyFloat (SFsub64 f g))
  | _, _ => Raise TypeError
  end.

(** [a != b] *)
Definition py_ne (a b : pyval) : bool :=
  match a, b with
  | PyNone, PyNone => false
  | PyInt x, PyInt y => negb (x =? y)
  | PyInt x, PyFloat g => negb (float_eq_int g x)
  | PyFloat f, PyInt y => negb (float_eq_int f y)
  | PyFloat f, PyFloat g => negb (SFeqb f g)
  | PyStr s, PyStr t => negb (pystr_eqb s t)
  | _, _ => true
  end.

(** ** The state the code runs in *)

Inductive node :=
| File (data : list Byte.byte)
| Dir.

Inductive level := INFO | WARNING | ERROR.

(** What the code logs and returns, one constructor per f-string of the
    source. *)
Inductive message :=
| RegisteredCustomFont (name : string)
| FontRegistrationFailed (e : exn)
| ConvertingPdfToImages
| ProcessedPage (i n : nat)
| SavedSearchablePdf (path : string)
| ProcessingCompleted
| ErrorProcessingPdf (e : exn)
| FailedToWriteText (e : exn).

(** [fs]: the files and directories, by path; [fonts]: the fonts
    registered with [pdfmetrics]; [log]: what [self.logger] has received,
    oldest first. *)
Record World := {
  fs : gmap string node;
  fonts : gset string;
  log : list (level * message)
}.

(** Computations that read and change the world and may raise; the world
    a raising computation leaves behind is kept. *)
Definition M (A : Type) : Type := World -> result A * World.

Definition ret {A} (a : A) : M A := fun σ => (Ok a, σ).

Definition raise {A} (e : exn) : M A := fun σ => (Raise e, σ).

Definition lift {A} (r : result A) : M A := fun σ => (r, σ).

Definition bind {A B} (m : M A) (k : A -> M B) : M B :=
  fun σ =>
    match m σ with
    | (Ok a, σ') => k a σ'
    | (Raise e, σ') => (Raise e, σ')
    end.

(** [try: m  except Exception as e: h e] *)
Definition try_except {A} (m : M A) (h : exn -> M A) : M A :=
  fun σ =>
    match m σ with
    | (Ok a, σ') => (Ok a, σ')
    | (Raise e, σ') => h e σ'
    end.

Notation "x <- m ;; k" := (bind m (fun x => k))
  (at level 100, m at next level, right associativity).
Notation "m ;;; k" := (bind m (fun _ => k))
  (at level 100, right associativity).

Fixpoint foldM {A S} (f : S -> A -> M S) (s : S) (l : list A) : M S :=
  match l with
  | [] => ret s
  | a :: l' => s' <- f s a ;; foldM f s' l'
  end.

Definition logger (lv : level) (m : message) : M unit :=
  fun σ => (Ok tt, {| fs := fs σ; fonts := fonts σ; log := log σ ++ [(lv, m)] |}).

(** ** The canvas *)

Record Color := { red : Z; green : Z; blue : Z; alpha : Z }.

(** One [drawString(x, y, text)] on the canvas. *)
Inductive draw_cmd :=
| DrawString (x y : pyval) (text : pystr).

(** A reportlab canvas of one page: its size, the font and fill colour in
    force and the text drawn so far.  The bytes [save] produces are
    identified with the canvas they serialize. *)
Record Canvas := {
  pagesize : Z * Z;
  fontname : string;
  fontsize : Z;
  fillcolor : Color;
  code : list draw_cmd
}.

Definition new_Canvas (size : Z * Z) : Canvas :=
  {| pagesize := size; fontname := "Helvetica"; fontsize := 12;
     fillcolor := {| red := 0; green := 0; blue := 0; alpha := 1 |};
     code := [] |}.

Definition setFillColor (c : Canvas) (col : Color) : Canvas :=
  {| pagesize := pagesize c; fontname := fontname c; fontsize := fontsize c;
     fillcolor := col; code := code c |}.

Definition add_code (c : Canvas) (cmd : draw_cmd) : Canvas :=
  {| pagesize := pagesize c; fontname := fontname c; fontsize := fontsize c;
     fillcolor := fillcolor c; code := code c ++ [cmd] |}.

(** The fonts reportlab knows without registration. *)
Definition standard_fonts : list string :=
  ["Courier"; "Courier-Bold"; "Courier-Oblique"; "Courier-BoldOblique";
   "Helvetica"; "Helvetica-Bold"; "Helvetica-Oblique"; "Helvetica-BoldOblique";
   "Times-Roman"; "Times-Bold"; "Times-Italic"; "Times-BoldItalic";
   "Symbol"; "ZapfDingbats"]%string.

Definition font_known (σ : World) (name : string) : bool :=
  bool_decide (name ∈ standard_fonts) || bool_decide (name ∈ fonts σ).

(** [c.setFont(name, size)]: [KeyError] for a font that is neither
    standard nor registered. *)
Definition setFont (c : Canvas) (name : string) (size : Z) : M Canvas :=
  fun σ =>
    if font_known σ name then
      (Ok {| pagesize := pagesize c; fontname := name; fontsize := size;
             fillcolor := fillcolor c; code := code c |}, σ)
    else (Raise (KeyError name), σ).

(** ** The libraries *)

(** The recognition output: a dict from column name to the column. *)
Abbreviation ocr_dict := (gmap string (list pyval)).

Class Externals := {
  (** a rasterized page and a PDF page object *)
  Image : Type;
  Page : Type;
  (** the Unicode database *)
  Py_UNICODE_TODECIMAL : N -> option N;
  (** [Path(__file__).parent] *)
  module_dir : string;
  (** [pdfmetrics.registerFont(TTFont(name, path))] on the bytes of the
      font file: the exception it raises, if any *)
  TTFont : string -> list Byte.byte -> option exn;
  (** the exception [drawString(x, y, text)] raises on this canvas, if any *)
  drawString_raises : Canvas -> pyval -> pyval -> pystr -> option exn;
  (** [convert_from_path(path, dpi=dpi)] on the bytes of the file *)
  convert_from_path : list Byte.byte -> Z -> result (list Image);
  (** [image.size] *)
  image_size : Image -> Z * Z;
  (** [pytesseract.image_to_data(image, ...)] *)
  image_to_data : Image -> result ocr_dict;
  (** [PdfReader(path).pages] on the bytes of the file *)
  PdfReader_pages : list Byte.byte -> result (list Page);
  (** [PdfReader(io.BytesIO(text_layer)).pages[0]] *)
  layer_page : Canvas -> result Page;
  (** [original_page.merge_page(text_page)]: the merged page *)
  merge_page : Page -> Page -> result Page;
  (** [writer.write(output_file)]: the bytes that reach the file, and the
      exception that interrupts the writing, if any *)
  writer_write : list Page -> list Byte.byte * option exn
}.

(** ** [PdfOcrProcessor] *)

(** The fields [__init__] and [_setup_font] set ([self.logger] is the log
    of the world). *)
Record PdfOcrProcessor := {
  font_name : string;
  conf_threshold : Z;
  dpi : Z
}.

(** One element of [text_block]: the dict with the keys ['text'], ['x'],
    ['y'], ['width'] and ['height']. *)
Record Item := {
  i_text : pyval;
  i_x : pyval;
  i_y : pyval;
  i_width : pyval;
  i_height : pyval
}.

(** The variables of the loop of [_create_text_layer]: the canvas [c],
    [last_block_num] and [text_block]. *)
Record LoopState := {
  c : Canvas;
  last_block_num : pyval;
  text_block : list Item
}.

(** [d[k]] and [l[i]] for an index that is not negative. *)
Definition getitem (d : ocr_dict) (k : string) : result (list pyval) :=
  match d !! k with
  | Some l => Ok l
  | None => Raise (KeyError k)
  end.

Definition index (l : list pyval) (i : nat) : result pyval :=
  match l !! i with
  | Some v => Ok v
  | None => Raise IndexError
  end.

(** [ocr_data[k][i]] *)
Definition cell (d : ocr_dict) (k : string) (i : nat) : result pyval :=
  match getitem d k with
  | Ok l => index l i
  | Raise e => Raise e
  end.

(** [v.strip()]: only a [str] has the method. *)
Definition py_strip (v : pyval) : result pystr :=
  match v with
  | PyStr s => Ok (str_strip s)
  | _ => Raise AttributeError
  end.

Section TextLayer.

Context `{Externals}.

(** [float(v)] *)
Definition py_float (v : pyval) : result spec_float :=
  match v with
  | PyNone => Raise TypeError
  | PyInt n => float_of_int n
  | PyFloat f => Ok f
  | PyStr s => float_of_str Py_UNICODE_TODECIMAL s
  end.

(** [canvas_obj.drawString(x, y, text)] *)
Definition drawString (cv : Canvas) (x y : pyval) (text : pystr) : M Canvas :=
  match drawString_raises cv x y text with
  | Some e => raise e
  | None => ret (add_code cv (DrawString x y text))
  end.

(** The body of the [try] of [_write_text_block] for one item whose
    stripped text is [text]. *)
Definition write_item (cv : Canvas) (item : Item) (text : pystr)
    (size : Z * Z) : M Canvas :=
  let x := i_x item in
  t <- lift (py_sub (PyInt (snd size)) (i_y item)) ;;
  y <- lift (py_sub t (i_height item)) ;;
  let cleaned_text := utf8_roundtrip_ignore text in
  drawString cv x y cleaned_text.

Fixpoint _write_text_block (canvas_obj : Canvas) (text_block : list Item)
    (size : Z * Z) : M Canvas :=
  match text_block with
  | [] => ret canvas_obj
  | item :: rest =>
      text <- lift (py_strip (i_text item)) ;;
      match text with
      | [] => _write_text_block canvas_obj rest size
      | _ =>
          cv <- try_except (write_item canvas_obj item text size)
                  (fun e => logger WARNING (FailedToWriteText e) ;;;
                            ret canvas_obj) ;;
          _write_text_block cv rest size
      end
  end.

(** [if text_block: self._write_text_block(c, text_block, size)] *)
Definition flush (cv : Canvas) (text_block : list Item) (size : Z * Z)
    : M Canvas :=
  match text_block with
  | [] => ret cv
  | _ => _write_text_block cv text_block size
  end.

(** One turn of the loop of [_create_text_layer], at index [i]. *)
Definition layer_step (self : PdfOcrProcessor) (ocr_data : ocr_dict)
    (size : Z * Z) (st : LoopState) (i : nat) : M LoopState :=
  v <- lift (cell ocr_data "conf" i) ;;
  conf <- lift (py_float v) ;;
  if float_lt_int conf (conf_threshold self) then ret st
  else
    b <- lift (cell ocr_data "block_num" i) ;;
    st1 <- (if py_ne b (last_block_num st) then
              cv <- flush (c st) (text_block st) size ;;
              b' <- lift (cell ocr_data "block_num" i) ;;
              ret {| c := cv; last_block_num := b'; text_block := [] |}
            else ret st) ;;
    text <- lift (cell ocr_data "text" i) ;;
    left <- lift (cell ocr_data "left" i) ;;
    top <- lift (cell ocr_data "top" i) ;;
    width <- lift (cell ocr_data "width" i) ;;
    height <- lift (cell ocr_data "height" i) ;;
    ret {| c := c st1; last_block_num := last_block_num st1;
           text_block := text_block st1 ++
             [{| i_text := text; i_x := left; i_y := top;
                 i_width := width; i_height := height |}] |}.

(** [_create_text_layer]; the value returned stands for the bytes of
    the saved canvas. *)
Definition _create_text_layer (self : PdfOcrProcessor) (ocr_data : ocr_dict)
    (size : Z * Z) : M Canvas :=
  c0 <- setFont (new_Canvas size) (font_name self) 8 ;;
  let c1 := setFillColor c0 {| red := 0; green := 0; blue := 0; alpha := 0 |} in
  texts <- lift (getitem ocr_data "text") ;;
  st <- foldM (layer_step self ocr_data size)
          {| c := c1; last_block_num := PyInt (-1); text_block := [] |}
          (seq 0 (length texts)) ;;
  flush (c st) (text_block st) size.

End TextLayer.

(** ** Word records *)

(** One row of the recognition output, column by column, with the values
    as Python has them. *)
Record WordRecord := {
  w_text : pyval;
  w_conf : pyval;
  w_block_num : pyval;
  w_left : pyval;
  w_top : pyval;
  w_width : pyval;
  w_height : pyval
}.

(** The dict whose columns are those of the rows [ws]. *)
Definition ocr_of_words (ws : list WordRecord) : ocr_dict :=
  <["text" := map w_text ws]>
  (<["conf" := map w_conf ws]>
  (<["block_num" := map w_block_num ws]>
  (<["left" := map w_left ws]>
  (<["top" := map w_top ws]>
  (<["width" := map w_width ws]>
  (<["height" := map w_height ws]> ∅)))))).

(** The column [k] of [d] starts with the values [f] takes on the rows
    [ws]; it may go on. *)
Definition column (d : ocr_dict) (k : string) (f : WordRecord -> pyval)
    (ws : list WordRecord) : Prop :=
  exists extra, d !! k = Some (map f ws ++ extra).

(** [d] has the seven columns the code reads: its ['text'] is that of the
    rows [ws], and the other columns are theirs, or longer.  [d] may have
    more columns. *)
Definition presents (d : ocr_dict) (ws : list WordRecord) : Prop :=
  d !! "text"%string = Some (map w_text ws) /\
  column d "conf" w_conf ws /\
  column d "block_num" w_block_num ws /\
  column d "left" w_left ws /\
  column d "top" w_top ws /\
  column d "width" w_width ws /\
  column d "height" w_height ws.

Definition item_of (w : WordRecord) : Item :=
  {| i_text := w_text w; i_x := w_left w; i_y := w_top w;
     i_width := w_width w; i_height := w_height w |}.

Section Words.

Context `{Externals}.

(** The word passes the confidence filter: [float(conf)] is defined and
    is not below the threshold. *)
Definition passes (self : PdfOcrProcessor) (w : WordRecord) : bool :=
  match py_float (w_conf w) with
  | Ok f => negb (float_lt_int f (conf_threshold self))
  | Raise _ => false
  end.

(** The turn of the loop of [_create_text_layer] as a function of the
    row it reads. *)
Definition word_step (self : PdfOcrProcessor) (size : Z * Z)
    (st : LoopState) (w : WordRecord) : M LoopState :=
  conf <- lift (py_float (w_conf w)) ;;
  if float_lt_int conf (conf_threshold self) then ret st
  else
    st1 <- (if py_ne (w_block_num w) (last_block_num st) then
              cv <- flush (c st) (text_block st) size ;;
              ret {| c := cv; last_block_num := w_block_num w;
                     text_block := [] |}
            else ret st) ;;
    ret {| c := c st1; last_block_num := last_block_num st1;
           text_block := text_block st1 ++ [item_of w] |}.

(** The loop and the final flush over the rows. *)
Definition layer_of_words (self : PdfOcrProcessor) (ws : list WordRecord)
    (size : Z * Z) : M Canvas :=
  c0 <- setFont (new_Canvas size) (font_name self) 8 ;;
  let c1 := setFillColor c0 {| red := 0; green := 0; blue := 0; alpha := 0 |} in
  st <- foldM (word_step self size)
          {| c := c1; last_block_num := PyInt (-1); text_block := [] |} ws ;;
  flush (c st) (text_block st) size.

End Words.

(** ** The file system *)

(** Paths name files and directories as written: no symbolic links, no
    permissions, and [.], [..] and doubled slashes are not interpreted.
    A path of slashes only is the root; a relative path of one component
    lies in the current directory, which exists. *)

Definition is_slash (a : ascii) : bool := Ascii.eqb a "/".

Fixpoint drop_slashes (l : list ascii) : list ascii :=
  match l with
  | a :: l' => if is_slash a then drop_slashes l' else l
  | [] => []
  end.

(** The characters before the first slash, and the rest from that slash
    on. *)
Fixpoint break_slash (l : list ascii) : list ascii * list ascii :=
  match l with
  | [] => ([], [])
  | a :: l' =>
      if is_slash a then ([], l)
      else let '(t, h) := break_slash l' in (a :: t, h)
  end.

(** [posixpath.split]: the head loses its trailing slashes unless it
    consists of slashes. *)
Definition posixpath_split (p : string) : string * string :=
  let '(t, h) := break_slash (rev (list_ascii_of_string p)) in
  let h' := if forallb is_slash h then h else drop_slashes h in
  (string_of_list_ascii (rev h'), string_of_list_ascii (rev t)).

(** [os.path.dirname] *)
Definition dirname (p : string) : string := fst (posixpath_split p).

Definition is_root (p : string) : bool :=
  negb (String.eqb p "") && forallb is_slash (list_ascii_of_string p).

Definition ends_with_slash (p : string) : bool :=
  match rev (list_ascii_of_string p) with
  | a :: _ => is_slash a
  | [] => false
  end.

(** The path without its trailing slashes. *)
Definition unslash (p : string) : string :=
  string_of_list_ascii (rev (drop_slashes (rev (list_ascii_of_string p)))).

(** What the path names: a path with a trailing slash names a directory
    or nothing. *)
Definition resolve (σ : World) (p : string) : option node :=
  if String.eqb p "" then None
  else if is_root p then Some Dir
  else if ends_with_slash p then
    match fs σ !! unslash p with
    | Some Dir => Some Dir
    | _ => None
    end
  else fs σ !! p.

Definition set_fs (σ : World) (f : gmap string node) : World :=
  {| fs := f; fonts := fonts σ; log := log σ |}.

(** [os.path.exists(p)] *)
Definition os_path_exists (p : string) : M bool :=
  fun σ => (Ok (match resolve σ p with Some _ => true | None => false end), σ).

(** [os.path.isdir(p)] *)
Definition os_path_isdir (p : string) : M bool :=
  fun σ => (Ok (match resolve σ p with Some Dir => true | _ => false end), σ).

(** The directory that is to hold the last component of [p] is there. *)
Definition check_parent (σ : World) (p : string) : option exn :=
  let parent := dirname p in
  if String.eqb parent "" then None
  else match resolve σ parent with
       | Some Dir => None
       | Some (File _) => Some (NotADirectoryError p)
       | None => Some (FileNotFoundError p)
       end.

(** [os.mkdir(name)] *)
Definition mkdir (name : string) : M unit :=
  fun σ =>
    if String.eqb name "" then (Raise (FileNotFoundError name), σ)
    else if is_root name then (Raise (FileExistsError name), σ)
    else
      let key := unslash name in
      match fs σ !! key with
      | Some _ => (Raise (FileExistsError name), σ)
      | None =>
          match check_parent σ key with
          | Some e => (Raise e, σ)
          | None => (Ok tt, set_fs σ (<[key := Dir]> (fs σ)))
          end
      end.

(** The end of [os.makedirs]: [mkdir], forgiven when the directory is
    there already ([exist_ok=True]). *)
Definition mkdir_exist_ok (name : string) : M unit :=
  try_except (mkdir name)
    (fun e => isdir <- os_path_isdir name ;;
              if isdir then ret tt else raise e).

(** [os.makedirs(name, exist_ok=True)].  The recursion is on the head of
    [name], which is shorter than [name]; [n] bounds its depth. *)
Fixpoint makedirs_upto (n : nat) (name : string) : M unit :=
  let '(head, tail) := posixpath_split name in
  let '(head, tail) :=
    if String.eqb tail "" then posixpath_split head else (head, tail) in
  if negb (String.eqb head "") && negb (String.eqb tail "") then
    there <- os_path_exists head ;;
    if there then mkdir_exist_ok name
    else
      match n with
      | O => mkdir_exist_ok name
      | S n' =>
          try_except (makedirs_upto n' head)
            (fun e => match e with
                      | FileExistsError _ => ret tt
                      | _ => raise e
                      end) ;;;
          if String.eqb tail "." then ret tt else mkdir_exist_ok name
      end
  else mkdir_exist_ok name.

Definition makedirs (name : string) : M unit :=
  makedirs_upto (String.length name) name.

(** Reading the file at [p]. *)
Definition read_file (p : string) : M (list Byte.byte) :=
  fun σ =>
    match resolve σ p with
    | Some (File data) => (Ok data, σ)
    | Some Dir => (Raise (IsADirectoryError p), σ)
    | None => (Raise (FileNotFoundError p), σ)
    end.

(** [open(p, 'wb')]: the file is created, or emptied if it is there. *)
Definition open_wb (p : string) : M unit :=
  fun σ =>
    if String.eqb p "" then (Raise (FileNotFoundError p), σ)
    else if ends_with_slash p then (Raise (IsADirectoryError p), σ)
    else
      match fs σ !! p with
      | Some Dir => (Raise (IsADirectoryError p), σ)
      | _ =>
          match check_parent σ p with
          | Some e => (Raise e, σ)
          | None => (Ok tt, set_fs σ (<[p := File []]> (fs σ)))
          end
      end.

(** The bytes written to the open file at [p]. *)
Definition write_bytes (p : string) (data : list Byte.byte) : M unit :=
  fun σ => (Ok tt, set_fs σ (<[p := File data]> (fs σ))).

(** The content of the file at [p], if [p] is a file. *)
Definition file_at (σ : World) (p : string) : option (list Byte.byte) :=
  match fs σ !! p with
  | Some (File data) => Some data
  | _ => None
  end.

(** ** [_setup_font], [__init__] and [process_pdf] *)

(** [a / b] of [pathlib] for a relative [b] *)
Definition pathlib_join (a b : string) : string :=
  if String.eqb a "." then b
  else if ends_with_slash a then (a ++ b)%string
  else (a ++ "/" ++ b)%string.

Section Processor.

Context `{Externals}.

(** [pdfmetrics.registerFont(TTFont(name, path))] *)
Definition registerFont (name path : string) : M unit :=
  data <- read_file path ;;
  match TTFont name data with
  | Some e => raise e
  | None =>
      fun σ => (Ok tt, {| fs := fs σ; fonts := {[name]} ∪ fonts σ; log := log σ |})
  end.

(** [_setup_font]; the value returned is [self.font_name]. *)
Definition _setup_font : M string :=
  try_except
    (let font_folder := pathlib_join module_dir "fonts" in
     let font_name := "0xProto-Regular"%string in
     let font_path := pathlib_join font_folder (font_name ++ ".ttf") in
     there <- os_path_exists font_path ;;
     if there then
       registerFont font_name font_path ;;;
       logger INFO (RegisteredCustomFont font_name) ;;;
       ret font_name
     else raise (FileNotFoundError font_path))
    (fun e =>
       logger WARNING (FontRegistrationFailed e) ;;;
       ret "Helvetica"%string).

(** [__init__] *)
Definition __init__ : M PdfOcrProcessor :=
  name <- _setup_font ;;
  ret {| font_name := name; conf_threshold := 60; dpi := 300 |}.

(** [reader.pages[i]] *)
Definition page_at (pages : list Page) (i : nat) : result Page :=
  match pages !! i with
  | Some p => Ok p
  | None => Raise IndexError
  end.

(** One turn of the page loop of [process_pdf]; [writer] is the list of
    the pages added so far. *)
Definition page_step (self : PdfOcrProcessor) (pages : list Page)
    (total : nat) (writer : list Page) (it : nat * Image) : M (list Page) :=
  let '(i, image) := it in
  ocr_data <- lift (image_to_data image) ;;
  text_layer <- _create_text_layer self ocr_data (image_size image) ;;
  original_page <- lift (page_at pages i) ;;
  text_page <- lift (layer_page text_layer) ;;
  merged <- lift (merge_page original_page text_page) ;;
  logger INFO (ProcessedPage (i + 1) total) ;;;
  ret (writer ++ [merged]).

(** [enumerate(l)] *)
Definition enumerate {A} (l : list A) : list (nat * A) :=
  combine (seq 0 (length l)) l.

(** The body of the [try] of [process_pdf] up to the end of the page
    loop: the pages of the writer. *)
Definition assemble (self : PdfOcrProcessor) (input_path output_path : string)
    : M (list Page) :=
  there <- os_path_exists input_path ;;
  if negb there then raise (FileNotFoundError input_path)
  else
    makedirs (dirname output_path) ;;;
    logger INFO ConvertingPdfToImages ;;;
    data <- read_file input_path ;;
    images <- lift (convert_from_path data (dpi self)) ;;
    data' <- read_file input_path ;;
    pages <- lift (PdfReader_pages data') ;;
    foldM (page_step self pages (length images)) [] (enumerate images).

(** [with open(output_path, 'wb') as output_file: writer.write(output_file)] *)
Definition save (writer : list Page) (output_path : string) : M unit :=
  open_wb output_path ;;;
  let '(data, failure) := writer_write writer in
  write_bytes output_path data ;;;
  match failure with
  | Some e => raise e
  | None => ret tt
  end.

(** [process_pdf] *)
Definition process_pdf (self : PdfOcrProcessor) (input_path output_path : string)
    : M (bool * message) :=
  try_except
    (writer <- assemble self input_path output_path ;;
     save writer output_path ;;;
     logger INFO (SavedSearchablePdf output_path) ;;;
     ret (true, ProcessingCompleted))
    (fun e =>
       let error_msg := ErrorProcessingPdf e in
       logger ERROR error_msg ;;;
       ret (false, error_msg)).

End Processor.

(** ** An environment to run the code in *)

Module Demo.

(** A rasterized page carries its size and what the engine recognizes
    on it; a page carries the number of its original content and the
    layers merged onto it. *)
Record image := { size : Z * Z; recognized : result ocr_dict }.
Record page := { content : N; layers : list Canvas }.

Definition is_number (v : pyval) : bool :=
  match v with PyInt _ | PyFloat _ => true | _ => false end.

(** The Arabic-Indic digits, U+0660 to U+0669. *)
Definition todecimal (ch : N) : option N :=
  if ((1632 <=? ch) && (ch <=? 1641))%N then Some (ch - 1632)%N else None.

Definition word (text : string) (conf : pyval) (block left top width height : Z)
    : WordRecord :=
  {| w_text := PyStr (ustr text); w_conf := conf; w_block_num := PyInt block;
     w_left := PyInt left; w_top := PyInt top; w_width := PyInt width;
     w_height := PyInt height |}.

(** The row the engine gives for the page itself. *)
Definition page_row : WordRecord := word "" (PyInt (-1)) 0 0 0 100 1000.

Definition hello_world : list WordRecord :=
  [page_row; word "Hello" (PyInt 95) 0 10 20 50 15;
   word "world" (PyInt 40) 0 70 20 50 15].

(** The file of a document has one byte per page: [x00] a blank page,
    [x01] a page that reads "Hello world", [xff] a page the writer
    cannot serialize, any other byte a page the engine fails on. *)
Definition image_of (b : Byte.byte) : image :=
  {| size := (100, 1000);
     recognized :=
       match b with
       | Byte.x00 => Ok (ocr_of_words [page_row])
       | Byte.x01 | Byte.xff => Ok (ocr_of_words hello_world)
       | _ => Raise (LibraryError 5)
       end |}.

Definition page_of (b : Byte.byte) : page :=
  {| content := Byte.to_N b; layers := [] |}.

Fixpoint write_pages (pages : list page) : list Byte.byte * option exn :=
  match pages with
  | [] => ([], None)
  | p :: rest =>
      if (content p =? 255)%N then ([], Some (LibraryError 4))
      else
        let '(data, failure) := write_pages rest in
        (match Byte.of_N (content p) with
         | Some b => b :: data
         | None => data
         end, failure)
  end.

Definition env : Externals := {|
  Image := image;
  Page := page;
  Py_UNICODE_TODECIMAL := todecimal;
  module_dir := "/app";
  TTFont := fun _ data =>
    match data with [] => Some (LibraryError 1) | _ => None end;
  drawString_raises := fun _ x y text =>
    if is_number x && is_number y then
      if existsb (fun ch => (ch =? 0)%N) text then Some (LibraryError 2) else None
    else Some TypeError;
  convert_from_path := fun data _ =>
    match data with [] => Raise (LibraryError 3) | _ => Ok (map image_of data) end;
  image_size := size;
  image_to_data := recognized;
  PdfReader_pages := fun data => Ok (map page_of data);
  layer_page := fun cv => Ok {| content := 0; layers := [cv] |};
  merge_page := fun p q =>
    Ok {| content := content p; layers := layers p ++ layers q |};
  writer_write := write_pages
|}.

(** The processor of [__init__] when the font is not there. *)
Definition processor : PdfOcrProcessor :=
  {| font_name := "Helvetica"; conf_threshold := 60; dpi := 300 |}.

(** A directory [scans] with a document of two pages and one whose
    second page the writer cannot serialize, and a file [in.pdf] with
    one page, in the current directory. *)
Definition world : World :=
  {| fs := {[ "scans" := Dir;
              "scans/doc.pdf" := File [Byte.x01; Byte.x00];
              "scans/bad.pdf" := File [Byte.x01; Byte.xff];
              "in.pdf" := File [Byte.x01] ]};
     fonts := ∅;
     log := [] |}.

End Demo.

(** ** What the specification speaks of *)

(** The vertical position [H - y - height] of an item on a page of height
    [H], computed as Python computes it. *)
Definition item_y (H : Z) (item : Item) : result pyval :=
  match py_sub (PyInt H) (i_y item) with
  | Ok t => py_sub t (i_height item)
  | Raise e => Raise e
  end.

(** The command that draws an item: none for an item whose text is not a
    [str] or is empty once stripped, or whose position cannot be
    computed. *)
Definition item_cmd (H : Z) (item : Item) : option draw_cmd :=
  match i_text item with
  | PyStr s =>
      match str_strip s, item_y H item with
      | (_ :: _) as t, Ok y => Some (DrawString (i_x item) y (utf8_roundtrip_ignore t))
      | _, _ => None
      end
  | _ => None
  end.

(** The world with more lines in its log. *)
Definition add_logs (σ : World) (new : list (level * message)) : World :=
  {| fs := fs σ; fonts := fonts σ; log := log σ ++ new |}.

(** Two rows carry the same block id. *)
Definition same_block (a b : WordRecord) : bool :=
  negb (py_ne (w_block_num a) (w_block_num b)).

(** The contiguous runs of rows with the same block id, in order: a row
    joins the run of the row after it when their ids agree, and starts a
    run of its own otherwise. *)
Fixpoint runs (ws : list WordRecord) : list (list WordRecord) :=
  match ws with
  | [] => []
  | w :: ws' =>
      match runs ws' with
      | (v :: g) :: gs =>
          if same_block w v then (w :: v :: g) :: gs
          else [w] :: (v :: g) :: gs
      | _ => [[w]]
      end
  end.

Section Blocks.

Context `{Externals}.

(** The layer that comes of flushing the given blocks one after the
    other on a fresh canvas. *)
Definition layer_of_blocks (self : PdfOcrProcessor) (blocks : list (list Item))
    (size : Z * Z) : M Canvas :=
  c0 <- setFont (new_Canvas size) (font_name self) 8 ;;
  let c1 := setFillColor c0 {| red := 0; green := 0; blue := 0; alpha := 0 |} in
  foldM (fun cv blk => _write_text_block cv blk size) c1 blocks.

(** The flush of a block, and the flush at the end of the rows, as the
    functions the loops are folded with. *)
Definition block_writer (size : Z * Z) (cv : Canvas) (blk : list Item)
    : M Canvas :=
  _write_text_block cv blk size.

Definition final_flush (size : Z * Z) (st : LoopState) : M Canvas :=
  flush (c st) (text_block st) size.

(** The block id a run stands for: that of its first row; [-1], the
    value [last_block_num] starts with, when there is no run. *)
Definition block_of (g : list WordRecord) : pyval :=
  match g with
  | v :: _ => w_block_num v
  | [] => PyInt (-1)
  end.

(** Where the loop stands once rows that make the runs [gs] have passed
    the filter, from the canvas [cv]: the runs before the last have been
    flushed, one after the other, and the last one waits in the buffer,
    its id in [last_block_num]. *)
Definition loop_after (size : Z * Z) (cv : Canvas)
    (gs : list (list WordRecord)) : M LoopState :=
  cv' <- foldM (block_writer size) cv (map (map item_of) (List.removelast gs)) ;;
  ret {| c := cv'; last_block_num := block_of (List.last gs []);
         text_block := map item_of (List.last gs []) |}.

(** The layer that stops with the exception [e] once the given blocks
    have been flushed on a fresh canvas. *)
Definition layer_stopped (self : PdfOcrProcessor) (blocks : list (list Item))
    (e : exn) (size : Z * Z) : M Canvas :=
  c0 <- setFont (new_Canvas size) (font_name self) 8 ;;
  let c1 := setFillColor c0 {| red := 0; green := 0; blue := 0; alpha := 0 |} in
  foldM (block_writer size) c1 blocks ;;;
  raise e.

End Blocks.

(** The block id of the row is an [int]. *)
Definition int_block (w : WordRecord) : Prop :=
  exists n, w_block_num w = PyInt n.

(** [float] accepts the confidence of the row. *)
Definition coercible `{Externals} (w : WordRecord) : Prop :=
  is_Ok (py_float (w_conf w)) = true.

(** The command of a word that passed the filter is on the canvas, or its
    item waits in the buffer. *)
Definition drawn_or_buffered (item : Item) (cmd : draw_cmd) (st : LoopState)
    : Prop :=
  In cmd (code (c st)) \/ In item (text_block st).

(** The text of the item is a [str]. *)
Definition str_text (item : Item) : Prop :=
  exists s, i_text item = PyStr s.

(** The computation writes no file: the files of the world it leaves are
    those of the world it found. *)
Definition keeps_files {A} (m : M A) : Prop :=
  forall σ p, file_at (snd (m σ)) p = file_at σ p.

Section PageMade.

Context `{Externals}.

(** [merged] is page [i] of the document with the layer of the image
    [img] on it. *)
Definition page_made (self : PdfOcrProcessor) (pages : list Page) (i : nat)
    (img : Image) (merged : Page) : Prop :=
  exists d layer orig tp σa σb,
    image_to_data img = Ok d /\
    _create_text_layer self d (image_size img) σa = (Ok layer, σb) /\
    pages !! i = Some orig /\
    layer_page layer = Ok tp /\
    merge_page orig tp = Ok merged.

(** The row adds nothing to a layer: it is below the threshold, or its
    text is empty once stripped. *)
Definition blank_row (self : PdfOcrProcessor) (w : WordRecord) : Prop :=
  coercible w /\
  (passes self w = false \/ exists s, w_text w = PyStr s /\ str_strip s = []).

End PageMade.

Section FontPath.

Context `{Externals}.

(** The path of the font file [_setup_font] looks for. *)
Definition custom_font_path : string :=
  pathlib_join (pathlib_join module_dir "fonts") "0xProto-Regular.ttf".

(** The registration of the custom font fails with [e]: the font file
    is absent, or is a directory, or is not a font [TTFont] accepts. *)
Definition font_registration_fails (σ : World) (e : exn) : Prop :=
  match resolve σ custom_font_path with
  | None => e = FileNotFoundError custom_font_path
  | Some Dir => e = IsADirectoryError custom_font_path
  | Some (File data) => TTFont "0xProto-Regular" data = Some e
  end.

End FontPath.

(** The row with another value in its confidence column. *)
Definition with_conf (w : WordRecord) (v : pyval) : WordRecord :=
  {| w_text := w_text w; w_conf := v; w_block_num := w_block_num w;
     w_left := w_left w; w_top := w_top w; w_width := w_width w;
     w_height := w_height w |}.

(** The double [-1.0]. *)
Definition minus_one : spec_float := S754_finite true 4503599627370496 (-52).

(** [str(n)] of an [int] *)
Definition str_of_int (n : Z) : pystr :=
  ustr (NilZero.string_of_int (Z.to_int n)).

(** The integers from -1 to 100: the confidences the engine gives. *)
Definition engine_confidences : list Z :=
  map (fun k => Z.of_nat k - 1) (seq 0 102).

(** ** [main] *)

Definition starts_with_slash (p : string) : bool :=
  match p with
  | String a _ => is_slash a
  | EmptyString => false
  end.

(** [os.path.join(a, b)] *)
Definition os_path_join (a b : string) : string :=
  if starts_with_slash b then b
  else if String.eqb a "" || ends_with_slash a then (a ++ b)%string
  else (a ++ "/" ++ b)%string.

(** What [eg.popup] is called with. *)
Inductive popup :=
| PopupPleaseSelect
| PopupSuccess
| PopupError (m : message).

(** What one turn of the loop of [main] meets: the event and the content
    of the name field that [window.read()] returns, and what the file or
    folder dialog returns if the turn opens it ([None] is Python's
    [None]). *)
Record Turn := {
  event : option string;
  values_name : string;
  picked : option string
}.

(** The variables of [main], and the popups shown so far, oldest
    first. *)
Record Gui := {
  selected_file : option string;
  output_folder : option string;
  shown : list popup
}.

(** The truth value of what a dialog returned, or of a string. *)
Definition truthy (v : option string) : bool :=
  match v with
  | Some s => negb (String.eqb s "")
  | None => false
  end.

Definition event_is (t : Turn) (name : string) : bool :=
  match event t with
  | Some e => String.eqb e name
  | None => false
  end.

Definition show (g : Gui) (p : popup) : Gui :=
  {| selected_file := selected_file g; output_folder := output_folder g;
     shown := shown g ++ [p] |}.

Section Main.

Context `{Externals}.

(** One turn of the [while] loop of [main]; the boolean tells whether the
    turn leaves the loop. *)
Definition main_turn (processor : PdfOcrProcessor) (g : Gui) (t : Turn)
    : M (Gui * bool) :=
  if event_is t "Select File" then
    ret ({| selected_file := picked t; output_folder := output_folder g;
            shown := shown g |}, false)
  else if event_is t "Select Folder" then
    ret ({| selected_file := selected_file g; output_folder := picked t;
            shown := shown g |}, false)
  else if event_is t "Start OCR" then
    let output_name := values_name t in
    match selected_file g, output_folder g with
    | Some file, Some folder =>
        if truthy (Some file) && truthy (Some folder) && truthy (Some output_name)
        then
          let output_path := os_path_join folder (output_name ++ ".pdf") in
          r <- process_pdf processor file output_path ;;
          let '(success, message) := r in
          ret (show g (if success then PopupSuccess else PopupError message),
               success)
        else ret (show g PopupPleaseSelect, false)
    | _, _ => ret (show g PopupPleaseSelect, false)
    end
  else
    match event t with
    | None => ret (g, true)
    | Some e => if String.eqb e "Cancel" then ret (g, true) else ret (g, false)
    end.

(** The loop of [main] over the turns the window lives for. *)
Fixpoint main_loop (processor : PdfOcrProcessor) (g : Gui) (turns : list Turn)
    : M Gui :=
  match turns with
  | [] => ret g
  | t :: rest =>
      r <- main_turn processor g t ;;
      let '(g', stop) := r in
      if stop then ret g' else main_loop processor g' rest
  end.

(** [main] *)
Definition main (turns : list Turn) : M Gui :=
  processor <- __init__ ;;
  main_loop processor
    {| selected_file := Some ""%string; output_folder := Some ""%string;
       shown := [] |} turns.

End Main.

(** ** More of what the code keeps *)

(** Every run of the computation takes a world to a world related to it
    by [R]. *)
Definition steps_in {A} (R : World -> World -> Prop) (m : M A) : Prop :=
  forall σ, R σ (snd (m σ)).

Definition is_warning (l : level * message) : Prop :=
  exists e, l = (WARNING, FailedToWriteText e).

(** The second world is the first with warnings of words not written
    added to its log. *)
Definition warned (σ σ' : World) : Prop :=
  fs σ' = fs σ /\ fonts σ' = fonts σ /\
  exists new, log σ' = log σ ++ new /\ Forall is_warning new.

(** Both are files, or both are directories. *)
Definition same_kind (n n' : node) : Prop :=
  match n, n' with
  | File _, File _ => True
  | Dir, Dir => True
  | _, _ => False
  end.

(** The second world has the fonts of the first; what was a file in the
    first is a file in the second, of whatever content, and what was a
    directory is a directory; and it has the log of the first, perhaps
    with more lines. *)
Definition kept (σ σ' : World) : Prop :=
  fonts σ' = fonts σ /\
  (forall q n, fs σ !! q = Some n ->
               exists n', fs σ' !! q = Some n' /\ same_kind n n') /\
  exists new, log σ' = log σ ++ new.

(** The second world has the fonts, the files and the directories of the
    first, perhaps with more directories, and its log, perhaps with more
    lines. *)
Definition grown (σ σ' : World) : Prop :=
  fonts σ' = fonts σ /\
  (forall q n, fs σ !! q = Some n -> fs σ' !! q = Some n) /\
  exists new, log σ' = log σ ++ new.

(** The text of the item is a [str] that is not empty once stripped. *)
Definition nonblank (item : Item) : bool :=
  match i_text item with
  | PyStr s => match str_strip s with [] => false | _ => true end
  | _ => false
  end.

(** The canvas has the settings [_create_text_layer] gives it. *)
Definition layer_settings (self : PdfOcrProcessor) (size : Z * Z) (cv : Canvas)
    : Prop :=
  pagesize cv = size /\ fontname cv = font_name self /\ fontsize cv = 8 /\
  fillcolor cv = {| red := 0; green := 0; blue := 0; alpha := 0 |}.

(** Two rows that differ at most by their widths. *)
Definition same_but_width (w w' : WordRecord) : Prop :=
  w_text w = w_text w' /\ w_conf w = w_conf w' /\
  w_block_num w = w_block_num w' /\ w_left w = w_left w' /\
  w_top w = w_top w' /\ w_height w = w_height w'.

(** Two items that differ at most by their widths. *)
Definition same_item_but_width (a b : Item) : Prop :=
  i_text a = i_text b /\ i_x a = i_x b /\ i_y a = i_y b /\
  i_height a = i_height b.

(** What the computation returns, when it returns, satisfies [P]. *)
Definition returns {A} (P : A -> Prop) (m : M A) : Prop :=
  forall σ a σ', m σ = (Ok a, σ') -> P a.

(** Two canvases with the same settings. *)
Definition same_settings (cv cv' : Canvas) : Prop :=
  pagesize cv' = pagesize cv /\ fontname cv' = fontname cv /\
  fontsize cv' = fontsize cv /\ fillcolor cv' = fillcolor cv.

(** Two states of the loop of [_create_text_layer] that differ at most by
    the widths of the items of their buffers. *)
Definition same_state_but_width (st st' : LoopState) : Prop :=
  c st = c st' /\ last_block_num st = last_block_num st' /\
  Forall2 same_item_but_width (text_block st) (text_block st').

(** Two runs that end alike, in states that differ at most by widths. *)
Definition same_run_but_width (r r' : result LoopState * World) : Prop :=
  snd r = snd r' /\
  match fst r, fst r' with
  | Ok st, Ok st' => same_state_but_width st st'
  | Raise e, Raise e' => e = e'
  | _, _ => False
  end.

(** The environment [Demo.env] with a reader that misses the last page of
    every document. *)
Definition short_reader : Externals := {|
  Image := Demo.image;
  Page := Demo.page;
  Py_UNICODE_TODECIMAL := Demo.todecimal;
  module_dir := "/app";
  TTFont := @TTFont Demo.env;
  drawString_raises := @drawString_raises Demo.env;
  convert_from_path := @convert_from_path Demo.env;
  image_size := Demo.size;
  image_to_data := Demo.recognized;
  PdfReader_pages := fun data => Ok (map Demo.page_of (List.removelast data));
  layer_page := @layer_page Demo.env;
  merge_page := @merge_page Demo.env;
  writer_write := Demo.write_pages
|}.

(** The columns [_create_text_layer] reads only for a word that passes
    the confidence filter. *)
Definition columns_of_passing_words : list string :=
  ["block_num"; "left"; "top"; "width"; "height"]%string.

(** The text of the command has no surrogate code point. *)
Definition clean_cmd (cmd : draw_cmd) : Prop :=
  match cmd with
  | DrawString _ _ t => Forall (fun ch => is_surrogate ch = false) t
  end.

(** The second world has the files and the directories of the first. *)
Definition same_fs (σ σ' : World) : Prop := fs σ' = fs σ.

(** The second world differs from the first by its files and directories
    at most. *)
Definition fs_only (σ σ' : World) : Prop :=
  fonts σ' = fonts σ /\ log σ' = log σ.

Definition is_info (l : level * message) : bool :=
  match fst l with INFO => true | _ => false end.

(** The lines of level INFO of a run of [process_pdf] over [n] images
    that saves its output at [out]. *)
Definition progress_lines (out : string) (n : nat) : list (level * message) :=
  (INFO, ConvertingPdfToImages) ::
  map (fun i => (INFO, ProcessedPage (i + 1) n)) (seq 0 n) ++
  [(INFO, SavedSearchablePdf out)].


(** * Properties *)

(** ** The monad *)

Lemma bind_ext {A B} (m : M A) (k1 k2 : A -> M B) σ :
  (forall a σ', k1 a σ' = k2 a σ') -> bind m k1 σ = bind m k2 σ.
Proof.
  intros Hk. unfold bind. destruct (m σ) as [[a|e] σ']; [apply Hk | reflexivity].
Qed.

Lemma bind_lift_Ok {A B} (a : A) (k : A -> M B) σ :
  bind (lift (Ok a)) k σ = k a σ.
Proof. reflexivity. Qed.

Lemma bind_lift_Raise {A B} (e : exn) (k : A -> M B) σ :
  bind (lift (Raise e)) k σ = (Raise e, σ).
Proof. reflexivity. Qed.

Lemma bind_ret {A B} (a : A) (k : A -> M B) σ : bind (ret a) k σ = k a σ.
Proof. reflexivity. Qed.

Lemma bind_assoc {A B C} (m : M A) (k : A -> M B) (k' : B -> M C) σ :
  bind (bind m k) k' σ = bind m (fun a => bind (k a) k') σ.
Proof.
  unfold bind. destruct (m σ) as [[a|e] σ']; reflexivity.
Qed.

(** Pushes the binds of the goal to the right and runs the returns at
    its head. *)
Ltac monad_norm :=
  repeat first [rewrite bind_assoc | rewrite bind_ret | rewrite bind_lift_Ok];
  cbv beta.

Lemma foldM_ext {A S} (f g : S -> A -> M S) (l : list A) :
  (forall s a σ, In a l -> f s a σ = g s a σ) ->
  forall s σ, foldM f s l σ = foldM g s l σ.
Proof.
  induction l as [|a l IH]; intros Hfg s σ; [reflexivity|].
  simpl. unfold bind. rewrite Hfg by (left; reflexivity).
  destruct (g s a σ) as [[s'|e] σ']; [|reflexivity].
  apply IH. intros. apply Hfg. right. assumption.
Qed.

Lemma foldM_app {A S} (f : S -> A -> M S) (l1 l2 : list A) s σ :
  foldM f s (l1 ++ l2) σ = bind (foldM f s l1) (fun s' => foldM f s' l2) σ.
Proof.
  revert s σ. induction l1 as [|a l1 IH]; intros s σ; [reflexivity|].
  simpl. rewrite bind_assoc. apply bind_ext. intros. apply IH.
Qed.

(** ** The rows behind a dict *)

Lemma presents_ocr_of_words ws : presents (ocr_of_words ws) ws.
Proof.
  unfold presents, column, ocr_of_words.
  repeat split; try (exists []; rewrite app_nil_r); by simplify_map_eq.
Qed.

Lemma cell_column (d : ocr_dict) k (f : WordRecord -> pyval) ws i w :
  column d k f ws -> ws !! i = Some w -> cell d k i = Ok (f w).
Proof.
  intros [extra Hd] Hi. unfold cell, getitem, index. rewrite Hd.
  rewrite lookup_app_l by (rewrite length_map; eapply lookup_lt_Some; eassumption).
  change (map f ws) with (f <$> ws). rewrite list_lookup_fmap, Hi. reflexivity.
Qed.

Lemma column_exact (d : ocr_dict) k (f : WordRecord -> pyval) ws :
  d !! k = Some (map f ws) -> column d k f ws.
Proof. intros Hd. exists []. rewrite app_nil_r. exact Hd. Qed.

Section WordsFacts.

Context `{Externals}.
Variable self : PdfOcrProcessor.
Variable size : Z * Z.

Lemma layer_step_word d ws i w st σ :
  presents d ws -> ws !! i = Some w ->
  layer_step self d size st i σ = word_step self size st w σ.
Proof.
  intros (Ht & Hc & Hb & Hl & Hp & Hw & Hh) Hi.
  unfold layer_step, word_step.
  apply column_exact in Ht.
  rewrite (cell_column _ _ _ _ _ _ Hc Hi), bind_lift_Ok.
  apply bind_ext. intros conf σ1.
  destruct (float_lt_int conf (conf_threshold self)); [reflexivity|].
  rewrite (cell_column _ _ _ _ _ _ Hb Hi), bind_lift_Ok.
  apply bind_ext. intros st1 σ2.
  rewrite (cell_column _ _ _ _ _ _ Ht Hi), (cell_column _ _ _ _ _ _ Hl Hi),
    (cell_column _ _ _ _ _ _ Hp Hi), (cell_column _ _ _ _ _ _ Hw Hi),
    (cell_column _ _ _ _ _ _ Hh Hi).
  reflexivity.
Qed.

Lemma foldM_layer_step d ws :
  presents d ws ->
  forall pre rest st σ, ws = pre ++ rest ->
  foldM (layer_step self d size) st (seq (length pre) (length rest)) σ
  = foldM (word_step self size) st rest σ.
Proof.
  intros Hd pre rest. revert pre.
  induction rest as [|w rest IH]; intros pre st σ Hws; [reflexivity|].
  simpl. unfold bind.
  rewrite (layer_step_word d ws (length pre) w st σ Hd).
  2:{ subst ws. rewrite lookup_app_r by lia.
      replace (length pre - length pre)%nat with 0%nat by lia. reflexivity. }
  destruct (word_step self size st w σ) as [[st'|e] σ']; [|reflexivity].
  specialize (IH (pre ++ [w]) st' σ').
  rewrite length_app in IH. simpl in IH.
  replace (length pre + 1)%nat with (S (length pre)) in IH by lia.
  apply IH. subst ws. rewrite <- app_assoc. reflexivity.
Qed.

(** On a dict that presents the rows [ws], [_create_text_layer] is the
    loop over [ws]. *)
Lemma create_text_layer_words d ws σ :
  presents d ws ->
  _create_text_layer self d size σ = layer_of_words self ws size σ.
Proof.
  intros Hd. unfold _create_text_layer, layer_of_words.
  apply bind_ext. intros c0 σ0.
  unfold getitem. destruct Hd as (Ht & Hrest) eqn:E. rewrite Ht, bind_lift_Ok.
  rewrite length_map.
  unfold bind.
  rewrite (foldM_layer_step d ws Hd [] ws) by reflexivity.
  reflexivity.
Qed.

End WordsFacts.

(** ** [_write_text_block] *)

Lemma add_logs_nil σ : add_logs σ [] = σ.
Proof. destruct σ. unfold add_logs. simpl. rewrite app_nil_r. reflexivity. Qed.

Lemma add_logs_app σ l1 l2 : add_logs (add_logs σ l1) l2 = add_logs σ (l1 ++ l2).
Proof. unfold add_logs. simpl. rewrite app_assoc. reflexivity. Qed.

Section WriteBlockFacts.

Context `{Externals}.

(** The [try] body draws at [(x, H - y - height)] or raises, and leaves
    the world alone. *)
Lemma write_item_spec cv item text size σ :
  write_item cv item text size σ =
  (match item_y (snd size) item with
   | Ok y =>
       match drawString_raises cv (i_x item) y (utf8_roundtrip_ignore text) with
       | Some e => Raise e
       | None => Ok (add_code cv (DrawString (i_x item) y (utf8_roundtrip_ignore text)))
       end
   | Raise e => Raise e
   end, σ).
Proof.
  unfold write_item, item_y, bind, lift, drawString, raise, ret.
  destruct (py_sub (PyInt (snd size)) (i_y item)) as [t|e]; [|reflexivity].
  destruct (py_sub t (i_height item)) as [y|e]; [|reflexivity].
  destruct (drawString_raises _ _ _ _); reflexivity.
Qed.

(** One item of a block, unfolded: an item without text is passed
    over, an item that cannot be drawn leaves a warning, and the
    others add their command. *)
Lemma write_text_block_step cv item rest size σ :
  _write_text_block cv (item :: rest) size σ =
  match py_strip (i_text item) with
  | Raise e => (Raise e, σ)
  | Ok [] => _write_text_block cv rest size σ
  | Ok ((_ :: _) as t) =>
      match item_y (snd size) item with
      | Ok y =>
          match drawString_raises cv (i_x item) y (utf8_roundtrip_ignore t) with
          | Some e =>
              _write_text_block cv rest size
                (add_logs σ [(WARNING, FailedToWriteText e)])
          | None =>
              _write_text_block
                (add_code cv (DrawString (i_x item) y (utf8_roundtrip_ignore t)))
                rest size σ
          end
      | Raise e =>
          _write_text_block cv rest size
            (add_logs σ [(WARNING, FailedToWriteText e)])
      end
  end.
Proof.
  cbn [_write_text_block].
  destruct (py_strip (i_text item)) as [[|ch t]|e]; try reflexivity.
  rewrite bind_lift_Ok. unfold bind, try_except. rewrite write_item_spec.
  destruct (item_y (snd size) item) as [y|e]; [|reflexivity].
  destruct (drawString_raises _ _ _ _); reflexivity.
Qed.

(** [_write_text_block] does not read the world and only adds to its
    log. *)
Lemma write_text_block_world cv blk size :
  exists r new, forall σ, _write_text_block cv blk size σ = (r, add_logs σ new).
Proof.
  revert cv. induction blk as [|item rest IH]; intros cv.
  - exists (Ok cv), []. intros σ. rewrite add_logs_nil. reflexivity.
  - destruct (py_strip (i_text item)) as [[|ch t]|e] eqn:Hs.
    + destruct (IH cv) as (r & new & Hr). exists r, new. intros σ.
      rewrite write_text_block_step, Hs. apply Hr.
    + destruct (item_y (snd size) item) as [y|e] eqn:Hy.
      * destruct (drawString_raises cv (i_x item) y (utf8_roundtrip_ignore (ch :: t)))
          as [e|] eqn:Hd.
        -- destruct (IH cv) as (r & new & Hr).
           exists r, ((WARNING, FailedToWriteText e) :: new). intros σ.
           rewrite write_text_block_step, Hs, Hy, Hd, Hr, add_logs_app.
           reflexivity.
        -- destruct (IH (add_code cv
              (DrawString (i_x item) y (utf8_roundtrip_ignore (ch :: t)))))
             as (r & new & Hr).
           exists r, new. intros σ.
           rewrite write_text_block_step, Hs, Hy, Hd. apply Hr.
      * destruct (IH cv) as (r & new & Hr).
        exists r, ((WARNING, FailedToWriteText e) :: new). intros σ.
        rewrite write_text_block_step, Hs, Hy, Hr, add_logs_app. reflexivity.
    + exists (Raise e), []. intros σ.
      rewrite write_text_block_step, Hs, add_logs_nil. reflexivity.
Qed.

End WriteBlockFacts.

(** ** The confidence filter *)

Lemma float_eq_not_lt f n : float_eq_int f n = true -> float_lt_int f n = false.
Proof.
  unfold float_eq_int, float_lt_int.
  destruct (float_cmp_int f n) as [[]|]; congruence.
Qed.

Section FilterFacts.

Context `{Externals}.
Variable self : PdfOcrProcessor.
Variable size : Z * Z.

Lemma word_step_skip st w f σ :
  py_float (w_conf w) = Ok f ->
  float_lt_int f (conf_threshold self) = true ->
  word_step self size st w σ = (Ok st, σ).
Proof.
  intros Hf Hlt. unfold word_step. rewrite Hf, bind_lift_Ok, Hlt. reflexivity.
Qed.

Lemma layer_of_words_skip l1 w l2 f σ :
  py_float (w_conf w) = Ok f ->
  float_lt_int f (conf_threshold self) = true ->
  layer_of_words self (l1 ++ w :: l2) size σ = layer_of_words self (l1 ++ l2) size σ.
Proof.
  intros Hf Hlt. unfold layer_of_words.
  apply bind_ext. intros c0 σ0.
  set (st0 := {| c := _; last_block_num := _; text_block := _ |}).
  unfold bind. rewrite !foldM_app. unfold bind.
  destruct (foldM (word_step self size) st0 l1 σ0) as [[st1|e] σ1]; [|reflexivity].
  cbn [foldM]. unfold bind.
  rewrite (word_step_skip st1 w f σ1 Hf Hlt). reflexivity.
Qed.

(** What is on the canvas stays there. *)
Lemma write_text_block_keeps blk : forall cv σ cv' σ' cmd,
  _write_text_block cv blk size σ = (Ok cv', σ') ->
  In cmd (code cv) -> In cmd (code cv').
Proof.
  induction blk as [|item rest IH]; intros cv σ cv' σ' cmd.
  - intros [= <- <-]. auto.
  - rewrite write_text_block_step.
    destruct (py_strip (i_text item)) as [[|ch t]|e]; [eauto| |discriminate].
    destruct (item_y (snd size) item) as [y|e]; [|eauto].
    destruct (drawString_raises _ _ _ _); [eauto|].
    intros Hrun Hin. eapply IH; [exact Hrun|].
    simpl. apply in_or_app. left. exact Hin.
Qed.

(** An item of the block whose command can be drawn is drawn. *)
Lemma write_text_block_draws blk : forall cv σ cv' σ' item x y t,
  _write_text_block cv blk size σ = (Ok cv', σ') ->
  In item blk ->
  item_cmd (snd size) item = Some (DrawString x y t) ->
  (forall cv0, drawString_raises cv0 x y t = None) ->
  In (DrawString x y t) (code cv').
Proof.
  induction blk as [|item0 rest IH]; intros cv σ cv' σ' item x y t Hrun Hin Hcmd Hdraw;
    [destruct Hin|].
  rewrite write_text_block_step in Hrun.
  destruct Hin as [<-|Hin].
  - unfold item_cmd in Hcmd. unfold py_strip in Hrun.
    destruct (i_text item0) as [| | |s]; try discriminate.
    destruct (str_strip s) as [|ch t0]; [discriminate|].
    destruct (item_y (snd size) item0) as [y0|e]; [|discriminate].
    injection Hcmd as <- <- <-.
    rewrite Hdraw in Hrun.
    eapply write_text_block_keeps; [exact Hrun|].
    simpl. apply in_or_app. right. left. reflexivity.
  - destruct (py_strip (i_text item0)) as [[|ch t0]|e]; [eauto| |discriminate].
    destruct (item_y (snd size) item0) as [y0|e]; [|eauto].
    destruct (drawString_raises _ _ _ _); eauto.
Qed.

Lemma flush_keeps cv blk σ cv' σ' cmd :
  flush cv blk size σ = (Ok cv', σ') -> In cmd (code cv) -> In cmd (code cv').
Proof.
  destruct blk as [|item rest]; [intros [= <- <-]; auto|].
  apply write_text_block_keeps.
Qed.

Lemma flush_draws cv blk σ cv' σ' item x y t :
  flush cv blk size σ = (Ok cv', σ') ->
  In item blk ->
  item_cmd (snd size) item = Some (DrawString x y t) ->
  (forall cv0, drawString_raises cv0 x y t = None) ->
  In (DrawString x y t) (code cv').
Proof.
  destruct blk as [|item0 rest]; [intros _ []|].
  apply write_text_block_draws.
Qed.

Lemma word_step_keeps st w σ st' σ' item x y t :
  word_step self size st w σ = (Ok st', σ') ->
  item_cmd (snd size) item = Some (DrawString x y t) ->
  (forall cv0, drawString_raises cv0 x y t = None) ->
  drawn_or_buffered item (DrawString x y t) st ->
  drawn_or_buffered item (DrawString x y t) st'.
Proof.
  intros Hrun Hcmd Hdraw Hinv. unfold word_step in Hrun.
  destruct (py_float (w_conf w)) as [f|e]; [|discriminate].
  rewrite bind_lift_Ok in Hrun.
  destruct (float_lt_int f (conf_threshold self)).
  { injection Hrun as <- <-. exact Hinv. }
  destruct (py_ne (w_block_num w) (last_block_num st)).
  - unfold bind, ret in Hrun.
    destruct (flush (c st) (text_block st) size σ) as [[cv|e] σ1] eqn:Hfl;
      [|discriminate].
    injection Hrun as <- <-. left. simpl.
    destruct Hinv as [Hin|Hin].
    + eapply flush_keeps; eassumption.
    + eapply flush_draws; eassumption.
  - unfold bind, ret in Hrun. injection Hrun as <- <-.
    destruct Hinv as [Hin|Hin]; [left; exact Hin|].
    right. simpl. apply in_or_app. left. exact Hin.
Qed.

Lemma word_step_buffers st w f σ st' σ' :
  py_float (w_conf w) = Ok f ->
  float_lt_int f (conf_threshold self) = false ->
  word_step self size st w σ = (Ok st', σ') ->
  In (item_of w) (text_block st').
Proof.
  intros Hf Hlt. unfold word_step. rewrite Hf, bind_lift_Ok, Hlt.
  destruct (py_ne (w_block_num w) (last_block_num st)); unfold bind, ret.
  - destruct (flush (c st) (text_block st) size σ) as [[cv|e] σ1]; [|discriminate].
    intros [= <- <-]. simpl. left. reflexivity.
  - intros [= <- <-]. simpl. apply in_or_app. right. left. reflexivity.
Qed.

Lemma foldM_word_step_keeps ws : forall st σ st' σ' item x y t,
  foldM (word_step self size) st ws σ = (Ok st', σ') ->
  item_cmd (snd size) item = Some (DrawString x y t) ->
  (forall cv0, drawString_raises cv0 x y t = None) ->
  drawn_or_buffered item (DrawString x y t) st ->
  drawn_or_buffered item (DrawString x y t) st'.
Proof.
  induction ws as [|w ws IH]; intros st σ st' σ' item x y t Hrun Hcmd Hdraw Hinv.
  - injection Hrun as <- <-. exact Hinv.
  - cbn [foldM] in Hrun. unfold bind in Hrun.
    destruct (word_step self size st w σ) as [[st1|e] σ1] eqn:Hstep; [|discriminate].
    eapply IH; [exact Hrun|exact Hcmd|exact Hdraw|].
    eapply word_step_keeps; eassumption.
Qed.

(** A word that is not below the threshold and whose command can be
    drawn is on the layer, whatever rows surround it. *)
Lemma layer_of_words_draws l1 w l2 f x y t σ cv σ' :
  py_float (w_conf w) = Ok f ->
  float_lt_int f (conf_threshold self) = false ->
  item_cmd (snd size) (item_of w) = Some (DrawString x y t) ->
  (forall cv0, drawString_raises cv0 x y t = None) ->
  layer_of_words self (l1 ++ w :: l2) size σ = (Ok cv, σ') ->
  In (DrawString x y t) (code cv).
Proof.
  intros Hf Hlt Hcmd Hdraw. unfold layer_of_words, bind.
  destruct (setFont _ _ _ σ) as [[c0|e] σ0]; [|discriminate].
  rewrite foldM_app. unfold bind.
  destruct (foldM (word_step self size) _ l1 σ0) as [[st1|e] σ1]; [|discriminate].
  cbn [foldM]. unfold bind.
  destruct (word_step self size st1 w σ1) as [[st2|e] σ2] eqn:Hstep; [|discriminate].
  destruct (foldM (word_step self size) st2 l2 σ2) as [[st3|e] σ3] eqn:Hrest;
    [|discriminate].
  intros Hfl.
  assert (Hinv : drawn_or_buffered (item_of w) (DrawString x y t) st3).
  { eapply foldM_word_step_keeps; [exact Hrest|exact Hcmd|exact Hdraw|].
    right. eapply word_step_buffers; eassumption. }
  destruct Hinv as [Hin|Hin].
  - eapply flush_keeps; eassumption.
  - eapply flush_draws; eassumption.
Qed.

End FilterFacts.

(** C1.  A word whose confidence, coerced with [float], is strictly below
    the threshold leaves no trace: the layer is the one the same rows give
    without it.  The comparison is strict: a word whose confidence equals
    the threshold passes, and its command (its text being non-empty once
    stripped) is on the layer whenever drawing it does not fail.  The
    threshold [__init__] sets is 60. *)
Theorem low_confidence_words_are_not_drawn `{Externals}
    (self : PdfOcrProcessor) (size : Z * Z) (l1 l2 : list WordRecord)
    (w : WordRecord) (f : spec_float) :
  py_float (w_conf w) = Ok f ->
  (float_lt_int f (conf_threshold self) = true ->
   forall σ,
     _create_text_layer self (ocr_of_words (l1 ++ w :: l2)) size σ =
     _create_text_layer self (ocr_of_words (l1 ++ l2)) size σ) /\
  (float_eq_int f (conf_threshold self) = true ->
   forall x y t σ cv σ',
     item_cmd (snd size) (item_of w) = Some (DrawString x y t) ->
     (forall cv0, drawString_raises cv0 x y t = None) ->
     _create_text_layer self (ocr_of_words (l1 ++ w :: l2)) size σ = (Ok cv, σ') ->
     In (DrawString x y t) (code cv)) /\
  (forall σ p σ', __init__ σ = (Ok p, σ') -> conf_threshold p = 60).
Proof.
  intros Hf. split; [|split].
  - intros Hlt σ.
    rewrite !(create_text_layer_words self size _ _ σ (presents_ocr_of_words _)).
    eapply layer_of_words_skip; eassumption.
  - intros Heq x y t σ cv σ' Hcmd Hdraw.
    rewrite (create_text_layer_words self size _ _ σ (presents_ocr_of_words _)).
    eapply layer_of_words_draws; try eassumption.
    apply float_eq_not_lt. exact Heq.
  - intros σ p σ'. unfold __init__, bind, ret.
    destruct (_setup_font σ) as [[name|e] σ1]; [|discriminate].
    intros [= <- <-]. reflexivity.
Qed.

(** ** The coordinates *)

Lemma item_y_int H item y h :
  i_y item = PyInt y -> i_height item = PyInt h ->
  item_y H item = Ok (PyInt (H - y - h)).
Proof. intros Hy Hh. unfold item_y. rewrite Hy, Hh. reflexivity. Qed.

Lemma item_cmd_inv H item cmd :
  item_cmd H item = Some cmd ->
  exists s yv,
    i_text item = PyStr s /\ str_strip s <> [] /\ item_y H item = Ok yv /\
    cmd = DrawString (i_x item) yv (utf8_roundtrip_ignore (str_strip s)).
Proof.
  unfold item_cmd. destruct (i_text item) as [| | |s]; try discriminate.
  destruct (str_strip s) as [|ch t] eqn:Hs; [discriminate|].
  destruct (item_y H item) as [yv|e]; [|discriminate].
  intros [= <-]. exists s, yv. rewrite Hs. repeat split. discriminate.
Qed.

(** The commands a block adds are the commands of its items. *)
Lemma write_text_block_code `{Externals} size blk : forall cv σ cv' σ',
  _write_text_block cv blk size σ = (Ok cv', σ') ->
  exists new,
    code cv' = code cv ++ new /\
    Forall (fun cmd => exists item,
              In item blk /\ item_cmd (snd size) item = Some cmd) new.
Proof.
  induction blk as [|item rest IH]; intros cv σ cv' σ'.
  - intros [= <- <-]. exists []. rewrite app_nil_r. split; [reflexivity|constructor].
  - rewrite write_text_block_step.
    assert (Hrest : forall cv1 σ1,
      _write_text_block cv1 rest size σ1 = (Ok cv', σ') ->
      exists new, code cv' = code cv1 ++ new /\
        Forall (fun cmd => exists it,
                  In it (item :: rest) /\ item_cmd (snd size) it = Some cmd) new).
    { intros cv1 σ1 Hrun. destruct (IH _ _ _ _ Hrun) as (new & Hcode & Hall).
      exists new. split; [exact Hcode|].
      eapply Forall_impl; [exact Hall|].
      intros cmd (it & Hin & Hcmd). exists it. split; [right; exact Hin|exact Hcmd]. }
    unfold py_strip. destruct (i_text item) as [| | |s] eqn:Ht; try discriminate.
    destruct (str_strip s) as [|ch t] eqn:Hs; [apply Hrest|].
    destruct (item_y (snd size) item) as [y|e] eqn:Hy; [|apply Hrest].
    destruct (drawString_raises _ _ _ _); [apply Hrest|].
    intros Hrun. destruct (Hrest _ _ Hrun) as (new & Hcode & Hall).
    exists (DrawString (i_x item) y (utf8_roundtrip_ignore (ch :: t)) :: new).
    split.
    + rewrite Hcode. simpl. rewrite <- app_assoc. reflexivity.
    + constructor; [|exact Hall].
      exists item. split; [left; reflexivity|].
      unfold item_cmd. rewrite Ht, Hs, Hy. reflexivity.
Qed.

(** C2.  Every command [_write_text_block] adds on a page of height [H]
    draws one item of the block at the item's own [x] and at
    [H - y - height]; for integers that is the integer [H - y - height],
    880 for [H = 1000], [y = 100] and [height = 20]. *)
Theorem draw_position_is_bottom_origin `{E : Externals}
    (cv : Canvas) (blk : list Item) (W H : Z) (σ : World)
    (cv' : Canvas) (σ' : World) :
  _write_text_block cv blk (W, H) σ = (Ok cv', σ') ->
  exists new,
    code cv' = code cv ++ new /\
    Forall (fun cmd =>
      exists item s yv,
        In item blk /\ i_text item = PyStr s /\
        item_y H item = Ok yv /\
        cmd = DrawString (i_x item) yv (utf8_roundtrip_ignore (str_strip s)) /\
        (forall y h, i_y item = PyInt y -> i_height item = PyInt h ->
                     yv = PyInt (H - y - h)) /\
        (H = 1000 -> i_y item = PyInt 100 -> i_height item = PyInt 20 ->
         yv = PyInt 880)) new.
Proof.
  intros Hrun. destruct (write_text_block_code _ _ _ _ _ _ Hrun) as (new & Hcode & Hall).
  exists new. split; [exact Hcode|].
  eapply Forall_impl; [exact Hall|].
  intros cmd (item & Hin & Hcmd). simpl in Hcmd.
  destruct (item_cmd_inv _ _ _ Hcmd) as (s & yv & Ht & _ & Hy & ->).
  exists item, s, yv. repeat split; try assumption.
  - intros y h Hiy Hih. rewrite (item_y_int H item y h Hiy Hih) in Hy. congruence.
  - intros -> Hiy Hih. rewrite (item_y_int 1000 item 100 20 Hiy Hih) in Hy.
    injection Hy as <-. reflexivity.
Qed.

(** ** Blocks *)

Lemma bind_ret_r {A} (m : M A) σ : bind m ret σ = m σ.
Proof. unfold bind, ret. destruct (m σ) as [[a|e] σ']; reflexivity. Qed.

Lemma runs_cons w ws : exists g gs, runs (w :: ws) = (w :: g) :: gs.
Proof.
  simpl. destruct (runs ws) as [|[|v g] gs]; eauto.
  destruct (same_block w v); eauto.
Qed.

Lemma same_block_int a b n m :
  w_block_num a = PyInt n -> w_block_num b = PyInt m ->
  same_block a b = (n =? m).
Proof.
  intros Ha Hb. unfold same_block. rewrite Ha, Hb. simpl.
  apply negb_involutive.
Qed.

(** A run that is followed by nothing, or by a row of another block,
    stands by itself. *)
Lemma runs_run cur buf rest :
  buf <> [] ->
  Forall (fun v => w_block_num v = PyInt cur) buf ->
  (rest = [] \/
   exists w r n, rest = w :: r /\ w_block_num w = PyInt n /\ n <> cur) ->
  runs (buf ++ rest) = buf :: runs rest.
Proof.
  intros Hne Hall Hrest. induction buf as [|b buf IH]; [congruence|].
  apply Forall_cons in Hall as [Hb Hall].
  destruct buf as [|b' buf].
  - simpl. destruct Hrest as [->|(w & r & n & -> & Hw & Hn)]; [reflexivity|].
    destruct (runs_cons w r) as (g & gs & Hr). rewrite Hr.
    rewrite (same_block_int b w cur n Hb Hw).
    destruct (Z.eqb_spec cur n); [congruence|reflexivity].
  - change ((b :: b' :: buf) ++ rest) with (b :: ((b' :: buf) ++ rest)).
    cbn [runs]. rewrite IH by (congruence || assumption).
    apply Forall_cons in Hall as [Hb' Hall].
    rewrite (same_block_int b b' cur cur Hb Hb'), Z.eqb_refl. reflexivity.
Qed.

Section BlockFacts.

Context `{Externals}.
Variable self : PdfOcrProcessor.
Variable size : Z * Z.


Lemma passes_coerced w f :
  py_float (w_conf w) = Ok f ->
  passes self w = negb (float_lt_int f (conf_threshold self)).
Proof. intros Hf. unfold passes. rewrite Hf. reflexivity. Qed.

(** The loop from a buffer that holds a run in progress. *)
Lemma loop_runs ws : forall buf cur cv σ,
  Forall int_block ws -> Forall coercible ws ->
  buf <> [] -> Forall (fun v => w_block_num v = PyInt cur) buf ->
  bind (foldM (word_step self size)
          {| c := cv; last_block_num := PyInt cur; text_block := map item_of buf |}
          ws) (final_flush size) σ
  = foldM (block_writer size) cv (map (map item_of) (runs (buf ++ List.filter (passes self) ws))) σ.
Proof.
  induction ws as [|w ws IH]; intros buf cur cv σ Hint Hco Hne Hall.
  - simpl. rewrite (runs_run cur buf []) by auto. simpl.
    rewrite bind_ret_r. unfold final_flush, flush, block_writer. simpl.
    destruct buf; [congruence|reflexivity].
  - apply Forall_cons in Hint as [[n Hn] Hint].
    apply Forall_cons in Hco as [Hc Hco].
    unfold coercible in Hc.
    destruct (py_float (w_conf w)) as [f|e] eqn:Hf; [|discriminate].
    cbn [foldM List.filter]. rewrite (passes_coerced w f Hf).
    unfold word_step at 1. rewrite Hf. monad_norm.
    destruct (float_lt_int f (conf_threshold self)); simpl negb; cbv iota.
    { monad_norm. apply IH; assumption. }
    cbn [last_block_num c text_block]. rewrite Hn. simpl py_ne.
    destruct (Z.eqb_spec n cur) as [->|Hneq]; simpl negb; cbv iota.
    + monad_norm. cbn [last_block_num c text_block].
      change [item_of w] with (map item_of [w]).
      rewrite <- (map_app item_of buf [w]).
      rewrite (IH (buf ++ [w]) cur cv σ Hint Hco).
      * rewrite <- app_assoc. reflexivity.
      * destruct buf; discriminate.
      * apply Forall_app. split; [assumption|]. constructor; [assumption|constructor].
    + rewrite (runs_run cur buf (w :: _)); [|assumption|assumption|].
      2:{ right. exists w, (List.filter (passes self) ws), n. auto. }
      cbn [map foldM]. monad_norm. unfold flush at 1.
      destruct (map item_of buf) as [|it its] eqn:Hbuf.
      { destruct buf; [congruence|discriminate]. }
      unfold block_writer at 1. apply bind_ext. intros cv' σ'.
      monad_norm. cbn [last_block_num c text_block app].
      apply (IH [w] n cv' σ' Hint Hco); [discriminate|].
      constructor; [assumption|constructor].
Qed.

(** The loop from the empty buffer. *)
Lemma loop_runs_start ws : forall cv σ,
  Forall int_block ws -> Forall coercible ws ->
  bind (foldM (word_step self size)
          {| c := cv; last_block_num := PyInt (-1); text_block := [] |} ws)
       (final_flush size) σ
  = foldM (block_writer size) cv (map (map item_of) (runs (List.filter (passes self) ws))) σ.
Proof.
  induction ws as [|w ws IH]; intros cv σ Hint Hco; [reflexivity|].
  apply Forall_cons in Hint as [[n Hn] Hint].
  apply Forall_cons in Hco as [Hc Hco].
  unfold coercible in Hc.
  destruct (py_float (w_conf w)) as [f|e] eqn:Hf; [|discriminate].
  cbn [foldM List.filter]. rewrite (passes_coerced w f Hf).
  unfold word_step at 1. rewrite Hf. monad_norm.
  destruct (float_lt_int f (conf_threshold self)); simpl negb; cbv iota.
  { monad_norm. apply IH; assumption. }
  assert (Hgo :
    bind (foldM (word_step self size)
            {| c := cv; last_block_num := PyInt n; text_block := [item_of w] |} ws)
         (final_flush size) σ
    = foldM (block_writer size) cv (map (map item_of) (runs (w :: List.filter (passes self) ws))) σ).
  { apply (loop_runs ws [w] n cv σ Hint Hco); [discriminate|].
    constructor; [assumption|constructor]. }
  cbn [last_block_num c text_block]. rewrite Hn. simpl py_ne.
  destruct (Z.eqb_spec n (-1)) as [->|Hneq]; simpl negb; cbv iota.
  - monad_norm. exact Hgo.
  - unfold flush at 1. monad_norm. exact Hgo.
Qed.

Lemma layer_of_words_runs ws σ :
  Forall int_block ws -> Forall coercible ws ->
  layer_of_words self ws size σ
  = layer_of_blocks self
      (map (map item_of) (runs (List.filter (passes self) ws))) size σ.
Proof.
  intros Hint Hco. unfold layer_of_words, layer_of_blocks.
  apply bind_ext. intros c0 σ0.
  apply (loop_runs_start ws _ σ0 Hint Hco).
Qed.

(** The loop over the first rows of a dict is the loop over these
    rows. *)
Lemma foldM_layer_step_upto d ws :
  presents d ws ->
  forall todo done rest st σ, ws = done ++ todo ++ rest ->
  foldM (layer_step self d size) st (seq (length done) (length todo)) σ
  = foldM (word_step self size) st todo σ.
Proof.
  intros Hd todo.
  induction todo as [|w todo IH]; intros done rest st σ Hws; [reflexivity|].
  simpl. unfold bind.
  rewrite (layer_step_word self size d ws (length done) w st σ Hd).
  2:{ subst ws. rewrite lookup_app_r by lia.
      replace (length done - length done)%nat with 0%nat by lia. reflexivity. }
  destruct (word_step self size st w σ) as [[st'|e] σ']; [|reflexivity].
  specialize (IH (done ++ [w]) rest st' σ').
  rewrite length_app in IH. simpl in IH.
  replace (length done + 1)%nat with (S (length done)) in IH by lia.
  apply IH. subst ws. rewrite <- !app_assoc. reflexivity.
Qed.

Lemma loop_after_cons g gs cv σ :
  gs <> [] ->
  loop_after size cv (g :: gs) σ
  = bind (block_writer size cv (map item_of g))
         (fun cv' => loop_after size cv' gs) σ.
Proof.
  intros Hne. destruct gs as [|g' gs]; [congruence|].
  unfold loop_after.
  change (List.removelast (g :: g' :: gs)) with (g :: List.removelast (g' :: gs)).
  change (List.last (g :: g' :: gs) []) with (List.last (g' :: gs) []).
  cbn [map foldM]. rewrite bind_assoc. reflexivity.
Qed.

(** Where the loop stands after some rows, from a buffer that holds a
    run in progress: the runs that are over have been flushed, the last
    one is in the buffer. *)
Lemma loop_state ws : forall buf cur cv σ,
  Forall int_block ws -> Forall coercible ws ->
  buf <> [] -> Forall (fun v => w_block_num v = PyInt cur) buf ->
  foldM (word_step self size)
    {| c := cv; last_block_num := PyInt cur; text_block := map item_of buf |}
    ws σ
  = loop_after size cv (runs (buf ++ List.filter (passes self) ws)) σ.
Proof.
  induction ws as [|w ws IH]; intros buf cur cv σ Hint Hco Hne Hall.
  - simpl. rewrite (runs_run cur buf []) by auto. simpl.
    unfold loop_after. cbn [List.removelast List.last map foldM]. rewrite bind_ret.
    destruct buf as [|b buf]; [congruence|].
    apply Forall_cons in Hall as [Hb _]. cbn [block_of]. rewrite Hb.
    reflexivity.
  - apply Forall_cons in Hint as [[n Hn] Hint].
    apply Forall_cons in Hco as [Hc Hco].
    unfold coercible in Hc.
    destruct (py_float (w_conf w)) as [f|e] eqn:Hf; [|discriminate].
    cbn [foldM List.filter]. rewrite (passes_coerced w f Hf).
    unfold word_step at 1. rewrite Hf. monad_norm.
    destruct (float_lt_int f (conf_threshold self)); simpl negb; cbv iota.
    { monad_norm. apply IH; assumption. }
    cbn [last_block_num c text_block]. rewrite Hn. simpl py_ne.
    destruct (Z.eqb_spec n cur) as [->|Hneq]; simpl negb; cbv iota.
    + monad_norm. cbn [last_block_num c text_block].
      change [item_of w] with (map item_of [w]).
      rewrite <- (map_app item_of buf [w]).
      rewrite (IH (buf ++ [w]) cur cv σ Hint Hco).
      * rewrite <- app_assoc. reflexivity.
      * destruct buf; discriminate.
      * apply Forall_app. split; [assumption|]. constructor; [assumption|constructor].
    + rewrite (runs_run cur buf (w :: _)); [|assumption|assumption|].
      2:{ right. exists w, (List.filter (passes self) ws), n. auto. }
      rewrite loop_after_cons.
      2:{ destruct (runs_cons w (List.filter (passes self) ws)) as (g & gs & ->).
          discriminate. }
      monad_norm. unfold flush at 1.
      destruct (map item_of buf) as [|it its] eqn:Hbuf.
      { destruct buf; [congruence|discriminate]. }
      unfold block_writer at 1. apply bind_ext. intros cv' σ'.
      monad_norm. cbn [last_block_num c text_block app].
      apply (IH [w] n cv' σ' Hint Hco); [discriminate|].
      constructor; [assumption|constructor].
Qed.

(** Where the loop stands after some rows, from its start. *)
Lemma loop_state_start ws : forall cv σ,
  Forall int_block ws -> Forall coercible ws ->
  foldM (word_step self size)
    {| c := cv; last_block_num := PyInt (-1); text_block := [] |} ws σ
  = loop_after size cv (runs (List.filter (passes self) ws)) σ.
Proof.
  induction ws as [|w ws IH]; intros cv σ Hint Hco; [reflexivity|].
  apply Forall_cons in Hint as [[n Hn] Hint].
  apply Forall_cons in Hco as [Hc Hco].
  unfold coercible in Hc.
  destruct (py_float (w_conf w)) as [f|e] eqn:Hf; [|discriminate].
  cbn [foldM List.filter]. rewrite (passes_coerced w f Hf).
  unfold word_step at 1. rewrite Hf. monad_norm.
  destruct (float_lt_int f (conf_threshold self)); simpl negb; cbv iota.
  { monad_norm. apply IH; assumption. }
  assert (Hgo :
    foldM (word_step self size)
      {| c := cv; last_block_num := PyInt n; text_block := [item_of w] |} ws σ
    = loop_after size cv (runs (w :: List.filter (passes self) ws)) σ).
  { apply (loop_state ws [w] n cv σ Hint Hco); [discriminate|].
    constructor; [assumption|constructor]. }
  cbn [last_block_num c text_block]. rewrite Hn. simpl py_ne.
  destruct (Z.eqb_spec n (-1)) as [->|Hneq]; simpl negb; cbv iota.
  - monad_norm. exact Hgo.
  - unfold flush at 1. monad_norm. exact Hgo.
Qed.

(** A row whose confidence [float] refuses stops the layer there: the
    runs that were over before it have been flushed, the one in the
    buffer has not. *)
Lemma layer_of_words_stops pre w rest e σ :
  Forall int_block pre -> Forall coercible pre ->
  py_float (w_conf w) = Raise e ->
  layer_of_words self (pre ++ w :: rest) size σ
  = layer_stopped self
      (map (map item_of) (List.removelast (runs (List.filter (passes self) pre))))
      e size σ.
Proof.
  intros Hint Hco Hf. unfold layer_of_words, layer_stopped.
  apply bind_ext. intros c0 σ0.
  unfold bind at 1. rewrite foldM_app. unfold bind at 1.
  rewrite (loop_state_start pre _ σ0 Hint Hco).
  unfold loop_after, bind.
  destruct (foldM (block_writer size) _ _ σ0) as [[cv'|e'] σ1]; [|reflexivity].
  unfold ret. cbn [foldM]. unfold bind, word_step, bind, lift.
  rewrite Hf. reflexivity.
Qed.

End BlockFacts.

Lemma runs_nonempty ws : Forall (fun g => g <> []) (runs ws).
Proof.
  induction ws as [|w ws IH]; [constructor|].
  simpl. destruct (runs ws) as [|[|v g] gs].
  - repeat constructor. discriminate.
  - repeat constructor. discriminate.
  - destruct (same_block w v).
    + apply Forall_cons in IH as [_ IH]. constructor; [discriminate|exact IH].
    + constructor; [discriminate|exact IH].
Qed.

(** The runs, put end to end, are the rows. *)
Lemma concat_runs ws : concat (runs ws) = ws.
Proof.
  induction ws as [|w ws IH]; [reflexivity|].
  pose proof (runs_nonempty ws) as Hne.
  simpl. destruct (runs ws) as [|[|v g] gs] eqn:Hr.
  - simpl in *. subst ws. reflexivity.
  - apply Forall_cons in Hne as [Hne _]. congruence.
  - destruct (same_block w v); simpl in *; rewrite <- IH; reflexivity.
Qed.

(** C3.  When the block ids are integers and every confidence is
    accepted by [float], the layer is what comes of flushing, one after
    the other on a fresh canvas, the contiguous runs of rows with the same
    block id among the rows that pass the confidence filter: the runs
    are taken in order, they lose and merge nothing, the last one is
    flushed at the end of the rows, and rows with the ids 1, 1, 2, 1
    give the three runs of the first two rows, the third and the
    fourth.  The rows below the threshold are not among the rows the
    runs are made of.

    The flushes happen where the runs end, and nowhere else.  After the
    loop has read the rows [ws], whatever rows follow them, the runs
    before the last have been flushed, in order, the last run waits in
    the buffer and [last_block_num] is its id; what the rows below the
    threshold hold changes none of this.  It shows when the loop is
    stopped: if the row after [ws] has a confidence [float] refuses,
    the layer raises the exception of [float] after the flushes of the
    runs before the last, with their warnings and their errors, and
    without the flush of the last run. *)
Theorem blocks_are_contiguous_runs `{Externals}
    (self : PdfOcrProcessor) (size : Z * Z) (ws : list WordRecord) :
  Forall int_block ws -> Forall coercible ws ->
  (forall σ,
     _create_text_layer self (ocr_of_words ws) size σ =
     layer_of_blocks self
       (map (map item_of) (runs (List.filter (passes self) ws))) size σ) /\
  concat (runs (List.filter (passes self) ws)) = List.filter (passes self) ws /\
  (forall a b c d,
     w_block_num a = PyInt 1 -> w_block_num b = PyInt 1 ->
     w_block_num c = PyInt 2 -> w_block_num d = PyInt 1 ->
     runs [a; b; c; d] = [[a; b]; [c]; [d]]) /\
  (forall rest cv σ,
     foldM (layer_step self (ocr_of_words (ws ++ rest)) size)
       {| c := cv; last_block_num := PyInt (-1); text_block := [] |}
       (seq 0 (length ws)) σ
     = loop_after size cv (runs (List.filter (passes self) ws)) σ) /\
  (forall w rest e σ,
     py_float (w_conf w) = Raise e ->
     _create_text_layer self (ocr_of_words (ws ++ w :: rest)) size σ
     = layer_stopped self
         (map (map item_of) (List.removelast (runs (List.filter (passes self) ws))))
         e size σ).
Proof.
  intros Hint Hco. split; [|split; [|split; [|split]]].
  - intros σ.
    rewrite (create_text_layer_words self size _ _ σ (presents_ocr_of_words _)).
    apply layer_of_words_runs; assumption.
  - apply concat_runs.
  - intros a b c0 d Ha Hb Hc Hd. cbn [runs].
    rewrite (same_block_int c0 d 2 1 Hc Hd). cbv [Z.eqb Pos.eqb]. cbv iota.
    rewrite (same_block_int b c0 1 2 Hb Hc). cbv [Z.eqb Pos.eqb]. cbv iota.
    rewrite (same_block_int a b 1 1 Ha Hb). reflexivity.
  - intros rest cv σ.
    rewrite (foldM_layer_step_upto self size _ (ws ++ rest)
               (presents_ocr_of_words _) ws [] rest _ σ eq_refl).
    apply loop_state_start; assumption.
  - intros w rest e σ Hf.
    rewrite (create_text_layer_words self size _ _ σ (presents_ocr_of_words _)).
    apply layer_of_words_stops; assumption.
Qed.

(** ** Failures of single words *)

Section WordFailureFacts.

Context `{Externals}.
Variable size : Z * Z.

Lemma write_text_block_app b1 : forall cv b2 σ,
  _write_text_block cv (b1 ++ b2) size σ =
  bind (_write_text_block cv b1 size)
       (fun cv1 => _write_text_block cv1 b2 size) σ.
Proof.
  induction b1 as [|item b1 IH]; intros cv b2 σ; [reflexivity|].
  cbn [app _write_text_block]. rewrite bind_assoc. apply bind_ext.
  intros [|ch t] σ1; [apply IH|].
  rewrite bind_assoc. apply bind_ext. intros cv1 σ2. apply IH.
Qed.

(** A block in which every text is a [str] never raises. *)
Lemma write_text_block_total blk : forall cv,
  Forall str_text blk ->
  exists cv' new, forall σ,
    _write_text_block cv blk size σ = (Ok cv', add_logs σ new).
Proof.
  induction blk as [|item rest IH]; intros cv Hall.
  - exists cv, []. intros σ. rewrite add_logs_nil. reflexivity.
  - apply Forall_cons in Hall as [[s Hs] Hall].
    assert (Hwarn : forall e, exists cv' new, forall σ,
      _write_text_block cv rest size (add_logs σ [(WARNING, FailedToWriteText e)])
      = (Ok cv', add_logs σ new)).
    { intros e. destruct (IH cv Hall) as (cv' & new & Hr).
      exists cv', ((WARNING, FailedToWriteText e) :: new). intros σ.
      rewrite Hr, add_logs_app. reflexivity. }
    destruct (str_strip s) as [|ch t] eqn:Hstrip.
    + destruct (IH cv Hall) as (cv' & new & Hr). exists cv', new. intros σ.
      rewrite write_text_block_step, Hs. simpl. rewrite Hstrip. apply Hr.
    + destruct (item_y (snd size) item) as [y|e] eqn:Hy.
      * destruct (drawString_raises cv (i_x item) y (utf8_roundtrip_ignore (ch :: t)))
          as [e|] eqn:Hd.
        -- destruct (Hwarn e) as (cv' & new & Hr). exists cv', new. intros σ.
           rewrite write_text_block_step, Hs. simpl. rewrite Hstrip, Hy, Hd. apply Hr.
        -- destruct (IH (add_code cv
              (DrawString (i_x item) y (utf8_roundtrip_ignore (ch :: t)))) Hall)
             as (cv' & new & Hr).
           exists cv', new. intros σ.
           rewrite write_text_block_step, Hs. simpl. rewrite Hstrip, Hy, Hd. apply Hr.
      * destruct (Hwarn e) as (cv' & new & Hr). exists cv', new. intros σ.
        rewrite write_text_block_step, Hs. simpl. rewrite Hstrip, Hy. apply Hr.
Qed.

(** An item whose text is empty once stripped is passed over. *)
Lemma write_text_block_blank cv b1 item b2 s σ :
  i_text item = PyStr s -> str_strip s = [] ->
  _write_text_block cv (b1 ++ item :: b2) size σ =
  _write_text_block cv (b1 ++ b2) size σ.
Proof.
  intros Hs Hstrip. rewrite !write_text_block_app. apply bind_ext.
  intros cv1 σ1. rewrite write_text_block_step, Hs. simpl. rewrite Hstrip.
  reflexivity.
Qed.

(** An item that cannot be drawn costs a warning and nothing else. *)
Lemma write_text_block_failing cv b1 item b2 s e σ :
  Forall str_text b1 ->
  i_text item = PyStr s -> str_strip s <> [] ->
  (forall cv0 σ0, write_item cv0 item (str_strip s) size σ0 = (Raise e, σ0)) ->
  fst (_write_text_block cv (b1 ++ item :: b2) size σ) =
  fst (_write_text_block cv (b1 ++ b2) size σ) /\
  In (WARNING, FailedToWriteText e)
     (log (snd (_write_text_block cv (b1 ++ item :: b2) size σ))).
Proof.
  intros Hb1 Hs Hstrip Hfail. rewrite !write_text_block_app. unfold bind.
  destruct (write_text_block_total b1 cv Hb1) as (cv1 & new1 & Hr1). rewrite Hr1.
  destruct (write_text_block_world cv1 b2 size) as (r2 & new2 & Hr2).
  rewrite write_text_block_step, Hs. simpl py_strip. cbv iota.
  specialize (Hfail cv1 σ). rewrite write_item_spec in Hfail.
  destruct (str_strip s) as [|ch t]; [congruence|].
  assert (Hgoal :
    fst (_write_text_block cv1 b2 size
           (add_logs (add_logs σ new1) [(WARNING, FailedToWriteText e)])) =
    fst (_write_text_block cv1 b2 size (add_logs σ new1)) /\
    In (WARNING, FailedToWriteText e)
      (log (snd (_write_text_block cv1 b2 size
           (add_logs (add_logs σ new1) [(WARNING, FailedToWriteText e)]))))).
  { rewrite !Hr2. simpl. split; [reflexivity|].
    apply in_or_app. left. apply in_or_app. right. left. reflexivity. }
  destruct (item_y (snd size) item) as [y|e0].
  - destruct (drawString_raises cv1 (i_x item) y (utf8_roundtrip_ignore (ch :: t)))
      as [e0|]; [|discriminate].
    injection Hfail as ->. exact Hgoal.
  - injection Hfail as ->. exact Hgoal.
Qed.

End WordFailureFacts.

(** C5 as the code has it.  In a block whose texts are strings,
    [_write_text_block] never raises, whatever fails while a word is drawn.  A word whose text is
    empty once stripped is passed over: the block gives what it gives
    without the word.  A word whose drawing raises is passed over too:
    the canvas is the one the block gives without the word, and the log
    has the warning. *)
Theorem word_failures_are_local `{Externals} (size : Z * Z) (cv : Canvas)
    (b1 b2 : list Item) (item : Item) (s : pystr) :
  Forall str_text b1 -> Forall str_text b2 -> i_text item = PyStr s ->
  (forall σ, is_Ok (fst (_write_text_block cv (b1 ++ item :: b2) size σ)) = true) /\
  (str_strip s = [] ->
   forall σ, _write_text_block cv (b1 ++ item :: b2) size σ =
             _write_text_block cv (b1 ++ b2) size σ) /\
  (forall e,
     str_strip s <> [] ->
     (forall cv0 σ0, write_item cv0 item (str_strip s) size σ0 = (Raise e, σ0)) ->
     forall σ,
       fst (_write_text_block cv (b1 ++ item :: b2) size σ) =
       fst (_write_text_block cv (b1 ++ b2) size σ) /\
       In (WARNING, FailedToWriteText e)
          (log (snd (_write_text_block cv (b1 ++ item :: b2) size σ)))).
Proof.
  intros Hb1 Hb2 Hs. split; [|split].
  - intros σ.
    assert (Hall : Forall str_text (b1 ++ item :: b2)).
    { apply Forall_app. split; [exact Hb1|].
      constructor; [exists s; exact Hs|exact Hb2]. }
    destruct (write_text_block_total size _ cv Hall) as (cv' & new & Hr).
    rewrite Hr. reflexivity.
  - intros Hstrip σ. eapply write_text_block_blank; eassumption.
  - intros e Hstrip Hfail σ. eapply write_text_block_failing; eassumption.
Qed.

(** ** What the computations leave of the world *)

Lemma keeps_files_ret {A} (a : A) : keeps_files (ret a).
Proof. intros σ p. reflexivity. Qed.

Lemma keeps_files_raise {A} e : keeps_files (@raise A e).
Proof. intros σ p. reflexivity. Qed.

Lemma keeps_files_lift {A} (r : result A) : keeps_files (lift r).
Proof. intros σ p. reflexivity. Qed.

Lemma keeps_files_logger lv m : keeps_files (logger lv m).
Proof. intros σ p. reflexivity. Qed.

Lemma keeps_files_bind {A B} (m : M A) (k : A -> M B) :
  keeps_files m -> (forall a, keeps_files (k a)) -> keeps_files (bind m k).
Proof.
  intros Hm Hk σ p. unfold bind. specialize (Hm σ p).
  destruct (m σ) as [[a|e] σ1]; simpl in *; [|exact Hm].
  rewrite <- Hm. apply Hk.
Qed.

Lemma keeps_files_try {A} (m : M A) (h : exn -> M A) :
  keeps_files m -> (forall e, keeps_files (h e)) -> keeps_files (try_except m h).
Proof.
  intros Hm Hh σ p. unfold try_except. specialize (Hm σ p).
  destruct (m σ) as [[a|e] σ1]; simpl in *; [exact Hm|].
  rewrite <- Hm. apply Hh.
Qed.

Lemma keeps_files_foldM {A S} (f : S -> A -> M S) l :
  (forall s a, keeps_files (f s a)) -> forall s, keeps_files (foldM f s l).
Proof.
  intros Hf. induction l as [|a l IH]; intros s.
  - apply keeps_files_ret.
  - simpl. apply keeps_files_bind; [apply Hf|exact IH].
Qed.

Lemma keeps_files_exists p : keeps_files (os_path_exists p).
Proof. intros σ q. reflexivity. Qed.

Lemma keeps_files_isdir p : keeps_files (os_path_isdir p).
Proof. intros σ q. reflexivity. Qed.

Lemma keeps_files_read p : keeps_files (read_file p).
Proof.
  intros σ q. unfold read_file. destruct (resolve σ p) as [[data|]|]; reflexivity.
Qed.

(** [mkdir] makes a directory where nothing was. *)
Lemma keeps_files_mkdir name : keeps_files (mkdir name).
Proof.
  intros σ q. unfold mkdir.
  destruct (String.eqb name ""); [reflexivity|].
  destruct (is_root name); [reflexivity|].
  destruct (fs σ !! unslash name) eqn:Hkey; [reflexivity|].
  destruct (check_parent σ (unslash name)); [reflexivity|].
  unfold file_at. simpl.
  destruct (decide (unslash name = q)) as [<-|Hne].
  - rewrite lookup_insert_eq, Hkey. reflexivity.
  - rewrite lookup_insert_ne by exact Hne. reflexivity.
Qed.

Lemma keeps_files_mkdir_exist_ok name : keeps_files (mkdir_exist_ok name).
Proof.
  unfold mkdir_exist_ok. apply keeps_files_try; [apply keeps_files_mkdir|].
  intros e. apply keeps_files_bind; [apply keeps_files_isdir|].
  intros [|]; [apply keeps_files_ret|apply keeps_files_raise].
Qed.

Lemma keeps_files_makedirs_upto n : forall name, keeps_files (makedirs_upto n name).
Proof.
  induction n as [|n IH]; intros name; cbn [makedirs_upto];
    destruct (posixpath_split name) as [head tail];
    destruct (if String.eqb tail "" then posixpath_split head else (head, tail))
      as [head' tail'];
    destruct (negb (String.eqb head' "") && negb (String.eqb tail' ""));
    try apply keeps_files_mkdir_exist_ok;
    (apply keeps_files_bind; [apply keeps_files_exists|]);
    intros [|]; try apply keeps_files_mkdir_exist_ok.
  apply keeps_files_bind.
  - apply keeps_files_try; [apply IH|].
    intros []; (apply keeps_files_ret || apply keeps_files_raise).
  - intros _. destruct (String.eqb tail' ".");
      [apply keeps_files_ret|apply keeps_files_mkdir_exist_ok].
Qed.

Lemma keeps_files_makedirs name : keeps_files (makedirs name).
Proof. apply keeps_files_makedirs_upto. Qed.

Section KeepsFiles.

Context `{Externals}.

Lemma keeps_files_write_text_block cv blk size :
  keeps_files (_write_text_block cv blk size).
Proof.
  intros σ p. destruct (write_text_block_world cv blk size) as (r & new & Hr).
  rewrite Hr. reflexivity.
Qed.

Lemma keeps_files_flush cv blk size : keeps_files (flush cv blk size).
Proof.
  destruct blk; [apply keeps_files_ret|apply keeps_files_write_text_block].
Qed.

Lemma keeps_files_setFont cv name size : keeps_files (setFont cv name size).
Proof. intros σ p. unfold setFont. destruct (font_known σ name); reflexivity. Qed.

Lemma keeps_files_layer_step self d size st i :
  keeps_files (layer_step self d size st i).
Proof.
  unfold layer_step.
  repeat first
    [ apply keeps_files_ret | apply keeps_files_lift | apply keeps_files_flush
    | apply keeps_files_bind; [|intros ?]
    | match goal with |- keeps_files (if ?b then _ else _) => destruct b end ].
Qed.

Lemma keeps_files_create_text_layer self d size :
  keeps_files (_create_text_layer self d size).
Proof.
  unfold _create_text_layer.
  apply keeps_files_bind; [apply keeps_files_setFont|]. intros c0.
  apply keeps_files_bind; [apply keeps_files_lift|]. intros texts.
  apply keeps_files_bind; [|intros st; apply keeps_files_flush].
  apply keeps_files_foldM. intros. apply keeps_files_layer_step.
Qed.

Lemma keeps_files_page_step self pages total writer it :
  keeps_files (page_step self pages total writer it).
Proof.
  destruct it as [i image]. unfold page_step.
  apply keeps_files_bind; [apply keeps_files_lift|]. intros d.
  apply keeps_files_bind; [apply keeps_files_create_text_layer|]. intros layer.
  repeat (apply keeps_files_bind; [apply keeps_files_lift|intros ?]).
  apply keeps_files_bind; [apply keeps_files_logger|]. intros _.
  apply keeps_files_ret.
Qed.

(** Nothing is written while the pages are assembled. *)
Lemma keeps_files_assemble self input_path output_path :
  keeps_files (assemble self input_path output_path).
Proof.
  unfold assemble.
  apply keeps_files_bind; [apply keeps_files_exists|]. intros there.
  destruct (negb there); [apply keeps_files_raise|].
  apply keeps_files_bind; [apply keeps_files_makedirs|]. intros _.
  apply keeps_files_bind; [apply keeps_files_logger|]. intros _.
  apply keeps_files_bind; [apply keeps_files_read|]. intros data.
  apply keeps_files_bind; [apply keeps_files_lift|]. intros images.
  apply keeps_files_bind; [apply keeps_files_read|]. intros data'.
  apply keeps_files_bind; [apply keeps_files_lift|]. intros pages.
  apply keeps_files_foldM. intros. apply keeps_files_page_step.
Qed.

End KeepsFiles.

(** ** [process_pdf] *)

Lemma open_wb_cases p σ :
  (exists e, open_wb p σ = (Raise e, σ)) \/
  open_wb p σ = (Ok tt, set_fs σ (<[p := File []]> (fs σ))).
Proof.
  unfold open_wb.
  destruct (String.eqb p ""); [left; eauto|].
  destruct (ends_with_slash p); [left; eauto|].
  destruct (fs σ !! p) as [[data|]|]; [|left; eauto|];
    (destruct (check_parent σ p); [left; eauto|right; reflexivity]).
Qed.

Lemma file_at_written σ p data q :
  file_at (set_fs σ (<[p := File data]> (fs σ))) q =
  if decide (p = q) then Some data else file_at σ q.
Proof.
  unfold file_at. simpl. destruct (decide (p = q)) as [<-|Hne].
  - rewrite lookup_insert_eq. reflexivity.
  - rewrite lookup_insert_ne by exact Hne. reflexivity.
Qed.

Section ProcessFacts.

Context `{Externals}.
Variable self : PdfOcrProcessor.

(** [save] fails before it touches the file, or leaves in the file what
    the writer wrote, all of it or the part before the failure. *)
Lemma save_cases writer output_path σ :
  (exists e, save writer output_path σ = (Raise e, σ)) \/
  (exists σ',
     save writer output_path σ =
       (match snd (writer_write writer) with Some e => Raise e | None => Ok tt end,
        σ') /\
     forall q, file_at σ' q =
               if decide (output_path = q) then Some (fst (writer_write writer))
               else file_at σ q).
Proof.
  unfold save, bind.
  destruct (open_wb_cases output_path σ) as [[e He]|Hok].
  - left. exists e. rewrite He. reflexivity.
  - right. rewrite Hok.
    destruct (writer_write writer) as [data failure]. simpl.
    eexists. split.
    + unfold write_bytes. simpl. destruct failure; reflexivity.
    + intros q. rewrite file_at_written. simpl.
      destruct (decide (output_path = q)); [reflexivity|].
      rewrite file_at_written. destruct (decide (output_path = q)); congruence.
Qed.

(** [process_pdf] after the pages are assembled. *)
Lemma process_pdf_unfold input_path output_path σ :
  process_pdf self input_path output_path σ =
  match assemble self input_path output_path σ with
  | (Raise e, σ1) =>
      (Ok (false, ErrorProcessingPdf e),
       add_logs σ1 [(ERROR, ErrorProcessingPdf e)])
  | (Ok writer, σ1) =>
      match save writer output_path σ1 with
      | (Raise e, σ2) =>
          (Ok (false, ErrorProcessingPdf e),
           add_logs σ2 [(ERROR, ErrorProcessingPdf e)])
      | (Ok _, σ2) =>
          (Ok (true, ProcessingCompleted),
           add_logs σ2 [(INFO, SavedSearchablePdf output_path)])
      end
  end.
Proof.
  unfold process_pdf, try_except, bind.
  destruct (assemble self input_path output_path σ) as [[writer|e] σ1];
    [|reflexivity].
  destruct (save writer output_path σ1) as [[[]|e] σ2]; reflexivity.
Qed.

Lemma assemble_missing input_path output_path σ :
  resolve σ input_path = None ->
  assemble self input_path output_path σ =
  (Raise (FileNotFoundError input_path), σ).
Proof.
  intros Hres. unfold assemble, bind, os_path_exists. rewrite Hres. reflexivity.
Qed.

End ProcessFacts.



(** [process_pdf] returns [True], or [False] with the error. *)
Lemma process_pdf_returns `{Externals} (self : PdfOcrProcessor)
    (input_path output_path : string) (σ : World) :
  (exists σ', process_pdf self input_path output_path σ
              = (Ok (true, ProcessingCompleted), σ')) \/
  (exists e σ', process_pdf self input_path output_path σ
                = (Ok (false, ErrorProcessingPdf e), σ')).
Proof.
  rewrite process_pdf_unfold.
  destruct (assemble self input_path output_path σ) as [[writer|e] σ1]; [|eauto].
  destruct (save writer output_path σ1) as [[[]|e] σ2]; eauto.
Qed.

(** When [process_pdf] returns [True], the pages were assembled, the
    writer wrote them all, and the output file holds what it wrote. *)
Lemma process_pdf_success `{Externals} (self : PdfOcrProcessor)
    (input_path output_path : string) (σ : World) msg σ' :
  process_pdf self input_path output_path σ = (Ok (true, msg), σ') ->
  exists writer σ1 data,
    assemble self input_path output_path σ = (Ok writer, σ1) /\
    writer_write writer = (data, None) /\
    file_at σ' output_path = Some data.
Proof.
  rewrite process_pdf_unfold.
  destruct (assemble self input_path output_path σ) as [[writer|e] σ1];
    [|discriminate].
  destruct (save_cases writer output_path σ1) as [[e He]|(σ2 & Hs & Hfiles)].
  - rewrite He. discriminate.
  - rewrite Hs. destruct (writer_write writer) as [data [e|]] eqn:Hw; simpl;
      [discriminate|].
    intros [= <- <-]. exists writer, σ1, data.
    split; [reflexivity|]. split; [exact Hw|].
    change (file_at σ2 output_path = Some data).
    rewrite Hfiles, decide_True by reflexivity. reflexivity.
Qed.

(** C4 as the code has it.  [process_pdf] never raises: it returns
    [True], or [False] with the message of the error.  A failure while the
    pages are assembled, or in opening the output file, leaves every file
    as it was; only a failure of the writer in the middle of its writing
    leaves the part it wrote at the output path.  On success the output
    path holds what the writer wrote of the pages assembled, and no other
    file has changed.  A missing input file gives a failure, and the file
    system is untouched. *)
Theorem failure_before_the_write_leaves_no_file `{Externals}
    (self : PdfOcrProcessor) (input_path output_path : string) (σ : World) :
  exists b msg σ',
    process_pdf self input_path output_path σ = (Ok (b, msg), σ') /\
    (b = false ->
     exists e, msg = ErrorProcessingPdf e /\
       ((forall p, file_at σ' p = file_at σ p) \/
        exists writer data,
          fst (assemble self input_path output_path σ) = Ok writer /\
          writer_write writer = (data, Some e) /\
          file_at σ' output_path = Some data)) /\
    (b = true ->
     exists writer data,
       fst (assemble self input_path output_path σ) = Ok writer /\
       writer_write writer = (data, None) /\
       file_at σ' output_path = Some data /\
       forall p, p <> output_path -> file_at σ' p = file_at σ p) /\
    (resolve σ input_path = None ->
     b = false /\ msg = ErrorProcessingPdf (FileNotFoundError input_path) /\
     fs σ' = fs σ).
Proof.
  rewrite process_pdf_unfold.
  pose proof (keeps_files_assemble self input_path output_path σ) as Hkeep.
  pose proof (assemble_missing self input_path output_path σ) as Hmiss.
  destruct (assemble self input_path output_path σ) as [[writer|e] σ1]; simpl in Hkeep.
  - destruct (save_cases writer output_path σ1) as [[e He]|(σ2 & Hs & Hfiles)].
    + rewrite He. do 3 eexists. split; [reflexivity|]. split; [|split].
      * intros _. exists e. split; [reflexivity|]. left. exact Hkeep.
      * discriminate.
      * intros Hres. specialize (Hmiss Hres). discriminate.
    + rewrite Hs. destruct (writer_write writer) as [data [e|]] eqn:Hw; simpl.
      * do 3 eexists. split; [reflexivity|]. split; [|split].
        -- intros _. exists e. split; [reflexivity|]. right.
           exists writer, data. split; [reflexivity|]. split; [exact Hw|].
           change (file_at σ2 output_path = Some data).
           rewrite Hfiles, decide_True by reflexivity. reflexivity.
        -- discriminate.
        -- intros Hres. specialize (Hmiss Hres). discriminate.
      * do 3 eexists. split; [reflexivity|]. split; [|split].
        -- discriminate.
        -- intros _. exists writer, data. split; [reflexivity|]. split; [exact Hw|].
           split.
           ++ change (file_at σ2 output_path = Some data).
              rewrite Hfiles, decide_True by reflexivity. reflexivity.
           ++ intros p Hp. change (file_at σ2 p = file_at σ p).
              rewrite Hfiles, decide_False by congruence. apply Hkeep.
        -- intros Hres. specialize (Hmiss Hres). discriminate.
  - do 3 eexists. split; [reflexivity|]. split; [|split].
    + intros _. exists e. split; [reflexivity|]. left. exact Hkeep.
    + discriminate.
    + intros Hres. specialize (Hmiss Hres). injection Hmiss as -> ->.
      repeat split; reflexivity.
Qed.

Lemma resolve_file σ p data :
  resolve σ p = Some (File data) -> file_at σ p = Some data.
Proof.
  unfold resolve, file_at.
  destruct (String.eqb p ""); [discriminate|].
  destruct (is_root p); [discriminate|].
  destruct (ends_with_slash p).
  - destruct (fs σ !! unslash p) as [[|]|]; discriminate.
  - intros ->. reflexivity.
Qed.

Section AssembleFacts.

Context `{Externals}.
Variable self : PdfOcrProcessor.

(** The page loop adds one page for each image, made of the page of
    the same index. *)
Lemma foldM_page_step pages total imgs : forall k writer σ out σ',
  foldM (page_step self pages total) writer (combine (seq k (length imgs)) imgs) σ
    = (Ok out, σ') ->
  exists new,
    out = writer ++ new /\ length new = length imgs /\
    forall j img, imgs !! j = Some img ->
      exists merged, new !! j = Some merged /\
                     page_made self pages (k + j) img merged.
Proof.
  induction imgs as [|img0 imgs IH]; intros k writer σ out σ'.
  - intros [= <- <-]. exists []. rewrite app_nil_r.
    split; [reflexivity|]. split; [reflexivity|]. intros j img Hj. discriminate.
  - cbn [length seq combine foldM]. unfold bind at 1, page_step at 1.
    unfold bind, lift, ret, logger.
    destruct (image_to_data img0) as [d|e] eqn:Hd; [|discriminate].
    destruct (_create_text_layer self d (image_size img0) σ) as [[layer|e] σ1]
      eqn:Hlayer; [|discriminate].
    unfold page_at.
    destruct (pages !! k) as [orig|] eqn:Hk; [|discriminate].
    destruct (layer_page layer) as [tp|e] eqn:Htp; [|discriminate].
    destruct (merge_page orig tp) as [merged0|e] eqn:Hm; [|discriminate].
    intros Hrest. apply IH in Hrest as (new & -> & Hlen & Hnew).
    exists (merged0 :: new). split; [rewrite <- app_assoc; reflexivity|].
    split; [simpl; rewrite Hlen; reflexivity|].
    intros [|j] img Hj.
    + injection Hj as <-. exists merged0. split; [reflexivity|].
      rewrite Nat.add_0_r. exists d, layer, orig, tp, σ, σ1. auto.
    + destruct (Hnew j img Hj) as (merged & Hnj & Hmade).
      exists merged. split; [exact Hnj|].
      replace (k + S j)%nat with (S k + j)%nat by lia. exact Hmade.
Qed.

(** When the pages are assembled, the input is a file, it has been
    rasterized and read, and the writer holds, for each image in order,
    the page of the same index with the layer of the image on it. *)
Lemma assemble_success input_path output_path σ out σ' :
  assemble self input_path output_path σ = (Ok out, σ') ->
  exists data images pages,
    file_at σ input_path = Some data /\
    convert_from_path data (dpi self) = Ok images /\
    PdfReader_pages data = Ok pages /\
    length out = length images /\
    forall i img, images !! i = Some img ->
      exists merged, out !! i = Some merged /\
                     page_made self pages i img merged.
Proof.
  unfold assemble, bind at 1, os_path_exists.
  destruct (resolve σ input_path) as [n|] eqn:Hin; [|discriminate].
  cbn [negb]. unfold bind at 1.
  pose proof (keeps_files_makedirs (dirname output_path) σ input_path) as Hkeep.
  destruct (makedirs (dirname output_path) σ) as [[[]|e] σ1]; [|discriminate].
  simpl in Hkeep. unfold bind at 1, logger at 1. unfold bind at 1, read_file at 1.
  set (σ2 := {| fs := fs σ1; fonts := fonts σ1;
                log := log σ1 ++ [(INFO, ConvertingPdfToImages)] |}).
  destruct (resolve σ2 input_path) as [[data|]|] eqn:Hres; try discriminate.
  unfold bind at 1, lift at 1.
  destruct (convert_from_path data (dpi self)) as [images|e] eqn:Hconv;
    [|discriminate].
  unfold bind at 1, read_file at 1. rewrite Hres.
  unfold bind at 1, lift at 1.
  destruct (PdfReader_pages data) as [pages|e] eqn:Hpages; [|discriminate].
  unfold enumerate. intros Hloop.
  apply foldM_page_step in Hloop as (new & -> & Hlen & Hnew).
  exists data, images, pages.
  split; [rewrite <- Hkeep; apply (resolve_file σ2); exact Hres|].
  split; [exact Hconv|]. split; [exact Hpages|]. split; [exact Hlen|].
  intros i img Hi. destruct (Hnew i img Hi) as (merged & Hni & Hmade).
  exists merged. split; [exact Hni|exact Hmade].
Qed.

(** A layer of rows that add nothing has no command. *)
Lemma blank_block cv blk size σ :
  Forall (fun item => exists s, i_text item = PyStr s /\ str_strip s = []) blk ->
  _write_text_block cv blk size σ = (Ok cv, σ).
Proof.
  induction 1 as [|item rest (s & Hs & Hstrip) _ IH]; [reflexivity|].
  rewrite write_text_block_step, Hs. simpl. rewrite Hstrip. exact IH.
Qed.

Lemma blank_words size ws : forall st σ,
  Forall (blank_row self) ws ->
  Forall (fun item => exists s, i_text item = PyStr s /\ str_strip s = [])
         (text_block st) ->
  exists st',
    foldM (word_step self size) st ws σ = (Ok st', σ) /\
    c st' = c st /\
    Forall (fun item => exists s, i_text item = PyStr s /\ str_strip s = [])
           (text_block st').
Proof.
  induction ws as [|w ws IH]; intros st σ Hws Hbuf.
  - exists st. repeat split. exact Hbuf.
  - apply Forall_cons in Hws as [[Hco Hblank] Hws].
    unfold coercible in Hco.
    destruct (py_float (w_conf w)) as [f|e] eqn:Hf; [|discriminate].
    cbn [foldM]. unfold bind at 1, word_step at 1. rewrite Hf, bind_lift_Ok.
    unfold passes in Hblank. rewrite Hf in Hblank.
    destruct (float_lt_int f (conf_threshold self)).
    { unfold ret. apply IH; assumption. }
    destruct Hblank as [Hp|(s & Hs & Hstrip)]; [discriminate|].
    assert (Hitem : exists s0, i_text (item_of w) = PyStr s0 /\ str_strip s0 = [])
      by (exists s; auto).
    destruct (py_ne (w_block_num w) (last_block_num st)).
    + unfold bind, ret. unfold flush.
      destruct (text_block st) as [|it its] eqn:Htb.
      * destruct (IH {| c := c st; last_block_num := w_block_num w;
                        text_block := [] ++ [item_of w] |} σ Hws) as (st' & Hrun & Hc & Hb).
        { constructor; [exact Hitem|constructor]. }
        exists st'. auto.
      * rewrite (blank_block (c st) (it :: its) size σ Hbuf).
        destruct (IH {| c := c st; last_block_num := w_block_num w;
                        text_block := [] ++ [item_of w] |} σ Hws) as (st' & Hrun & Hc & Hb).
        { constructor; [exact Hitem|constructor]. }
        exists st'. auto.
    + unfold bind, ret.
      destruct (IH {| c := c st; last_block_num := last_block_num st;
                      text_block := text_block st ++ [item_of w] |} σ Hws)
        as (st' & Hrun & Hc & Hb).
      { apply Forall_app. split; [exact Hbuf|]. constructor; [exact Hitem|constructor]. }
      exists st'. auto.
Qed.

Lemma blank_layer size ws σ :
  Forall (blank_row self) ws ->
  font_known σ (font_name self) = true ->
  exists cv,
    _create_text_layer self (ocr_of_words ws) size σ = (Ok cv, σ) /\
    code cv = [] /\ pagesize cv = size.
Proof.
  intros Hws Hfont.
  rewrite (create_text_layer_words self size _ _ σ (presents_ocr_of_words _)).
  unfold layer_of_words, bind at 1, setFont. rewrite Hfont.
  set (st0 := {| c := _; last_block_num := _; text_block := _ |}).
  destruct (blank_words size ws st0 σ Hws) as (st' & Hrun & Hc & Hb);
    [constructor|].
  unfold bind. rewrite Hrun. exists (c st'). split.
  - unfold flush. destruct (text_block st') as [|it its] eqn:Htb; [reflexivity|].
    apply blank_block. exact Hb.
  - rewrite Hc. split; reflexivity.
Qed.

End AssembleFacts.

(** C7.  When [process_pdf] succeeds, the input was a file whose bytes
    were rasterized into images and read into pages; the writer holds as
    many pages as there are images, the page at index [i] being page [i]
    of the input with the layer of image [i] merged on it; and the output
    file holds what the writer wrote of them.  With one image for each
    page of the input, the output has the page count of the input.  A
    page whose rows are all below the threshold or without text gets a
    layer of its size with no command, and no error. *)
Theorem pages_are_kept_in_order `{Externals} (self : PdfOcrProcessor) :
  (forall input_path output_path σ msg σ',
     process_pdf self input_path output_path σ = (Ok (true, msg), σ') ->
     exists data images pages out,
       file_at σ input_path = Some data /\
       convert_from_path data (dpi self) = Ok images /\
       PdfReader_pages data = Ok pages /\
       length out = length images /\
       (forall i img, images !! i = Some img ->
          exists merged, out !! i = Some merged /\
                         page_made self pages i img merged) /\
       writer_write out = (fst (writer_write out), None) /\
       file_at σ' output_path = Some (fst (writer_write out)) /\
       (length images = length pages -> length out = length pages)) /\
  (forall size ws σ,
     Forall (blank_row self) ws ->
     font_known σ (font_name self) = true ->
     exists cv,
       _create_text_layer self (ocr_of_words ws) size σ = (Ok cv, σ) /\
       code cv = [] /\ pagesize cv = size).
Proof.
  split.
  - intros input_path output_path σ msg σ' Hrun.
    destruct (process_pdf_success self _ _ _ _ _ Hrun)
      as (writer & σ1 & data0 & Ha & Hw & Hfile).
    destruct (assemble_success self _ _ _ _ _ Ha)
      as (data & images & pages & Hdata & Hconv & Hpages & Hlen & Hall).
    exists data, images, pages, writer.
    rewrite Hw. simpl. repeat split; try assumption. congruence.
  - intros size ws σ. apply blank_layer.
Qed.

(** ** The depth of [os.makedirs] *)

Lemma length_string_of_list_ascii l :
  String.length (string_of_list_ascii l) = length l.
Proof. induction l as [|a l IH]; [reflexivity|]. simpl. rewrite IH. reflexivity. Qed.

Lemma length_list_ascii_of_string s :
  length (list_ascii_of_string s) = String.length s.
Proof. induction s as [|a s IH]; [reflexivity|]. simpl. rewrite IH. reflexivity. Qed.

Lemma break_slash_length l : forall t h,
  break_slash l = (t, h) -> (length t + length h = length l)%nat.
Proof.
  induction l as [|a l IH]; intros t h.
  - intros [= <- <-]. reflexivity.
  - simpl. destruct (is_slash a).
    + intros [= <- <-]. reflexivity.
    + destruct (break_slash l) as [t' h'] eqn:Hb. intros [= <- <-].
      simpl. rewrite (IH t' h' eq_refl). reflexivity.
Qed.

Lemma drop_slashes_length l : (length (drop_slashes l) <= length l)%nat.
Proof.
  induction l as [|a l IH]; [reflexivity|].
  simpl. destruct (is_slash a); simpl; lia.
Qed.

(** The head and the tail of a path are no longer than the path. *)
Lemma posixpath_split_length p h t :
  posixpath_split p = (h, t) ->
  (String.length h + String.length t <= String.length p)%nat.
Proof.
  unfold posixpath_split.
  destruct (break_slash (rev (list_ascii_of_string p))) as [t0 h0] eqn:Hb.
  intros [= <- <-]. apply break_slash_length in Hb.
  rewrite length_rev, length_list_ascii_of_string in Hb.
  rewrite !length_string_of_list_ascii, !length_rev.
  destruct (forallb is_slash h0); [lia|].
  pose proof (drop_slashes_length h0). lia.
Qed.

Lemma eqb_empty_length t : String.eqb t "" = false -> (0 < String.length t)%nat.
Proof. destruct t; [discriminate|simpl; lia]. Qed.

(** The head [os.makedirs] recurs on is shorter than the name. *)
Lemma makedirs_head_shorter name head tail head' tail' :
  posixpath_split name = (head, tail) ->
  (if String.eqb tail "" then posixpath_split head else (head, tail))
    = (head', tail') ->
  negb (String.eqb head' "") && negb (String.eqb tail' "") = true ->
  (String.length head' < String.length name)%nat.
Proof.
  intros Hs Hs' Hc. apply andb_true_iff in Hc as [_ Ht].
  apply negb_true_iff, eqb_empty_length in Ht.
  apply posixpath_split_length in Hs.
  destruct (String.eqb tail "").
  - apply posixpath_split_length in Hs'. lia.
  - injection Hs' as <- <-. lia.
Qed.

(** The bound on the depth of the recursion is never reached: any bound
    from the length of the name on gives the same run. *)
Lemma makedirs_upto_enough n : forall m name σ,
  (String.length name <= n)%nat -> (String.length name <= m)%nat ->
  makedirs_upto n name σ = makedirs_upto m name σ.
Proof.
  induction n as [|n IH]; intros m name σ Hn Hm.
  - destruct name; [|simpl in Hn; lia]. destruct m; reflexivity.
  - destruct m as [|m].
    { destruct name; [|simpl in Hm; lia]. reflexivity. }
    cbn [makedirs_upto].
    destruct (posixpath_split name) as [head tail] eqn:Hs.
    destruct (if String.eqb tail "" then posixpath_split head else (head, tail))
      as [head' tail'] eqn:Hs'.
    destruct (negb (String.eqb head' "") && negb (String.eqb tail' "")) eqn:Hc;
      [|reflexivity].
    pose proof (makedirs_head_shorter _ _ _ _ _ Hs Hs' Hc) as Hlt.
    apply bind_ext. intros [|] σ1; [reflexivity|].
    unfold bind, try_except.
    rewrite (IH m head' σ1) by lia. reflexivity.
Qed.

Lemma makedirs_any_bound n name σ :
  (String.length name <= n)%nat -> makedirs_upto n name σ = makedirs name σ.
Proof. intros Hn. apply makedirs_upto_enough; [exact Hn|reflexivity]. Qed.

(** ** A directory that is there *)

Lemma unslash_id p : ends_with_slash p = false -> unslash p = p.
Proof.
  unfold ends_with_slash, unslash.
  destruct (rev (list_ascii_of_string p)) as [|a r] eqn:Hr.
  - intros _. apply (f_equal (@rev ascii)) in Hr. rewrite rev_involutive in Hr.
    simpl in Hr. rewrite <- (string_of_list_ascii_of_string p), Hr. reflexivity.
  - intros Ha. simpl. rewrite Ha.
    change (rev r ++ [a]) with (rev (a :: r)). rewrite <- Hr, rev_involutive.
    apply string_of_list_ascii_of_string.
Qed.

(** [mkdir], with [exist_ok], of a directory that is there does nothing. *)
Lemma mkdir_exist_ok_there name σ :
  resolve σ name = Some Dir -> mkdir_exist_ok name σ = (Ok tt, σ).
Proof.
  intros Hres. unfold mkdir_exist_ok, try_except, mkdir.
  assert (Hthere : bind (os_path_isdir name)
            (fun isdir => if isdir then ret tt
                          else raise (FileExistsError name)) σ = (Ok tt, σ)).
  { unfold bind, os_path_isdir. rewrite Hres. reflexivity. }
  unfold resolve in Hres.
  destruct (String.eqb name ""); [discriminate|].
  destruct (is_root name); [exact Hthere|].
  destruct (ends_with_slash name) eqn:Hend.
  - destruct (fs σ !! unslash name) as [[|]|]; try discriminate. exact Hthere.
  - rewrite (unslash_id name Hend), Hres. exact Hthere.
Qed.

(** The creation of the output directory is idempotent: on a directory
    that is there, below a directory that is there or in the current
    one, [os.makedirs] succeeds and changes nothing. *)
Lemma makedirs_there name head tail σ :
  posixpath_split name = (head, tail) ->
  String.eqb tail "" = false ->
  (head = ""%string \/ resolve σ head <> None) ->
  resolve σ name = Some Dir ->
  makedirs name σ = (Ok tt, σ).
Proof.
  intros Hs Ht Hhead Hres. unfold makedirs.
  assert (Hbody : forall n, makedirs_upto n name σ = (Ok tt, σ)).
  { intros n. destruct n; cbn [makedirs_upto]; rewrite Hs, Ht;
      (destruct Hhead as [->|Hhead];
       [ cbn [String.eqb negb andb]; apply mkdir_exist_ok_there; exact Hres
       | destruct (negb (String.eqb head "") && negb (String.eqb tail ""));
         [ unfold bind, os_path_exists;
           destruct (resolve σ head); [|congruence];
           apply mkdir_exist_ok_there; exact Hres
         | apply mkdir_exist_ok_there; exact Hres ] ]). }
  apply Hbody.
Qed.

(** ** The output directory *)

Lemma break_slash_none l :
  forallb (fun a => negb (is_slash a)) l = true -> break_slash l = (l, []).
Proof.
  induction l as [|a l IH]; [reflexivity|].
  simpl. destruct (is_slash a); [discriminate|].
  simpl. intros Hl. rewrite (IH Hl). reflexivity.
Qed.

Lemma forallb_rev {A} (f : A -> bool) l : forallb f (rev l) = forallb f l.
Proof.
  induction l as [|a l IH]; [reflexivity|].
  simpl. rewrite forallb_app, IH. simpl. rewrite andb_true_r. apply andb_comm.
Qed.

(** A path of one component has no directory part. *)
Lemma dirname_no_slash p :
  forallb (fun a => negb (is_slash a)) (list_ascii_of_string p) = true ->
  dirname p = "".
Proof.
  intros Hp. unfold dirname, posixpath_split.
  rewrite break_slash_none by (rewrite forallb_rev; exact Hp).
  reflexivity.
Qed.

(** [os.makedirs('', exist_ok=True)] raises. *)
Lemma makedirs_empty σ : makedirs "" σ = (Raise (FileNotFoundError ""), σ).
Proof. reflexivity. Qed.

(** C9 on the code.  When the output path has no directory part (it has
    no slash), [os.path.dirname] gives the empty string, [os.makedirs]
    raises on it, and [process_pdf] returns a failure although the input
    exists and the directory to write in, the current one, exists too:
    nothing is rasterized and nothing is written. *)
Theorem output_path_without_directory_fails `{Externals}
    (self : PdfOcrProcessor) (input_path output_path : string) (σ : World) :
  resolve σ input_path <> None ->
  forallb (fun a => negb (is_slash a)) (list_ascii_of_string output_path) = true ->
  process_pdf self input_path output_path σ =
  (Ok (false, ErrorProcessingPdf (FileNotFoundError "")),
   add_logs σ [(ERROR, ErrorProcessingPdf (FileNotFoundError ""))]).
Proof.
  intros Hin Hout. rewrite process_pdf_unfold.
  unfold assemble, bind at 1, os_path_exists.
  destruct (resolve σ input_path) as [n|]; [|congruence].
  cbn [negb]. unfold bind at 1.
  rewrite (dirname_no_slash output_path Hout), makedirs_empty. reflexivity.
Qed.

(** ** The font *)

Section FontFacts.

Context `{Externals}.

Lemma setup_font_fallback σ e :
  font_registration_fails σ e ->
  _setup_font σ =
  (Ok "Helvetica"%string, add_logs σ [(WARNING, FontRegistrationFailed e)]).
Proof.
  unfold font_registration_fails, _setup_font, try_except, bind at 1,
    os_path_exists.
  change (pathlib_join (pathlib_join module_dir "fonts")
            ("0xProto-Regular" ++ ".ttf")) with custom_font_path.
  destruct (resolve σ custom_font_path) as [[data|]|] eqn:Hres.
  - intros Hfont. unfold bind at 1, registerFont at 1, bind at 1, read_file.
    rewrite Hres, Hfont. reflexivity.
  - intros ->. unfold bind at 1, registerFont at 1, bind at 1, read_file.
    rewrite Hres. reflexivity.
  - intros ->. reflexivity.
Qed.

Lemma helvetica_known σ : font_known σ "Helvetica" = true.
Proof. reflexivity. Qed.

(** Whatever happens to the registration, the font [_setup_font]
    settles on is one reportlab knows. *)
Lemma setup_font_known σ :
  exists name σ',
    _setup_font σ = (Ok name, σ') /\ font_known σ' name = true /\
    fs σ' = fs σ /\ fonts σ ⊆ fonts σ'.
Proof.
  unfold _setup_font, try_except, bind at 1, os_path_exists.
  change (pathlib_join (pathlib_join module_dir "fonts")
            ("0xProto-Regular" ++ ".ttf")) with custom_font_path.
  destruct (resolve σ custom_font_path) as [[data|]|] eqn:Hres.
  - unfold bind at 1, registerFont at 1, bind at 1, read_file. rewrite Hres.
    destruct (TTFont "0xProto-Regular" data) as [e|].
    + do 2 eexists. split; [reflexivity|]. split; [reflexivity|].
      split; [reflexivity|]. reflexivity.
    + do 2 eexists. split; [reflexivity|]. split; [|split; [reflexivity|]].
      * unfold font_known. apply orb_true_iff. right.
        apply bool_decide_eq_true. simpl. set_solver.
      * simpl. set_solver.
  - unfold bind at 1, registerFont at 1, bind at 1, read_file. rewrite Hres.
    do 2 eexists. split; [reflexivity|]. split; [reflexivity|].
    split; [reflexivity|]. reflexivity.
  - do 2 eexists. split; [reflexivity|]. split; [reflexivity|].
    split; [reflexivity|]. reflexivity.
Qed.

Lemma font_known_mono σ σ' name :
  fonts σ ⊆ fonts σ' -> font_known σ name = true -> font_known σ' name = true.
Proof.
  unfold font_known. intros Hsub Hk.
  apply orb_true_iff in Hk as [Hk|Hk]; apply orb_true_iff; [left; exact Hk|right].
  apply bool_decide_eq_true in Hk. apply bool_decide_eq_true. set_solver.
Qed.

End FontFacts.

(** C8.  When the registration of the custom font fails, [_setup_font]
    does not raise: it logs one warning and settles on Helvetica, and
    [__init__] gives the processor with that font.  In every case the
    font of the processor is one the canvas accepts, in the world
    [__init__] leaves and in every world with at least its fonts: the
    [setFont] of each layer succeeds with the font of the processor. *)
Theorem font_failure_falls_back_to_helvetica `{Externals} (σ : World) :
  (forall e,
     font_registration_fails σ e ->
     _setup_font σ =
       (Ok "Helvetica"%string, add_logs σ [(WARNING, FontRegistrationFailed e)]) /\
     __init__ σ =
       (Ok {| font_name := "Helvetica"; conf_threshold := 60; dpi := 300 |},
        add_logs σ [(WARNING, FontRegistrationFailed e)])) /\
  (exists p σ',
     __init__ σ = (Ok p, σ') /\
     forall σ'' cv size,
       fonts σ' ⊆ fonts σ'' ->
       exists cv',
         setFont cv (font_name p) size σ'' = (Ok cv', σ'') /\
         fontname cv' = font_name p).
Proof.
  split.
  - intros e He. pose proof (setup_font_fallback σ e He) as Hs.
    split; [exact Hs|]. unfold __init__, bind. rewrite Hs. reflexivity.
  - destruct (setup_font_known σ) as (name & σ' & Hs & Hk & _ & _).
    eexists _, σ'. split.
    + unfold __init__, bind. rewrite Hs. reflexivity.
    + intros σ'' cv size Hsub. simpl.
      unfold setFont. rewrite (font_known_mono σ' σ'' name Hsub Hk).
      eexists. split; reflexivity.
Qed.

(** ** The coercion of the confidence *)

Lemma minus_one_below n : 0 <= n -> float_lt_int minus_one n = true.
Proof.
  intros Hn. unfold float_lt_int, float_cmp_int, minus_one.
  change (0 <=? -52) with false. cbv iota.
  assert (Hlt : Z.neg 4503599627370496 < n * 2 ^ (- -52)) by (simpl; lia).
  apply Z.compare_lt_iff in Hlt. rewrite Hlt. reflexivity.
Qed.

(** [float] takes the integers from -1 to 100 written in decimal to the
    doubles it takes the integers to. *)
Lemma engine_confidences_as_strings todecimal :
  Forall (fun n => float_of_str todecimal (str_of_int n) = float_of_int n)
         engine_confidences.
Proof.
  unfold engine_confidences. cbn [seq map].
  repeat (constructor; [vm_compute; reflexivity|]). constructor.
Qed.

Lemma engine_confidences_range n : -1 <= n <= 100 -> In n engine_confidences.
Proof.
  intros Hn. unfold engine_confidences.
  apply in_map_iff. exists (Z.to_nat (n + 1)). split; [lia|].
  apply in_seq. lia.
Qed.

Section CoercionFacts.

Context `{Externals}.
Variable self : PdfOcrProcessor.
Variable size : Z * Z.

Lemma py_float_minus_one v :
  v = PyInt (-1) \/ v = PyFloat minus_one \/ v = PyStr (ustr "-1") ->
  py_float v = Ok minus_one.
Proof. intros [->|[->| ->]]; reflexivity. Qed.

(** The turn of the loop reads the confidence through [float] only. *)
Lemma word_step_with_conf st w v σ :
  py_float v = py_float (w_conf w) ->
  word_step self size st (with_conf w v) σ = word_step self size st w σ.
Proof.
  intros Hv. unfold word_step. cbn [with_conf w_conf w_block_num].
  rewrite Hv. reflexivity.
Qed.

Lemma layer_of_words_with_conf l1 w l2 v σ :
  py_float v = py_float (w_conf w) ->
  layer_of_words self (l1 ++ with_conf w v :: l2) size σ =
  layer_of_words self (l1 ++ w :: l2) size σ.
Proof.
  intros Hv. unfold layer_of_words. apply bind_ext. intros c0 σ0.
  unfold bind. rewrite !foldM_app. unfold bind.
  destruct (foldM (word_step self size) _ l1 σ0) as [[st1|e] σ1]; [|reflexivity].
  cbn [foldM]. unfold bind. rewrite (word_step_with_conf st1 w v σ1 Hv).
  reflexivity.
Qed.

End CoercionFacts.

(** C10.  The confidence is read through [float] and through nothing
    else.  A row whose confidence is -1, as an integer, as a double or as
    the string "-1", is below every threshold that is not negative: the
    layer is the one the rows give without it, so that the row draws
    nothing, leaves the current block id alone and flushes nothing.  A
    row behaves as any row that differs from it only by a confidence
    [float] takes to the same double; and [float] takes the integers from
    -1 to 100 written as decimal strings to the doubles of the
    integers. *)
Theorem confidence_is_coerced_with_float `{Externals}
    (self : PdfOcrProcessor) (size : Z * Z) (l1 l2 : list WordRecord)
    (w : WordRecord) :
  (0 <= conf_threshold self ->
   w_conf w = PyInt (-1) \/ w_conf w = PyFloat minus_one \/
   w_conf w = PyStr (ustr "-1") ->
   forall σ,
     _create_text_layer self (ocr_of_words (l1 ++ w :: l2)) size σ =
     _create_text_layer self (ocr_of_words (l1 ++ l2)) size σ) /\
  (forall v,
     py_float v = py_float (w_conf w) ->
     forall σ,
       _create_text_layer self (ocr_of_words (l1 ++ with_conf w v :: l2)) size σ =
       _create_text_layer self (ocr_of_words (l1 ++ w :: l2)) size σ) /\
  (forall n, -1 <= n <= 100 ->
     py_float (PyStr (str_of_int n)) = py_float (PyInt n)).
Proof.
  split; [|split].
  - intros Hthr Hconf σ.
    rewrite !(create_text_layer_words self size _ _ σ (presents_ocr_of_words _)).
    apply (layer_of_words_skip self size l1 w l2 minus_one σ).
    + apply py_float_minus_one. exact Hconf.
    + apply minus_one_below. exact Hthr.
  - intros v Hv σ.
    rewrite !(create_text_layer_words self size _ _ σ (presents_ocr_of_words _)).
    apply layer_of_words_with_conf. exact Hv.
  - intros n Hn.
    pose proof (engine_confidences_as_strings Py_UNICODE_TODECIMAL) as Hall.
    rewrite List.Forall_forall in Hall.
    apply (Hall n). apply engine_confidences_range. exact Hn.
Qed.

(** ** Recognition output that is not well formed *)

Lemma foldM_raises {A S} (f : S -> A -> M S) (a : A) (l : list A) :
  In a l ->
  (forall s σ, is_Ok (fst (f s a σ)) = false) ->
  forall s σ, is_Ok (fst (foldM f s l σ)) = false.
Proof.
  intros Hin Hf. induction l as [|b l IH]; [destruct Hin|].
  intros s σ. cbn [foldM]. unfold bind.
  destruct Hin as [->|Hin].
  - specialize (Hf s σ). destruct (f s a σ) as [[s'|e] σ']; [discriminate|reflexivity].
  - destruct (f s b σ) as [[s'|e] σ']; [apply IH; exact Hin|reflexivity].
Qed.

Section MalformedFacts.

Context `{Externals}.
Variable self : PdfOcrProcessor.

Lemma layer_without_text d size σ :
  d !! "text"%string = None ->
  is_Ok (fst (_create_text_layer self d size σ)) = false.
Proof.
  intros Hd. unfold _create_text_layer, bind at 1.
  destruct (setFont _ _ _ σ) as [[c0|e] σ0]; [|reflexivity].
  unfold getitem. rewrite Hd. reflexivity.
Qed.

Lemma layer_step_short_conf d size st i σ :
  (d !! "conf"%string = None \/
   exists confs, d !! "conf"%string = Some confs /\ (length confs <= i)%nat) ->
  is_Ok (fst (layer_step self d size st i σ)) = false.
Proof.
  intros Hc. unfold layer_step, cell, getitem, index.
  destruct Hc as [->|(confs & -> & Hlen)]; [reflexivity|].
  rewrite (lookup_ge_None_2 confs i) by exact Hlen. reflexivity.
Qed.

Lemma layer_short_conf d size σ texts :
  d !! "text"%string = Some texts ->
  (d !! "conf"%string = None /\ texts <> [] \/
   exists confs, d !! "conf"%string = Some confs /\
                 (length confs < length texts)%nat) ->
  is_Ok (fst (_create_text_layer self d size σ)) = false.
Proof.
  intros Hd Hc. unfold _create_text_layer, bind at 1.
  destruct (setFont _ _ _ σ) as [[c0|e] σ0]; [|reflexivity].
  unfold getitem. rewrite Hd, bind_lift_Ok. unfold bind.
  set (st0 := {| c := _; last_block_num := _; text_block := _ |}).
  assert (Hfail : exists i, In i (seq 0 (length texts)) /\
    forall s σ1, is_Ok (fst (layer_step self d size s i σ1)) = false).
  { destruct Hc as [[Hnone Hne]|(confs & Hconfs & Hlen)].
    - exists 0%nat. split.
      + apply in_seq. destruct texts; [congruence|simpl; lia].
      + intros s σ1. apply layer_step_short_conf. left. exact Hnone.
    - exists (length confs). split.
      + apply in_seq. lia.
      + intros s σ1. apply layer_step_short_conf. right.
        exists confs. split; [exact Hconfs|lia]. }
  destruct Hfail as (i & Hin & Hi).
  pose proof (foldM_raises (layer_step self d size) i _ Hin Hi st0 σ0) as Hr.
  destruct (foldM _ st0 _ σ0) as [[st|e] σ1]; [discriminate|reflexivity].
Qed.

(** A page whose layer fails makes [process_pdf] fail. *)
Lemma failing_page_aborts input_path output_path σ data images img d :
  file_at σ input_path = Some data ->
  convert_from_path data (dpi self) = Ok images ->
  In img images ->
  image_to_data img = Ok d ->
  (forall σ0, is_Ok (fst (_create_text_layer self d (image_size img) σ0)) = false) ->
  exists e σ',
    process_pdf self input_path output_path σ = (Ok (false, ErrorProcessingPdf e), σ').
Proof.
  intros Hdata Hconv Hin Hd Hfail.
  destruct (process_pdf_returns self input_path output_path σ)
    as [[σ' Hp]|(e & σ' & Hp)].
  - exfalso.
    destruct (process_pdf_success self _ _ _ _ _ Hp) as (out & σ1 & _ & Ha & _).
    destruct (assemble_success self _ _ _ _ _ Ha)
      as (data' & images' & pages & Hdata' & Hconv' & _ & _ & Hall).
    rewrite Hdata in Hdata'. injection Hdata' as <-.
    rewrite Hconv in Hconv'. injection Hconv' as <-.
    apply list_elem_of_In, list_elem_of_lookup in Hin as [i Hi].
    destruct (Hall i img Hi) as (merged & _ & (d' & layer & orig & tp & σa & σb
      & Hd' & Hlayer & _)).
    rewrite Hd in Hd'. injection Hd' as <-.
    specialize (Hfail σa). rewrite Hlayer in Hfail. discriminate.
  - exists e, σ'. exact Hp.
Qed.

End MalformedFacts.

(** C6 as the code has it.  The recognition output is not validated and
    no error of its own is raised for it: its columns are read by index,
    up to the length of ['text'], as the loop comes to them.  Without
    ['text'] the layer fails; with a ['conf'] column that is missing or
    shorter than a non-empty ['text'] the layer fails; a page whose layer
    fails makes [process_pdf] return a failure, whatever the other pages
    are.  Columns that are longer than ['text'] are accepted: the layer
    is that of the rows of the length of ['text']. *)
Theorem malformed_output_fails_where_it_is_read `{Externals}
    (self : PdfOcrProcessor) :
  (forall d size σ,
     d !! "text"%string = None ->
     is_Ok (fst (_create_text_layer self d size σ)) = false) /\
  (forall d size σ texts,
     d !! "text"%string = Some texts ->
     (d !! "conf"%string = None /\ texts <> [] \/
      exists confs, d !! "conf"%string = Some confs /\
                    (length confs < length texts)%nat) ->
     is_Ok (fst (_create_text_layer self d size σ)) = false) /\
  (forall input_path output_path σ data images img d,
     file_at σ input_path = Some data ->
     convert_from_path data (dpi self) = Ok images ->
     In img images ->
     image_to_data img = Ok d ->
     (forall σ0, is_Ok (fst (_create_text_layer self d (image_size img) σ0)) = false) ->
     exists e σ',
       process_pdf self input_path output_path σ =
       (Ok (false, ErrorProcessingPdf e), σ')) /\
  (forall d ws size σ,
     presents d ws ->
     _create_text_layer self d size σ =
     _create_text_layer self (ocr_of_words ws) size σ).
Proof.
  split; [|split; [|split]].
  - apply layer_without_text.
  - apply layer_short_conf.
  - apply failing_page_aborts.
  - intros d ws size σ Hd.
    rewrite (create_text_layer_words self size d ws σ Hd).
    rewrite (create_text_layer_words self size _ ws σ (presents_ocr_of_words ws)).
    reflexivity.
Qed.

(** * The properties on the environment [Demo] *)

(** The page that reads "Hello world": "world", with confidence 40, is
    not on the layer. *)
Lemma low_confidence_words_are_not_drawn_witness :
  @_create_text_layer Demo.env Demo.processor
    (ocr_of_words Demo.hello_world) (100, 1000) Demo.world =
  @_create_text_layer Demo.env Demo.processor
    (ocr_of_words [Demo.page_row; Demo.word "Hello" (PyInt 95) 0 10 20 50 15])
    (100, 1000) Demo.world.
Proof.
  apply (proj1 (@low_confidence_words_are_not_drawn Demo.env Demo.processor
    (100, 1000) [Demo.page_row; Demo.word "Hello" (PyInt 95) 0 10 20 50 15] []
    (Demo.word "world" (PyInt 40) 0 70 20 50 15)
    (S754_finite false 5629499534213120 (-47)) eq_refl)).
  vm_compute. reflexivity.
Defined.

(** A word at [y = 100] of height 20 on a page of height 1000 is drawn at
    880. *)
Lemma draw_position_is_bottom_origin_witness :
  exists new,
    code (add_code (new_Canvas (100, 1000))
            (DrawString (PyInt 10) (PyInt 880) (ustr "Hi"))) =
    code (new_Canvas (100, 1000)) ++ new.
Proof.
  destruct (@draw_position_is_bottom_origin Demo.env (new_Canvas (100, 1000))
    [item_of (Demo.word "Hi" (PyInt 95) 0 10 100 50 20)] 100 1000 Demo.world
    (add_code (new_Canvas (100, 1000))
       (DrawString (PyInt 10) (PyInt 880) (ustr "Hi")))
    Demo.world eq_refl) as (new & Hcode & _).
  exists new. exact Hcode.
Defined.

(** Rows with the block ids 1, 1, 2, 1 are flushed as three blocks.  And
    where the flushes are shows when the loop is stopped: of two words
    that cannot be drawn, in the blocks 1 and 2, followed by a row whose
    confidence is not a number, the first has left its warning and the
    second, still in the buffer, has not. *)
Lemma blocks_are_contiguous_runs_witness :
  @_create_text_layer Demo.env Demo.processor
    (ocr_of_words [Demo.word "a" (PyInt 95) 1 10 20 50 15;
                   Demo.word "b" (PyInt 95) 1 70 20 50 15;
                   Demo.word "c" (PyInt 95) 2 10 40 50 15;
                   Demo.word "d" (PyInt 95) 1 10 60 50 15]) (100, 1000) Demo.world =
  @layer_of_blocks Demo.env Demo.processor
    [[item_of (Demo.word "a" (PyInt 95) 1 10 20 50 15);
      item_of (Demo.word "b" (PyInt 95) 1 70 20 50 15)];
     [item_of (Demo.word "c" (PyInt 95) 2 10 40 50 15)];
     [item_of (Demo.word "d" (PyInt 95) 1 10 60 50 15)]] (100, 1000) Demo.world /\
  @_create_text_layer Demo.env Demo.processor
    (ocr_of_words
       ([{| w_text := PyStr [0%N]; w_conf := PyInt 95; w_block_num := PyInt 1;
            w_left := PyInt 10; w_top := PyInt 20; w_width := PyInt 50;
            w_height := PyInt 15 |};
         {| w_text := PyStr [0%N]; w_conf := PyInt 95; w_block_num := PyInt 2;
            w_left := PyInt 10; w_top := PyInt 40; w_width := PyInt 50;
            w_height := PyInt 15 |}] ++
        Demo.word "e" (PyStr (ustr "abc")) 2 70 40 50 15 :: []))
    (100, 1000) Demo.world
  = (Raise ValueError,
     add_logs Demo.world [(WARNING, FailedToWriteText (LibraryError 2))]).
Proof.
  split.
  - destruct (@blocks_are_contiguous_runs Demo.env Demo.processor (100, 1000)
      [Demo.word "a" (PyInt 95) 1 10 20 50 15;
       Demo.word "b" (PyInt 95) 1 70 20 50 15;
       Demo.word "c" (PyInt 95) 2 10 40 50 15;
       Demo.word "d" (PyInt 95) 1 10 60 50 15]) as (W & _).
    + repeat constructor; eexists; reflexivity.
    + repeat constructor; vm_compute; reflexivity.
    + rewrite W. vm_compute. reflexivity.
  - destruct (@blocks_are_contiguous_runs Demo.env Demo.processor (100, 1000)
      [{| w_text := PyStr [0%N]; w_conf := PyInt 95; w_block_num := PyInt 1;
          w_left := PyInt 10; w_top := PyInt 20; w_width := PyInt 50;
          w_height := PyInt 15 |};
       {| w_text := PyStr [0%N]; w_conf := PyInt 95; w_block_num := PyInt 2;
          w_left := PyInt 10; w_top := PyInt 40; w_width := PyInt 50;
          w_height := PyInt 15 |}]) as (_ & _ & _ & _ & S).
    + repeat constructor; eexists; reflexivity.
    + repeat constructor; vm_compute; reflexivity.
    + rewrite (S (Demo.word "e" (PyStr (ustr "abc")) 2 70 40 50 15) []
                 ValueError Demo.world); vm_compute; reflexivity.
Defined.

(** The input file is not there: a failure, and the file system as it
    was. *)
Lemma failure_before_the_write_leaves_no_file_witness :
  exists b msg σ',
    @process_pdf Demo.env Demo.processor "/no/such.pdf" "out.pdf" Demo.world
      = (Ok (b, msg), σ') /\ b = false /\ fs σ' = fs Demo.world.
Proof.
  destruct (@failure_before_the_write_leaves_no_file Demo.env Demo.processor
    "/no/such.pdf" "out.pdf" Demo.world) as (b & msg & σ' & Hp & _ & _ & Hmiss).
  destruct (Hmiss eq_refl) as (Hb & _ & Hfs).
  exists b, msg, σ'. split; [exact Hp|]. split; [exact Hb|exact Hfs].
Defined.

(** A word whose position cannot be computed, between two that can: the
    block does not raise and the canvas is that of the two. *)
Lemma word_failures_are_local_witness :
  fst (@_write_text_block Demo.env (new_Canvas (100, 1000))
         ([item_of (Demo.word "a" (PyInt 95) 0 10 20 50 15)] ++
          {| i_text := PyStr (ustr "bad"); i_x := PyInt 1; i_y := PyStr (ustr "x");
             i_width := PyInt 1; i_height := PyInt 1 |} ::
          [item_of (Demo.word "c" (PyInt 95) 0 30 20 50 15)])
         (100, 1000) Demo.world) =
  fst (@_write_text_block Demo.env (new_Canvas (100, 1000))
         ([item_of (Demo.word "a" (PyInt 95) 0 10 20 50 15)] ++
          [item_of (Demo.word "c" (PyInt 95) 0 30 20 50 15)])
         (100, 1000) Demo.world).
Proof.
  destruct (@word_failures_are_local Demo.env (100, 1000) (new_Canvas (100, 1000))
    [item_of (Demo.word "a" (PyInt 95) 0 10 20 50 15)]
    [item_of (Demo.word "c" (PyInt 95) 0 30 20 50 15)]
    {| i_text := PyStr (ustr "bad"); i_x := PyInt 1; i_y := PyStr (ustr "x");
       i_width := PyInt 1; i_height := PyInt 1 |} (ustr "bad"))
    as (_ & _ & W).
  - repeat constructor. eexists. reflexivity.
  - repeat constructor. eexists. reflexivity.
  - reflexivity.
  - apply (W TypeError).
    + vm_compute. discriminate.
    + intros cv0 σ0. reflexivity.
Defined.

(** A page whose ['conf'] column is shorter than its ['text'] fails. *)
Lemma malformed_output_fails_where_it_is_read_witness :
  is_Ok (fst (@_create_text_layer Demo.env Demo.processor
                (<["conf" := []]> (ocr_of_words Demo.hello_world))
                (100, 1000) Demo.world)) = false.
Proof.
  apply (proj1 (proj2 (@malformed_output_fails_where_it_is_read Demo.env
    Demo.processor)) _ (100, 1000) Demo.world (map w_text Demo.hello_world)).
  - vm_compute. reflexivity.
  - right. exists []. split; [vm_compute; reflexivity|simpl; lia].
Defined.

(** The document of two pages comes out with two pages. *)
Lemma pages_are_kept_in_order_witness :
  exists out : list Demo.page,
    length out = 2%nat /\
    file_at (snd (@process_pdf Demo.env Demo.processor "scans/doc.pdf"
                    "scans/out.pdf" Demo.world)) "scans/out.pdf"
    = Some (fst (Demo.write_pages out)).
Proof.
  destruct (proj1 (@pages_are_kept_in_order Demo.env Demo.processor)
    "scans/doc.pdf" "scans/out.pdf" Demo.world ProcessingCompleted
    (snd (@process_pdf Demo.env Demo.processor "scans/doc.pdf" "scans/out.pdf"
            Demo.world)))
    as (data & images & pages & out & Hdata & Hconv & _ & Hlen & _ & _ & Hfile & _).
  - vm_compute. reflexivity.
  - exists out. split; [|exact Hfile].
    vm_compute in Hdata. injection Hdata as <-.
    vm_compute in Hconv. injection Hconv as <-. exact Hlen.
Defined.

(** The font file is not there: Helvetica. *)
Lemma font_failure_falls_back_to_helvetica_witness :
  @_setup_font Demo.env Demo.world =
  (Ok "Helvetica"%string,
   add_logs Demo.world
     [(WARNING, FontRegistrationFailed
                  (FileNotFoundError "/app/fonts/0xProto-Regular.ttf"))]).
Proof.
  apply (proj1 (@font_failure_falls_back_to_helvetica Demo.env Demo.world)
    (FileNotFoundError "/app/fonts/0xProto-Regular.ttf")).
  vm_compute. reflexivity.
Defined.

(** [in.pdf] is there, and [out.pdf] cannot be written next to it. *)
Lemma output_path_without_directory_fails_witness :
  @process_pdf Demo.env Demo.processor "in.pdf" "out.pdf" Demo.world =
  (Ok (false, ErrorProcessingPdf (FileNotFoundError "")),
   add_logs Demo.world [(ERROR, ErrorProcessingPdf (FileNotFoundError ""))]).
Proof.
  apply (@output_path_without_directory_fails Demo.env Demo.processor
    "in.pdf" "out.pdf" Demo.world).
  - vm_compute. discriminate.
  - vm_compute. reflexivity.
Defined.

(** The row of the page, with confidence -1, can be left out. *)
Lemma confidence_is_coerced_with_float_witness :
  @_create_text_layer Demo.env Demo.processor
    (ocr_of_words Demo.hello_world) (100, 1000) Demo.world =
  @_create_text_layer Demo.env Demo.processor
    (ocr_of_words [Demo.word "Hello" (PyInt 95) 0 10 20 50 15;
                   Demo.word "world" (PyInt 40) 0 70 20 50 15])
    (100, 1000) Demo.world.
Proof.
  apply (proj1 (@confidence_is_coerced_with_float Demo.env Demo.processor
    (100, 1000) []
    [Demo.word "Hello" (PyInt 95) 0 10 20 50 15;
     Demo.word "world" (PyInt 40) 0 70 20 50 15] Demo.page_row)).
  - vm_compute. discriminate.
  - left. reflexivity.
Defined.

(** * Where the specification and the code part *)

(** C4 against the code: the writer fails on the second page of
    [scans/bad.pdf]; [process_pdf] returns a failure, and the output
    path, where there was no file, holds the first page. *)
Lemma failed_write_leaves_a_partial_file :
  fst (@process_pdf Demo.env Demo.processor "scans/bad.pdf" "scans/out.pdf"
         Demo.world) = Ok (false, ErrorProcessingPdf (LibraryError 4)) /\
  file_at Demo.world "scans/out.pdf" = None /\
  file_at (snd (@process_pdf Demo.env Demo.processor "scans/bad.pdf"
                  "scans/out.pdf" Demo.world)) "scans/out.pdf"
  = Some [Byte.x01].
Proof. vm_compute. repeat split. Qed.

(** C5 against the code: a text of one lone surrogate is not empty once
    stripped and is empty once sanitized; it is drawn, as the empty
    string. *)
Lemma empty_after_sanitizing_is_drawn :
  utf8_roundtrip_ignore (str_strip [55296%N]) = [] /\
  fst (@_write_text_block Demo.env (new_Canvas (100, 1000))
         [{| i_text := PyStr [55296%N]; i_x := PyInt 10; i_y := PyInt 20;
             i_width := PyInt 50; i_height := PyInt 15 |}]
         (100, 1000) Demo.world)
  = Ok (add_code (new_Canvas (100, 1000))
          (DrawString (PyInt 10) (PyInt 965) [])).
Proof. vm_compute. repeat split. Qed.

(** C6 against the code: a ['conf'] column of two values beside a
    ['text'] column of one raises nothing, and neither does a dict that
    has an empty ['text'] column and no other. *)
Lemma mismatched_columns_are_accepted :
  is_Ok (fst (@_create_text_layer Demo.env Demo.processor
                (<["conf" := [PyInt 95; PyInt 90]]>
                   (ocr_of_words [Demo.word "Hi" (PyInt 95) 0 10 20 50 15]))
                (100, 1000) Demo.world)) = true /\
  is_Ok (fst (@_create_text_layer Demo.env Demo.processor
                {[ "text"%string := [] ]} (100, 1000) Demo.world)) = true.
Proof. vm_compute. repeat split. Qed.

(** * More of the code *)

(** ** The layer as one flush *)

Section OneFlush.

Context `{Externals}.
Variable self : PdfOcrProcessor.
Variable size : Z * Z.

Lemma flush_eq cv blk σ :
  flush cv blk size σ = _write_text_block cv blk size σ.
Proof. destruct blk; reflexivity. Qed.

(** The loop and the last flush, from any state: the buffer and the rows
    that pass, written in one go. *)
Lemma loop_one_flush ws : forall st σ,
  Forall coercible ws ->
  bind (foldM (word_step self size) st ws) (final_flush size) σ
  = _write_text_block (c st)
      (text_block st ++ map item_of (List.filter (passes self) ws)) size σ.
Proof.
  induction ws as [|w ws IH]; intros st σ Hco.
  - simpl. rewrite bind_ret, app_nil_r. apply flush_eq.
  - apply Forall_cons in Hco as [Hc Hco]. unfold coercible in Hc.
    destruct (py_float (w_conf w)) as [f|e] eqn:Hf; [|discriminate].
    cbn [foldM List.filter]. rewrite (passes_coerced self w f Hf).
    unfold word_step at 1. rewrite Hf. monad_norm.
    destruct (float_lt_int f (conf_threshold self)); simpl negb; cbv iota.
    { monad_norm. apply IH. exact Hco. }
    destruct (py_ne (w_block_num w) (last_block_num st)).
    + monad_norm. rewrite write_text_block_app.
      etransitivity.
      { apply bind_ext. intros cv σ1. monad_norm. apply (IH _ σ1 Hco). }
      unfold bind. rewrite flush_eq.
      destruct (_write_text_block (c st) (text_block st) size σ) as [[cv|e] σ1];
        reflexivity.
    + monad_norm. rewrite (IH _ σ Hco). cbn [c text_block map].
      rewrite <- app_assoc. reflexivity.
Qed.

Lemma layer_of_words_one_flush ws σ :
  Forall coercible ws ->
  layer_of_words self ws size σ
  = layer_of_blocks self [map item_of (List.filter (passes self) ws)] size σ.
Proof.
  intros Hco. unfold layer_of_words, layer_of_blocks.
  apply bind_ext. intros c0 σ0. cbn [foldM]. rewrite bind_ret_r.
  exact (loop_one_flush ws
           {| c := setFillColor c0 {| red := 0; green := 0; blue := 0; alpha := 0 |};
              last_block_num := PyInt (-1); text_block := [] |} σ0 Hco).
Qed.

(** A row whose confidence [float] refuses stops the loop. *)
Lemma word_step_not_coercible st w σ :
  ~ coercible w -> is_Ok (fst (word_step self size st w σ)) = false.
Proof.
  unfold coercible, word_step. intros Hc.
  destruct (py_float (w_conf w)) as [f|e]; [contradiction Hc; reflexivity|].
  reflexivity.
Qed.

Lemma coercible_dec w : {coercible w} + {~ coercible w}.
Proof.
  unfold coercible. destruct (is_Ok (py_float (w_conf w)));
    [left; reflexivity|right; discriminate].
Qed.

(** A layer that is made has only confidences [float] accepts. *)
Lemma layer_of_words_coercible ws σ cv σ' :
  layer_of_words self ws size σ = (Ok cv, σ') -> Forall coercible ws.
Proof.
  intros Hrun.
  destruct (Forall_Exists_dec coercible (fun w => ~ coercible w)
              coercible_dec ws) as [Hall|Hex];
    [exact Hall|exfalso].
  apply List.Exists_exists in Hex as (w & Hin & Hw).
  unfold layer_of_words, bind in Hrun.
  destruct (setFont _ _ _ σ) as [[c0|e] σ0]; [|discriminate].
  set (st0 := {| c := _; last_block_num := _; text_block := _ |}) in Hrun.
  pose proof (foldM_raises (word_step self size) w ws Hin
    (fun st σ1 => word_step_not_coercible st w σ1 Hw) st0 σ0) as Hr.
  destruct (foldM (word_step self size) st0 ws σ0) as [[st|e] σ1];
    discriminate.
Qed.

(** The commands of a block are those of its items that could be drawn,
    in the order of the items. *)
Lemma write_text_block_sublist blk : forall cv σ cv' σ',
  _write_text_block cv blk size σ = (Ok cv', σ') ->
  exists new,
    code cv' = code cv ++ new /\
    sublist new (omap (item_cmd (snd size)) blk).
Proof.
  induction blk as [|item rest IH]; intros cv σ cv' σ'.
  - intros [= <- <-]. exists []. rewrite app_nil_r. split; [reflexivity|constructor].
  - rewrite write_text_block_step. cbn [omap list_omap]. unfold item_cmd at 1.
    unfold py_strip. destruct (i_text item) as [| | |s]; try discriminate.
    destruct (str_strip s) as [|ch t]; [apply IH|].
    destruct (item_y (snd size) item) as [y|e]; [|apply IH].
    destruct (drawString_raises _ _ _ _).
    + intros Hrun. destruct (IH _ _ _ _ Hrun) as (new & Hcode & Hsub).
      exists new. split; [exact Hcode|]. apply sublist_cons. exact Hsub.
    + intros Hrun. destruct (IH _ _ _ _ Hrun) as (new & Hcode & Hsub).
      exists (DrawString (i_x item) y (utf8_roundtrip_ignore (ch :: t)) :: new).
      split.
      * rewrite Hcode. simpl. rewrite <- app_assoc. reflexivity.
      * apply sublist_skip. exact Hsub.
Qed.

(** A block with an item whose text is not a string raises. *)
Lemma write_text_block_not_str blk : forall cv σ item,
  In item blk -> (forall s, i_text item <> PyStr s) ->
  is_Ok (fst (_write_text_block cv blk size σ)) = false.
Proof.
  induction blk as [|item0 rest IH]; intros cv σ item Hin Hns; [destruct Hin|].
  rewrite write_text_block_step. destruct Hin as [->|Hin].
  - unfold py_strip. destruct (i_text item) as [| | |s]; try reflexivity.
    contradiction (Hns s). reflexivity.
  - destruct (py_strip (i_text item0)) as [[|ch t]|e]; [eauto| |reflexivity].
    destruct (item_y (snd size) item0) as [y|e]; [|eauto].
    destruct (drawString_raises _ _ _ _); eauto.
Qed.

End OneFlush.

(** X1.  The block numbers only batch the drawing: when [float] accepts
    every confidence, the layer is what one flush of all the rows that
    pass the filter gives, in their order, whatever their block numbers
    are. *)
Theorem block_numbers_only_batch `{Externals} (self : PdfOcrProcessor)
    (size : Z * Z) (ws : list WordRecord) (σ : World) :
  Forall coercible ws ->
  _create_text_layer self (ocr_of_words ws) size σ =
  layer_of_blocks self [map item_of (List.filter (passes self) ws)] size σ.
Proof.
  intros Hco.
  rewrite (create_text_layer_words self size _ _ σ (presents_ocr_of_words _)).
  apply layer_of_words_one_flush. exact Hco.
Qed.

Lemma block_numbers_only_batch_witness :
  @_create_text_layer Demo.env Demo.processor
    (ocr_of_words [Demo.word "a" (PyInt 95) 1 10 20 50 15;
                   Demo.word "b" (PyInt 30) 2 70 20 50 15;
                   Demo.word "c" (PyInt 95) 2 10 40 50 15;
                   Demo.word "d" (PyInt 95) 1 10 60 50 15]) (100, 1000) Demo.world =
  @layer_of_blocks Demo.env Demo.processor
    [[item_of (Demo.word "a" (PyInt 95) 1 10 20 50 15);
      item_of (Demo.word "c" (PyInt 95) 2 10 40 50 15);
      item_of (Demo.word "d" (PyInt 95) 1 10 60 50 15)]] (100, 1000) Demo.world.
Proof.
  rewrite (@block_numbers_only_batch Demo.env Demo.processor (100, 1000)).
  - vm_compute. reflexivity.
  - repeat constructor; vm_compute; reflexivity.
Defined.

(** X2.  The commands of a layer follow the rows: they are commands of
    rows that pass the filter, each row giving one command at most, in
    the order of the rows. *)
Theorem commands_follow_the_rows `{Externals} (self : PdfOcrProcessor)
    (size : Z * Z) (ws : list WordRecord) (σ : World) (cv : Canvas) (σ' : World) :
  _create_text_layer self (ocr_of_words ws) size σ = (Ok cv, σ') ->
  sublist (code cv)
    (omap (item_cmd (snd size)) (map item_of (List.filter (passes self) ws))).
Proof.
  rewrite (create_text_layer_words self size _ _ σ (presents_ocr_of_words _)).
  intros Hrun. pose proof (layer_of_words_coercible self size ws σ cv σ' Hrun) as Hco.
  rewrite (layer_of_words_one_flush self size ws σ Hco) in Hrun.
  unfold layer_of_blocks, bind in Hrun.
  destruct (setFont _ _ _ σ) as [[c0|e] σ0] eqn:Hfont; [|discriminate].
  cbn [foldM] in Hrun. rewrite bind_ret_r in Hrun.
  apply write_text_block_sublist in Hrun as (new & Hcode & Hsub).
  unfold setFont in Hfont. destruct (font_known σ (font_name self)); [|discriminate].
  injection Hfont as <- <-. simpl in Hcode. rewrite Hcode. exact Hsub.
Qed.

Lemma commands_follow_the_rows_witness :
  sublist [DrawString (PyInt 10) (PyInt 965) (ustr "Hello")]
    (omap (item_cmd 1000)
       (map item_of (List.filter (@passes Demo.env Demo.processor) Demo.hello_world))).
Proof.
  apply (@commands_follow_the_rows Demo.env Demo.processor (100, 1000)
    Demo.hello_world Demo.world
    (add_code (setFillColor
       {| pagesize := (100, 1000); fontname := "Helvetica"; fontsize := 8;
          fillcolor := {| red := 0; green := 0; blue := 0; alpha := 1 |};
          code := [] |}
       {| red := 0; green := 0; blue := 0; alpha := 0 |})
       (DrawString (PyInt 10) (PyInt 965) (ustr "Hello")))
    Demo.world).
  vm_compute. reflexivity.
Defined.

(** X3.  No word is lost in silence: when [_write_text_block] returns,
    each item whose text is not empty once stripped has given one
    command on the canvas or one warning in the log, and the other items
    have given nothing. *)
Theorem every_word_is_drawn_or_warned `{Externals} (size : Z * Z)
    (blk : list Item) (cv : Canvas) (σ : World) (cv' : Canvas) (σ' : World) :
  _write_text_block cv blk size σ = (Ok cv', σ') ->
  (length (code cv') + length (log σ') =
   length (code cv) + length (log σ) + length (List.filter nonblank blk))%nat.
Proof.
  revert cv σ cv' σ'.
  induction blk as [|item rest IH]; intros cv σ cv' σ'.
  - intros [= <- <-]. simpl. lia.
  - rewrite write_text_block_step. cbn [List.filter]. unfold nonblank at 1.
    unfold py_strip. destruct (i_text item) as [| | |s]; try discriminate.
    destruct (str_strip s) as [|ch t]; [apply IH|].
    assert (Hwarn : forall e,
      _write_text_block cv rest size (add_logs σ [(WARNING, FailedToWriteText e)])
        = (Ok cv', σ') ->
      (length (code cv') + length (log σ') =
       length (code cv) + length (log σ) +
       length (item :: List.filter nonblank rest))%nat).
    { intros e Hrun. apply IH in Hrun. simpl in Hrun.
      rewrite length_app in Hrun. simpl in *. lia. }
    destruct (item_y (snd size) item) as [y|e]; [|apply Hwarn].
    destruct (drawString_raises _ _ _ _); [apply Hwarn|].
    intros Hrun. apply IH in Hrun. simpl in Hrun.
    rewrite length_app in Hrun. simpl in *. lia.
Qed.

Lemma every_word_is_drawn_or_warned_witness :
  (length (code (add_code (new_Canvas (100, 1000)%Z)
                   (DrawString (PyInt 10%Z) (PyInt 965%Z) (ustr "a")))) +
   length (log (add_logs Demo.world [(WARNING, FailedToWriteText TypeError)])) =
   length (code (new_Canvas (100, 1000)%Z)) + length (log Demo.world) + 2)%nat.
Proof.
  apply (@every_word_is_drawn_or_warned Demo.env (100, 1000)
    [item_of (Demo.word "a" (PyInt 95) 0 10 20 50 15);
     item_of (Demo.word "  " (PyInt 95) 0 10 20 50 15);
     {| i_text := PyStr (ustr "bad"); i_x := PyInt 1; i_y := PyStr (ustr "x");
        i_width := PyInt 1; i_height := PyInt 1 |}]).
  vm_compute. reflexivity.
Defined.

(** X4.  A text that is not a string is not a failure of one word: a row
    that passes the filter with such a text makes the whole layer fail,
    whatever the other rows are, since [strip] is called outside the
    [try]. *)
Theorem non_string_text_fails_the_layer `{Externals} (self : PdfOcrProcessor)
    (size : Z * Z) (l1 l2 : list WordRecord) (w : WordRecord)
    (f : spec_float) (σ : World) :
  py_float (w_conf w) = Ok f ->
  float_lt_int f (conf_threshold self) = false ->
  (forall s, w_text w <> PyStr s) ->
  is_Ok (fst (_create_text_layer self (ocr_of_words (l1 ++ w :: l2)) size σ)) = false.
Proof.
  intros Hf Hlt Hns.
  rewrite (create_text_layer_words self size _ _ σ (presents_ocr_of_words _)).
  destruct (layer_of_words self (l1 ++ w :: l2) size σ) as [[cv|e] σ'] eqn:Hrun;
    [|reflexivity].
  exfalso.
  pose proof (layer_of_words_coercible self size _ σ cv σ' Hrun) as Hco.
  rewrite (layer_of_words_one_flush self size _ σ Hco) in Hrun.
  unfold layer_of_blocks, bind in Hrun.
  destruct (setFont _ _ _ σ) as [[c0|e] σ0]; [|discriminate].
  cbn [foldM] in Hrun. rewrite bind_ret_r in Hrun.
  match type of Hrun with
  | _write_text_block ?cv0 ?blk _ _ = _ =>
      pose proof (write_text_block_not_str size blk cv0 σ0 (item_of w)) as Hr
  end.
  rewrite Hrun in Hr. simpl in Hr. enough (true = false) by discriminate.
  apply Hr; [|exact Hns].
  apply in_map. apply filter_In. split.
  - apply in_or_app. right. left. reflexivity.
  - unfold passes. rewrite Hf, Hlt. reflexivity.
Qed.

Lemma non_string_text_fails_the_layer_witness :
  is_Ok (fst (@_create_text_layer Demo.env Demo.processor
                (ocr_of_words
                   ([Demo.word "a" (PyInt 95) 0 10 20 50 15] ++
                    {| w_text := PyInt 7; w_conf := PyInt 95;
                       w_block_num := PyInt 0; w_left := PyInt 1;
                       w_top := PyInt 1; w_width := PyInt 1;
                       w_height := PyInt 1 |} :: []))
                (100, 1000) Demo.world)) = false.
Proof.
  apply (@non_string_text_fails_the_layer Demo.env Demo.processor (100, 1000)
    [Demo.word "a" (PyInt 95) 0 10 20 50 15] []
    {| w_text := PyInt 7; w_conf := PyInt 95; w_block_num := PyInt 0;
       w_left := PyInt 1; w_top := PyInt 1; w_width := PyInt 1;
       w_height := PyInt 1 |}
    (S754_finite false 6685030696878080 (-46)) Demo.world).
  - reflexivity.
  - vm_compute. reflexivity.
  - intros s. discriminate.
Defined.

(** ** How the computations change the world *)

Section StepsIn.

Variable R : World -> World -> Prop.
Hypothesis Hrefl : forall σ, R σ σ.
Hypothesis Htrans : forall σ1 σ2 σ3, R σ1 σ2 -> R σ2 σ3 -> R σ1 σ3.

Lemma steps_in_ret {A} (a : A) : steps_in R (ret a).
Proof. intros σ. apply Hrefl. Qed.

Lemma steps_in_raise {A} e : steps_in R (@raise A e).
Proof. intros σ. apply Hrefl. Qed.

Lemma steps_in_lift {A} (r : result A) : steps_in R (lift r).
Proof. intros σ. apply Hrefl. Qed.

Lemma steps_in_bind {A B} (m : M A) (k : A -> M B) :
  steps_in R m -> (forall a, steps_in R (k a)) -> steps_in R (bind m k).
Proof.
  intros Hm Hk σ. unfold bind. specialize (Hm σ).
  destruct (m σ) as [[a|e] σ1]; simpl in *; [|exact Hm].
  eapply Htrans; [exact Hm|apply Hk].
Qed.

Lemma steps_in_try {A} (m : M A) (h : exn -> M A) :
  steps_in R m -> (forall e, steps_in R (h e)) -> steps_in R (try_except m h).
Proof.
  intros Hm Hh σ. unfold try_except. specialize (Hm σ).
  destruct (m σ) as [[a|e] σ1]; simpl in *; [exact Hm|].
  eapply Htrans; [exact Hm|apply Hh].
Qed.

Lemma steps_in_foldM {A S} (f : S -> A -> M S) l :
  (forall s a, steps_in R (f s a)) -> forall s, steps_in R (foldM f s l).
Proof.
  intros Hf. induction l as [|a l IH]; intros s.
  - apply steps_in_ret.
  - simpl. apply steps_in_bind; [apply Hf|exact IH].
Qed.

End StepsIn.

Lemma steps_in_weaken {A} (R R' : World -> World -> Prop) (m : M A) :
  (forall σ σ', R σ σ' -> R' σ σ') -> steps_in R m -> steps_in R' m.
Proof. intros HR Hm σ. apply HR, Hm. Qed.

Lemma warned_refl σ : warned σ σ.
Proof.
  split; [reflexivity|]. split; [reflexivity|].
  exists []. split; [symmetry; apply app_nil_r|constructor].
Qed.

Lemma warned_trans σ1 σ2 σ3 : warned σ1 σ2 -> warned σ2 σ3 -> warned σ1 σ3.
Proof.
  intros (Hf1 & Hn1 & new1 & Hl1 & Hw1) (Hf2 & Hn2 & new2 & Hl2 & Hw2).
  split; [congruence|]. split; [congruence|].
  exists (new1 ++ new2). split.
  - rewrite Hl2, Hl1, app_assoc. reflexivity.
  - apply Forall_app. split; assumption.
Qed.

Lemma grown_refl σ : grown σ σ.
Proof.
  split; [reflexivity|]. split; [auto|].
  exists []. symmetry. apply app_nil_r.
Qed.

Lemma grown_trans σ1 σ2 σ3 : grown σ1 σ2 -> grown σ2 σ3 -> grown σ1 σ3.
Proof.
  intros (Hn1 & Hf1 & new1 & Hl1) (Hn2 & Hf2 & new2 & Hl2).
  split; [congruence|]. split; [auto|].
  exists (new1 ++ new2). rewrite Hl2, Hl1, app_assoc. reflexivity.
Qed.

Lemma same_kind_refl n : same_kind n n.
Proof. destruct n; exact I. Qed.

Lemma same_kind_trans n1 n2 n3 :
  same_kind n1 n2 -> same_kind n2 n3 -> same_kind n1 n3.
Proof. destruct n1, n2, n3; simpl; tauto. Qed.

Lemma kept_refl σ : kept σ σ.
Proof.
  split; [reflexivity|]. split.
  - intros q n Hq. exists n. split; [exact Hq|apply same_kind_refl].
  - exists []. symmetry. apply app_nil_r.
Qed.

Lemma kept_trans σ1 σ2 σ3 : kept σ1 σ2 -> kept σ2 σ3 -> kept σ1 σ3.
Proof.
  intros (Hn1 & Hf1 & new1 & Hl1) (Hn2 & Hf2 & new2 & Hl2).
  split; [congruence|]. split.
  - intros q n Hq. destruct (Hf1 q n Hq) as (n' & Hq' & Hk).
    destruct (Hf2 q n' Hq') as (n'' & Hq'' & Hk').
    exists n''. split; [exact Hq''|]. eapply same_kind_trans; eassumption.
  - exists (new1 ++ new2). rewrite Hl2, Hl1, app_assoc. reflexivity.
Qed.

Lemma warned_grown σ σ' : warned σ σ' -> grown σ σ'.
Proof.
  intros (Hf & Hn & new & Hl & _). split; [exact Hn|]. split.
  - intros q n Hq. rewrite Hf. exact Hq.
  - exists new. exact Hl.
Qed.

Lemma grown_kept σ σ' : grown σ σ' -> kept σ σ'.
Proof.
  intros (Hn & Hf & Hl). split; [exact Hn|]. split; [|exact Hl].
  intros q n Hq. exists n. split; [apply Hf; exact Hq|apply same_kind_refl].
Qed.

Lemma warned_logger e : steps_in warned (logger WARNING (FailedToWriteText e)).
Proof.
  intros σ. split; [reflexivity|]. split; [reflexivity|].
  eexists. split; [reflexivity|].
  constructor; [exists e; reflexivity|constructor].
Qed.

Lemma grown_logger lv m : steps_in grown (logger lv m).
Proof.
  intros σ. split; [reflexivity|]. split; [auto|]. eexists. reflexivity.
Qed.

Lemma grown_exists p : steps_in grown (os_path_exists p).
Proof. intros σ. apply grown_refl. Qed.

Lemma grown_isdir p : steps_in grown (os_path_isdir p).
Proof. intros σ. apply grown_refl. Qed.

Lemma grown_read p : steps_in grown (read_file p).
Proof.
  intros σ. unfold read_file.
  destruct (resolve σ p) as [[data|]|]; apply grown_refl.
Qed.

(** [mkdir] makes a directory where nothing was. *)
Lemma grown_mkdir name : steps_in grown (mkdir name).
Proof.
  intros σ. unfold mkdir.
  destruct (String.eqb name ""); [apply grown_refl|].
  destruct (is_root name); [apply grown_refl|].
  destruct (fs σ !! unslash name) eqn:Hkey; [apply grown_refl|].
  destruct (check_parent σ (unslash name)); [apply grown_refl|].
  split; [reflexivity|]. split.
  - intros q n Hq. simpl. rewrite lookup_insert_ne; [exact Hq|].
    intros <-. congruence.
  - exists []. symmetry. apply app_nil_r.
Qed.

Lemma grown_mkdir_exist_ok name : steps_in grown (mkdir_exist_ok name).
Proof.
  unfold mkdir_exist_ok.
  apply (steps_in_try grown grown_trans); [apply grown_mkdir|].
  intros e. apply (steps_in_bind grown grown_trans); [apply grown_isdir|].
  intros [|]; [apply steps_in_ret|apply steps_in_raise]; exact grown_refl.
Qed.

Lemma grown_makedirs_upto n : forall name, steps_in grown (makedirs_upto n name).
Proof.
  induction n as [|n IH]; intros name; cbn [makedirs_upto];
    destruct (posixpath_split name) as [head tail];
    destruct (if String.eqb tail "" then posixpath_split head else (head, tail))
      as [head' tail'];
    destruct (negb (String.eqb head' "") && negb (String.eqb tail' ""));
    try apply grown_mkdir_exist_ok;
    (apply (steps_in_bind grown grown_trans); [apply grown_exists|]);
    intros [|]; try apply grown_mkdir_exist_ok.
  apply (steps_in_bind grown grown_trans).
  - apply (steps_in_try grown grown_trans); [apply IH|].
    intros []; (apply steps_in_ret || apply steps_in_raise); exact grown_refl.
  - intros _. destruct (String.eqb tail' ".");
      [apply steps_in_ret; exact grown_refl|apply grown_mkdir_exist_ok].
Qed.

Lemma grown_makedirs name : steps_in grown (makedirs name).
Proof. apply grown_makedirs_upto. Qed.

(** ** What a computation returns *)

Lemma returns_ret {A} (P : A -> Prop) a : P a -> returns P (ret a).
Proof. intros Ha σ a' σ' [= <- _]. exact Ha. Qed.

Lemma returns_raise {A} (P : A -> Prop) e : returns P (raise e).
Proof. intros σ a σ' Hr. discriminate. Qed.

Lemma returns_impl {A} (P Q : A -> Prop) m :
  (forall a, P a -> Q a) -> returns P m -> returns Q m.
Proof. intros HPQ Hm σ a σ' Hr. eapply HPQ, Hm, Hr. Qed.

Lemma returns_bind_with {A B} (Q : A -> Prop) (P : B -> Prop) m k :
  returns Q m -> (forall a, Q a -> returns P (k a)) -> returns P (bind m k).
Proof.
  intros Hm Hk σ b σ'. unfold bind. specialize (Hm σ).
  destruct (m σ) as [[a|e] σ1]; [|discriminate].
  intros Hr. eapply Hk; [eapply Hm; reflexivity|exact Hr].
Qed.

Lemma returns_bind {A B} (P : B -> Prop) (m : M A) k :
  (forall a, returns P (k a)) -> returns P (bind m k).
Proof.
  intros Hk. apply (returns_bind_with (fun _ => True)); [|auto].
  intros σ a σ' _. exact I.
Qed.

Lemma returns_try {A} (P : A -> Prop) m h :
  returns P m -> (forall e, returns P (h e)) -> returns P (try_except m h).
Proof.
  intros Hm Hh σ a σ'. unfold try_except. specialize (Hm σ).
  destruct (m σ) as [[a'|e] σ1].
  - intros [= <- <-]. eapply Hm. reflexivity.
  - apply Hh.
Qed.

Lemma returns_foldM {A S} (Inv : S -> Prop) (f : S -> A -> M S) l :
  (forall s a, Inv s -> returns Inv (f s a)) ->
  forall s, Inv s -> returns Inv (foldM f s l).
Proof.
  intros Hf. induction l as [|a l IH]; intros s Hs.
  - apply returns_ret. exact Hs.
  - simpl. apply (returns_bind_with Inv); [apply Hf; exact Hs|exact IH].
Qed.

Lemma same_settings_refl cv : same_settings cv cv.
Proof. repeat split. Qed.

Lemma same_settings_trans c1 c2 c3 :
  same_settings c1 c2 -> same_settings c2 c3 -> same_settings c1 c3.
Proof.
  intros (? & ? & ? & ?) (? & ? & ? & ?). repeat split; congruence.
Qed.

Section LayerFrame.

Context `{Externals}.

Lemma warned_write_text_block blk size : forall cv,
  steps_in warned (_write_text_block cv blk size).
Proof.
  induction blk as [|item rest IH]; intros cv; cbn [_write_text_block].
  - apply steps_in_ret. exact warned_refl.
  - apply (steps_in_bind warned warned_trans);
      [apply steps_in_lift; exact warned_refl|].
    intros [|ch t]; [apply IH|].
    apply (steps_in_bind warned warned_trans); [|intros cv'; apply IH].
    apply (steps_in_try warned warned_trans).
    + intros σ. rewrite write_item_spec. apply warned_refl.
    + intros e. apply (steps_in_bind warned warned_trans);
        [apply warned_logger|].
      intros _. apply steps_in_ret. exact warned_refl.
Qed.

Lemma warned_flush cv blk size : steps_in warned (flush cv blk size).
Proof.
  destruct blk; [apply steps_in_ret; exact warned_refl|].
  apply warned_write_text_block.
Qed.

Lemma warned_setFont cv name size : steps_in warned (setFont cv name size).
Proof.
  intros σ. unfold setFont. destruct (font_known σ name); apply warned_refl.
Qed.

Lemma warned_layer_step self d size st i :
  steps_in warned (layer_step self d size st i).
Proof.
  unfold layer_step.
  repeat first
    [ apply steps_in_ret; exact warned_refl
    | apply steps_in_lift; exact warned_refl
    | apply warned_flush
    | apply (steps_in_bind warned warned_trans); [|intros ?]
    | match goal with |- steps_in _ (if ?b then _ else _) => destruct b end ].
Qed.

Lemma warned_create_text_layer self d size :
  steps_in warned (_create_text_layer self d size).
Proof.
  unfold _create_text_layer.
  apply (steps_in_bind warned warned_trans); [apply warned_setFont|]. intros c0.
  apply (steps_in_bind warned warned_trans);
    [apply steps_in_lift; exact warned_refl|]. intros texts.
  apply (steps_in_bind warned warned_trans); [|intros st; apply warned_flush].
  apply (steps_in_foldM warned warned_refl warned_trans).
  intros. apply warned_layer_step.
Qed.

Lemma settings_write_text_block blk size : forall cv,
  returns (same_settings cv) (_write_text_block cv blk size).
Proof.
  induction blk as [|item rest IH]; intros cv; cbn [_write_text_block].
  - apply returns_ret, same_settings_refl.
  - apply returns_bind. intros [|ch t]; [apply IH|].
    apply (returns_bind_with (same_settings cv)).
    + apply returns_try.
      * intros σ a σ'. rewrite write_item_spec.
        destruct (item_y (snd size) item) as [y|e]; [|discriminate].
        destruct (drawString_raises _ _ _ _); [discriminate|].
        intros [= <- _]. repeat split.
      * intros e. apply returns_bind. intros _.
        apply returns_ret, same_settings_refl.
    + intros cv' Hcv'. eapply returns_impl; [|apply IH].
      intros a. apply same_settings_trans. exact Hcv'.
Qed.

Lemma settings_flush cv blk size : returns (same_settings cv) (flush cv blk size).
Proof.
  destruct blk; [apply returns_ret, same_settings_refl|].
  apply settings_write_text_block.
Qed.

Lemma settings_layer_step self d size st i :
  returns (fun st' => same_settings (c st) (c st')) (layer_step self d size st i).
Proof.
  unfold layer_step.
  apply returns_bind. intros v. apply returns_bind. intros conf.
  destruct (float_lt_int conf (conf_threshold self));
    [apply returns_ret, same_settings_refl|].
  apply returns_bind. intros b.
  apply (returns_bind_with (fun st' => same_settings (c st) (c st'))).
  - destruct (py_ne b (last_block_num st));
      [|apply returns_ret, same_settings_refl].
    apply (returns_bind_with (same_settings (c st))); [apply settings_flush|].
    intros cv Hcv. apply returns_bind. intros b'. apply returns_ret. exact Hcv.
  - intros st1 Hst1. repeat (apply returns_bind; intros ?).
    apply returns_ret. exact Hst1.
Qed.

Lemma settings_create_text_layer self d size :
  returns (layer_settings self size) (_create_text_layer self d size).
Proof.
  assert (Hsame : forall cv cv',
            layer_settings self size cv -> same_settings cv cv' ->
            layer_settings self size cv').
  { intros cv cv' (? & ? & ? & ?) (? & ? & ? & ?).
    repeat split; congruence. }
  unfold _create_text_layer.
  apply (returns_bind_with
           (fun c0 => pagesize c0 = size /\ fontname c0 = font_name self /\
                      fontsize c0 = 8)).
  { intros σ c0 σ'. unfold setFont.
    destruct (font_known σ (font_name self)); [|discriminate].
    intros [= <- _]. repeat split. }
  intros c0 (Hp & Hn & Hs). apply returns_bind. intros texts.
  apply (returns_bind_with (fun st => layer_settings self size (c st))).
  - apply returns_foldM.
    + intros st i Hst. eapply returns_impl; [|apply settings_layer_step].
      intros st'. apply Hsame. exact Hst.
    + repeat split; assumption.
  - intros st Hst. eapply returns_impl; [|apply settings_flush].
    intros cv. apply Hsame. exact Hst.
Qed.

Lemma grown_page_step self pages total writer it :
  steps_in grown (page_step self pages total writer it).
Proof.
  destruct it as [i image]. unfold page_step.
  apply (steps_in_bind grown grown_trans);
    [apply steps_in_lift; exact grown_refl|]. intros d.
  apply (steps_in_bind grown grown_trans).
  { eapply steps_in_weaken; [exact warned_grown|].
    apply warned_create_text_layer. }
  intros layer.
  repeat (apply (steps_in_bind grown grown_trans);
          [apply steps_in_lift; exact grown_refl|intros ?]).
  apply (steps_in_bind grown grown_trans); [apply grown_logger|]. intros _.
  apply steps_in_ret. exact grown_refl.
Qed.

Lemma grown_assemble self input_path output_path :
  steps_in grown (assemble self input_path output_path).
Proof.
  unfold assemble.
  apply (steps_in_bind grown grown_trans); [apply grown_exists|]. intros there.
  destruct (negb there); [apply steps_in_raise; exact grown_refl|].
  apply (steps_in_bind grown grown_trans); [apply grown_makedirs|]. intros _.
  apply (steps_in_bind grown grown_trans); [apply grown_logger|]. intros _.
  apply (steps_in_bind grown grown_trans); [apply grown_read|]. intros data.
  apply (steps_in_bind grown grown_trans);
    [apply steps_in_lift; exact grown_refl|]. intros images.
  apply (steps_in_bind grown grown_trans); [apply grown_read|]. intros data'.
  apply (steps_in_bind grown grown_trans);
    [apply steps_in_lift; exact grown_refl|]. intros pages.
  apply (steps_in_foldM grown grown_refl grown_trans).
  intros. apply grown_page_step.
Qed.

(** [open(p, 'wb')] and the writing put a file where there was a file
    or nothing: a directory at [p] makes [open] fail. *)
Lemma kept_save writer output_path :
  steps_in kept (save writer output_path).
Proof.
  intros σ. unfold save, bind.
  destruct (open_wb_cases output_path σ) as [[e He]|Hok].
  { rewrite He. apply kept_refl. }
  assert (Hfile : forall n, fs σ !! output_path = Some n -> exists d, n = File d).
  { intros n Hn. revert Hok. unfold open_wb.
    destruct (String.eqb output_path ""); [discriminate|].
    destruct (ends_with_slash output_path); [discriminate|].
    rewrite Hn. destruct n as [d|]; [eauto|discriminate]. }
  rewrite Hok. destruct (writer_write writer) as [data failure].
  assert (Hkept : forall r : result unit,
            kept σ (snd (r, set_fs (set_fs σ (<[output_path := File []]> (fs σ)))
                            (<[output_path := File data]>
                               (<[output_path := File []]> (fs σ)))))).
  { intros r. split; [reflexivity|]. split.
    - intros q n Hq. simpl.
      destruct (decide (output_path = q)) as [<-|Hne].
      + rewrite lookup_insert_eq. destruct (Hfile n Hq) as [d ->].
        eexists. split; [reflexivity|exact I].
      + rewrite !lookup_insert_ne by exact Hne.
        exists n. split; [exact Hq|apply same_kind_refl].
    - exists []. symmetry. apply app_nil_r. }
  unfold write_bytes. destruct failure; apply Hkept.
Qed.

Lemma kept_process_pdf self input_path output_path :
  steps_in kept (process_pdf self input_path output_path).
Proof.
  assert (Hlog : forall lv m, steps_in kept (logger lv m)).
  { intros lv m. eapply steps_in_weaken; [apply grown_kept|].
    apply grown_logger. }
  unfold process_pdf.
  apply (steps_in_try kept kept_trans).
  - apply (steps_in_bind kept kept_trans).
    { eapply steps_in_weaken; [apply grown_kept|]. apply grown_assemble. }
    intros writer.
    apply (steps_in_bind kept kept_trans); [apply kept_save|]. intros _.
    apply (steps_in_bind kept kept_trans); [apply Hlog|].
    intros _. apply steps_in_ret. exact kept_refl.
  - intros e.
    apply (steps_in_bind kept kept_trans); [apply Hlog|].
    intros _. apply steps_in_ret. exact kept_refl.
Qed.

End LayerFrame.

(** X5.  Making the text layer of a page touches nothing but the log:
    whatever the recognition output is, and whether the layer is made or
    an exception is raised, the files, the directories and the registered
    fonts are as before, and every line the log has gained is the
    warning of a word that could not be written. *)
Theorem the_layer_only_adds_warnings `{Externals} (self : PdfOcrProcessor)
    (d : ocr_dict) (size : Z * Z) (σ : World) :
  let σ' := snd (_create_text_layer self d size σ) in
  fs σ' = fs σ /\ fonts σ' = fonts σ /\
  exists new,
    log σ' = log σ ++ new /\
    Forall (fun l => exists e, l = (WARNING, FailedToWriteText e)) new.
Proof.
  destruct (warned_create_text_layer self d size σ)
    as (Hfs & Hfonts & new & Hlog & Hnew).
  cbv zeta. split; [exact Hfs|]. split; [exact Hfonts|].
  exists new. split; [exact Hlog|exact Hnew].
Qed.

(** X6.  Every layer that is made is set for invisible text: the canvas
    has the size of the image, the font of the processor at size 8 and a
    fill colour of alpha 0, whatever the recognition output holds. *)
Theorem layers_are_invisible_text `{Externals} (self : PdfOcrProcessor)
    (d : ocr_dict) (size : Z * Z) (σ σ' : World) (cv : Canvas) :
  _create_text_layer self d size σ = (Ok cv, σ') ->
  pagesize cv = size /\ fontname cv = font_name self /\ fontsize cv = 8 /\
  alpha (fillcolor cv) = 0.
Proof.
  intros Hrun.
  destruct (settings_create_text_layer self d size σ cv σ' Hrun)
    as (Hp & Hn & Hs & Hc).
  rewrite Hc. repeat split; assumption.
Qed.

Lemma layers_are_invisible_text_witness :
  exists cv σ',
    @_create_text_layer Demo.env Demo.processor
      (ocr_of_words Demo.hello_world) (100, 1000) Demo.world = (Ok cv, σ') /\
    pagesize cv = (100, 1000) /\ fontname cv = "Helvetica"%string /\
    fontsize cv = 8 /\ alpha (fillcolor cv) = 0.
Proof.
  eexists _, _. split; [vm_compute; reflexivity|].
  eapply (@layers_are_invisible_text Demo.env Demo.processor
            (ocr_of_words Demo.hello_world) (100, 1000) Demo.world).
  vm_compute. reflexivity.
Defined.

(** X7.  [process_pdf] removes nothing.  Whether the run succeeds or
    fails, whatever the paths are: every path that named a directory
    still names a directory, every path that named a file still names a
    file, whose content the run may have written; no font is registered
    or forgotten; and the log keeps its lines and may gain some. *)
Theorem process_pdf_removes_nothing `{Externals}
    (self : PdfOcrProcessor) (input_path output_path : string) (σ : World) :
  let σ' := snd (process_pdf self input_path output_path σ) in
  fonts σ' = fonts σ /\
  (forall q, fs σ !! q = Some Dir -> fs σ' !! q = Some Dir) /\
  (forall q data, fs σ !! q = Some (File data) ->
                  exists data', fs σ' !! q = Some (File data')) /\
  exists new, log σ' = log σ ++ new.
Proof.
  destruct (kept_process_pdf self input_path output_path σ)
    as (Hfonts & Hfs & new & Hlog).
  cbv zeta. split; [exact Hfonts|]. split; [|split].
  - intros q Hq. destruct (Hfs q Dir Hq) as ([d|] & Hq' & Hk);
      [contradiction Hk|exact Hq'].
  - intros q data Hq. destruct (Hfs q (File data) Hq) as ([d|] & Hq' & Hk);
      [exists d; exact Hq'|contradiction Hk].
  - exists new. exact Hlog.
Qed.

(** X8.  The outcome [process_pdf] returns is the last line of the log:
    a run that returns [True] ends the log with the line of the saved
    file, at level INFO, and a run that returns [False] ends it with the
    very message it returns, at level ERROR.  The lines that were in the
    log stay before it. *)
Theorem process_pdf_logs_its_outcome `{Externals}
    (self : PdfOcrProcessor) (input_path output_path : string) (σ : World) :
  exists success msg σ' before,
    process_pdf self input_path output_path σ = (Ok (success, msg), σ') /\
    log σ' = log σ ++ before ++
             [if success then (INFO, SavedSearchablePdf output_path)
              else (ERROR, msg)].
Proof.
  rewrite process_pdf_unfold.
  pose proof (grown_assemble self input_path output_path σ) as (_ & _ & n1 & Hl1).
  destruct (assemble self input_path output_path σ) as [[writer|e] σ1];
    simpl in Hl1.
  - pose proof (kept_save writer output_path σ1) as (_ & _ & n2 & Hl2).
    destruct (save writer output_path σ1) as [[[]|e] σ2]; simpl in Hl2.
    + exists true, ProcessingCompleted. eexists _, (n1 ++ n2).
      split; [reflexivity|]. simpl. rewrite Hl2, Hl1, <- !app_assoc. reflexivity.
    + exists false, (ErrorProcessingPdf e). eexists _, (n1 ++ n2).
      split; [reflexivity|]. simpl. rewrite Hl2, Hl1, <- !app_assoc. reflexivity.
  - exists false, (ErrorProcessingPdf e). eexists _, n1.
    split; [reflexivity|]. simpl. rewrite Hl1, <- !app_assoc. reflexivity.
Qed.

(** ** The columns the layer reads *)

Lemma item_y_width H a b : same_item_but_width a b -> item_y H a = item_y H b.
Proof.
  intros (_ & _ & Hy & Hh). unfold item_y. rewrite Hy, Hh. reflexivity.
Qed.

Lemma foldM_idle {A S} (f : S -> A -> M S) (s : S) (l : list A) σ :
  (forall a, In a l -> f s a σ = (Ok s, σ)) -> foldM f s l σ = (Ok s, σ).
Proof.
  induction l as [|a l IH]; intros Hf; [reflexivity|].
  simpl. unfold bind. rewrite (Hf a) by (left; reflexivity).
  apply IH. intros b Hb. apply Hf. right. exact Hb.
Qed.

Lemma forallb_false_lookup {A} (f : A -> bool) (l : list A) :
  forallb f l = false -> exists i x, l !! i = Some x /\ f x = false.
Proof.
  induction l as [|a l IH]; [discriminate|].
  simpl. destruct (f a) eqn:Hfa.
  - intros Hl. destruct (IH Hl) as (i & x & Hi & Hx).
    exists (S i), x. split; assumption.
  - intros _. exists 0%nat, a. split; [reflexivity|exact Hfa].
Qed.

Section ColumnFacts.

Context `{Externals}.
Variable self : PdfOcrProcessor.
Variable size : Z * Z.

Lemma write_text_block_width blk blk' :
  Forall2 same_item_but_width blk blk' ->
  forall cv σ,
    _write_text_block cv blk size σ = _write_text_block cv blk' size σ.
Proof.
  induction 1 as [|a b blk blk' Hab Hrest IH]; intros cv σ; [reflexivity|].
  rewrite !write_text_block_step, (item_y_width _ a b Hab).
  destruct Hab as (Ht & Hx & _ & _). rewrite Ht, Hx.
  destruct (py_strip (i_text b)) as [[|ch t]|e]; [apply IH| |reflexivity].
  destruct (item_y (snd size) b) as [y|e]; [|apply IH].
  destruct (drawString_raises _ _ _ _); apply IH.
Qed.

Lemma flush_width blk blk' cv σ :
  Forall2 same_item_but_width blk blk' ->
  flush cv blk size σ = flush cv blk' size σ.
Proof.
  intros Hb. rewrite !flush_eq. apply write_text_block_width. exact Hb.
Qed.

Lemma item_of_width w w' :
  same_but_width w w' -> same_item_but_width (item_of w) (item_of w').
Proof.
  intros (Ht & _ & _ & Hl & Htop & Hh). repeat split; assumption.
Qed.

Lemma word_step_width st st' w w' σ :
  same_but_width w w' -> same_state_but_width st st' ->
  same_run_but_width (word_step self size st w σ) (word_step self size st' w' σ).
Proof.
  intros Hw (Hcv & Hlast & Hblk).
  pose proof (item_of_width w w' Hw) as Hitem.
  destruct Hw as (_ & Hc & Hb & _).
  unfold word_step. rewrite Hc, Hb, Hlast, Hcv.
  destruct (py_float (w_conf w')) as [f|e];
    [rewrite !bind_lift_Ok|rewrite !bind_lift_Raise; split; reflexivity].
  destruct (float_lt_int f (conf_threshold self)).
  { split; [reflexivity|]. simpl. repeat split; assumption. }
  destruct (py_ne (w_block_num w') (last_block_num st')).
  - monad_norm. unfold bind. rewrite (flush_width _ _ _ _ Hblk).
    destruct (flush (c st') (text_block st') size σ) as [[cv|e] σ1];
      (split; [reflexivity|]); simpl; [|reflexivity].
    repeat split. constructor; [exact Hitem|constructor].
  - monad_norm. split; [reflexivity|]. simpl.
    split; [exact Hcv|]. split; [exact Hlast|].
    apply Forall2_app; [exact Hblk|]. constructor; [exact Hitem|constructor].
Qed.

Lemma foldM_word_step_width ws ws' :
  Forall2 same_but_width ws ws' ->
  forall st st' σ,
    same_state_but_width st st' ->
    same_run_but_width (foldM (word_step self size) st ws σ)
                       (foldM (word_step self size) st' ws' σ).
Proof.
  induction 1 as [|w w' ws ws' Hw Hrest IH]; intros st st' σ Hst.
  - split; [reflexivity|exact Hst].
  - simpl. unfold bind.
    pose proof (word_step_width st st' w w' σ Hw Hst) as [Hσ Hr].
    destruct (word_step self size st w σ) as [[a|e] σ1],
             (word_step self size st' w' σ) as [[a'|e'] σ2];
      simpl in Hσ, Hr; subst; try contradiction.
    + apply IH. exact Hr.
    + split; reflexivity.
Qed.

Lemma layer_of_words_width ws ws' σ :
  Forall2 same_but_width ws ws' ->
  layer_of_words self ws size σ = layer_of_words self ws' size σ.
Proof.
  intros Hws. unfold layer_of_words. apply bind_ext. intros c0 σ0.
  unfold bind.
  set (st0 := {| c := _; last_block_num := _; text_block := _ |}).
  assert (Hst0 : same_state_but_width st0 st0).
  { repeat split. constructor. }
  pose proof (foldM_word_step_width ws ws' Hws st0 st0 σ0 Hst0) as [Hσ Hr].
  destruct (foldM (word_step self size) st0 ws σ0) as [[a|e] σ1],
           (foldM (word_step self size) st0 ws' σ0) as [[a'|e'] σ2];
    simpl in Hσ, Hr; subst; try contradiction; [|reflexivity].
  destruct Hr as (Hcv & _ & Hblk). rewrite Hcv. apply flush_width. exact Hblk.
Qed.

(** A row below the threshold is passed over after its confidence is
    read. *)
Lemma layer_step_below d ws i w st σ :
  column d "conf" w_conf ws -> ws !! i = Some w ->
  coercible w -> passes self w = false ->
  layer_step self d size st i σ = (Ok st, σ).
Proof.
  intros Hc Hi Hco Hp. unfold layer_step.
  rewrite (cell_column _ _ _ _ _ _ Hc Hi), bind_lift_Ok.
  unfold coercible in Hco. unfold passes in Hp.
  destruct (py_float (w_conf w)) as [f|e]; [|discriminate].
  rewrite bind_lift_Ok.
  destruct (float_lt_int f (conf_threshold self)); [reflexivity|discriminate].
Qed.

(** A row that passes needs the five other columns. *)
Lemma layer_step_missing d ws i w k st σ :
  column d "conf" w_conf ws -> ws !! i = Some w ->
  passes self w = true ->
  In k columns_of_passing_words -> d !! k = None ->
  is_Ok (fst (layer_step self d size st i σ)) = false.
Proof.
  intros Hc Hi Hp Hk Hnone. unfold layer_step.
  rewrite (cell_column _ _ _ _ _ _ Hc Hi), bind_lift_Ok.
  unfold passes in Hp.
  destruct (py_float (w_conf w)) as [f|e]; [|discriminate].
  rewrite bind_lift_Ok.
  destruct (float_lt_int f (conf_threshold self)); [discriminate|].
  assert (Hcell : cell d k i = Raise (KeyError k)).
  { unfold cell, getitem. rewrite Hnone. reflexivity. }
  assert (Hgo : forall A B (r : result A) (m : A -> M B) σ1,
            (forall a, is_Ok (fst (m a σ1)) = false) ->
            is_Ok (fst (bind (lift r) m σ1)) = false).
  { intros A B [a|e] m σ1 Hm; [rewrite bind_lift_Ok; apply Hm|reflexivity]. }
  assert (Hend : forall B (m : pyval -> M B) σ1,
            is_Ok (fst (bind (lift (cell d k i)) m σ1)) = false).
  { intros B m σ1. rewrite Hcell. reflexivity. }
  unfold columns_of_passing_words in Hk. simpl in Hk.
  destruct Hk as [<-|Hk]; [apply Hend|].
  apply Hgo. intros b. unfold bind at 1.
  match goal with
  | |- context [match ?m σ with _ => _ end] =>
      destruct (m σ) as [[st1|e] σ1]; [|reflexivity]
  end.
  apply Hgo. intros text.
  destruct Hk as [<-|Hk]; [apply Hend|]. apply Hgo. intros left.
  destruct Hk as [<-|Hk]; [apply Hend|]. apply Hgo. intros top.
  destruct Hk as [<-|Hk]; [apply Hend|]. apply Hgo. intros width.
  destruct Hk as [<-|[]]. apply Hend.
Qed.

End ColumnFacts.

(** X9.  The widths of the words are never read: two recognition outputs
    whose rows differ by their widths only give the same layer, or the
    same exception, and leave the same world. *)
Theorem widths_are_never_read `{Externals} (self : PdfOcrProcessor)
    (size : Z * Z) (d d' : ocr_dict) (ws ws' : list WordRecord) (σ : World) :
  presents d ws -> presents d' ws' ->
  Forall2 same_but_width ws ws' ->
  _create_text_layer self d size σ = _create_text_layer self d' size σ.
Proof.
  intros Hd Hd' Hws.
  rewrite (create_text_layer_words self size d ws σ Hd).
  rewrite (create_text_layer_words self size d' ws' σ Hd').
  apply layer_of_words_width. exact Hws.
Qed.

Lemma widths_are_never_read_witness :
  @_create_text_layer Demo.env Demo.processor
    (ocr_of_words [Demo.word "Hello" (PyInt 95) 0 10 20 50 15;
                   Demo.word "world" (PyInt 90) 1 70 20 50 15])
    (100, 1000) Demo.world =
  @_create_text_layer Demo.env Demo.processor
    (ocr_of_words [Demo.word "Hello" (PyInt 95) 0 10 20 0 15;
                   {| w_text := PyStr (ustr "world"); w_conf := PyInt 90;
                      w_block_num := PyInt 1; w_left := PyInt 70;
                      w_top := PyInt 20; w_width := PyNone;
                      w_height := PyInt 15 |}])
    (100, 1000) Demo.world.
Proof.
  apply (@widths_are_never_read Demo.env Demo.processor (100, 1000) _ _
           [Demo.word "Hello" (PyInt 95) 0 10 20 50 15;
            Demo.word "world" (PyInt 90) 1 70 20 50 15]
           [Demo.word "Hello" (PyInt 95) 0 10 20 0 15;
            {| w_text := PyStr (ustr "world"); w_conf := PyInt 90;
               w_block_num := PyInt 1; w_left := PyInt 70;
               w_top := PyInt 20; w_width := PyNone;
               w_height := PyInt 15 |}]).
  - apply presents_ocr_of_words.
  - apply presents_ocr_of_words.
  - repeat constructor.
Defined.

(** X10.  The columns ['block_num'], ['left'], ['top'], ['width'] and
    ['height'] are read for the words that pass the confidence filter
    only.  On a recognition output that lacks one of them, with a font
    the canvas knows and confidences [float] accepts, the layer is made
    exactly when no word passes the filter; it then has no text and the
    world is as it was. *)
Theorem a_missing_column_fails_at_the_first_passing_word `{Externals}
    (self : PdfOcrProcessor) (size : Z * Z) (d : ocr_dict)
    (ws : list WordRecord) (k : string) (σ : World) :
  d !! "text"%string = Some (map w_text ws) ->
  column d "conf" w_conf ws ->
  Forall coercible ws ->
  font_known σ (font_name self) = true ->
  In k columns_of_passing_words ->
  d !! k = None ->
  is_Ok (fst (_create_text_layer self d size σ))
    = forallb (fun w => negb (passes self w)) ws /\
  forall cv σ',
    _create_text_layer self d size σ = (Ok cv, σ') -> code cv = [] /\ σ' = σ.
Proof.
  intros Ht Hc Hco Hfont Hk Hnone.
  assert (Hcases :
    (forallb (fun w => negb (passes self w)) ws = true /\
     exists cv, _create_text_layer self d size σ = (Ok cv, σ) /\ code cv = []) \/
    (forallb (fun w => negb (passes self w)) ws = false /\
     is_Ok (fst (_create_text_layer self d size σ)) = false)).
  { destruct (forallb (fun w => negb (passes self w)) ws) eqn:Hall;
      [left|right]; (split; [reflexivity|]).
    - assert (Hloop : forall st0,
        foldM (layer_step self d size) st0 (seq 0 (length ws)) σ = (Ok st0, σ)).
      { intros st0. apply foldM_idle. intros i Hi. apply in_seq in Hi.
        destruct (lookup_lt_is_Some_2 ws i) as [w Hw]; [lia|].
        apply (layer_step_below self size d ws i w st0 σ Hc Hw).
        - rewrite Forall_forall in Hco. apply Hco.
          apply list_elem_of_lookup. exists i. exact Hw.
        - rewrite forallb_forall in Hall. apply negb_true_iff, Hall.
          apply list_elem_of_In, list_elem_of_lookup. exists i. exact Hw. }
      eexists. split.
      + unfold _create_text_layer, bind at 1, setFont at 1. rewrite Hfont.
        unfold getitem. rewrite Ht, bind_lift_Ok, length_map. unfold bind.
        rewrite Hloop. reflexivity.
      + reflexivity.
    - apply forallb_false_lookup in Hall as (i & w & Hw & Hp).
      apply negb_false_iff in Hp.
      assert (Hin : In i (seq 0 (length ws))).
      { apply in_seq. apply lookup_lt_Some in Hw. lia. }
      unfold _create_text_layer, bind at 1, setFont at 1. rewrite Hfont.
      unfold getitem. rewrite Ht, bind_lift_Ok, length_map. unfold bind.
      set (st0 := {| c := _; last_block_num := _; text_block := _ |}).
      pose proof (foldM_raises (layer_step self d size) i _ Hin
        (fun st σ1 => layer_step_missing self size d ws i w k st σ1
                        Hc Hw Hp Hk Hnone) st0 σ) as Hr.
      destruct (foldM (layer_step self d size) st0 (seq 0 (length ws)) σ)
        as [[st|e] σ1]; [discriminate|reflexivity]. }
  destruct Hcases as [(-> & cv0 & Hrun & Hcode)|(-> & Hfail)].
  - rewrite Hrun. split; [reflexivity|].
    intros cv σ' [= <- <-]. split; [exact Hcode|reflexivity].
  - split; [exact Hfail|]. intros cv σ' Hrun. rewrite Hrun in Hfail.
    discriminate.
Qed.

Lemma a_missing_column_fails_at_the_first_passing_word_witness :
  is_Ok (fst (@_create_text_layer Demo.env Demo.processor
                (<["text" := [PyStr (ustr "faint"); PyStr (ustr "dim")]]>
                 (<["conf" := [PyInt 12; PyStr (ustr "30.5")]]> ∅))
                (100, 1000) Demo.world)) = true.
Proof.
  refine (proj1 (@a_missing_column_fails_at_the_first_passing_word Demo.env
    Demo.processor (100, 1000)
    (<["text" := [PyStr (ustr "faint"); PyStr (ustr "dim")]]>
     (<["conf" := [PyInt 12; PyStr (ustr "30.5")]]> ∅))
    [Demo.word "faint" (PyInt 12) 0 0 0 0 0;
     Demo.word "dim" (PyStr (ustr "30.5")) 0 0 0 0 0]
    "left" Demo.world _ _ _ _ _ _)).
  - vm_compute. reflexivity.
  - exists []. vm_compute. reflexivity.
  - repeat constructor.
  - reflexivity.
  - vm_compute. tauto.
  - vm_compute. reflexivity.
Defined.

(** X11.  When the rasterizer gives more images than the reader finds
    pages, [process_pdf] fails, at the latest at the first image without
    a page, and no file is written. *)
Theorem more_images_than_pages_fails `{Externals} (self : PdfOcrProcessor)
    (input_path output_path : string) (σ : World) data images pages :
  file_at σ input_path = Some data ->
  convert_from_path data (dpi self) = Ok images ->
  PdfReader_pages data = Ok pages ->
  (length pages < length images)%nat ->
  exists e σ',
    process_pdf self input_path output_path σ
      = (Ok (false, ErrorProcessingPdf e), σ') /\
    forall q, file_at σ' q = file_at σ q.
Proof.
  intros Hdata Hconv Hpages Hlen.
  rewrite process_pdf_unfold.
  pose proof (keeps_files_assemble self input_path output_path σ) as Hkeep.
  destruct (assemble self input_path output_path σ) as [[out|e] σ1] eqn:Ha.
  - exfalso.
    destruct (assemble_success self _ _ _ _ _ Ha)
      as (data' & images' & pages' & Hdata' & Hconv' & Hpages' & _ & Hall).
    rewrite Hdata in Hdata'. injection Hdata' as <-.
    rewrite Hconv in Hconv'. injection Hconv' as <-.
    rewrite Hpages in Hpages'. injection Hpages' as <-.
    destruct (lookup_lt_is_Some_2 images (length pages) Hlen) as [img Himg].
    destruct (Hall _ img Himg)
      as (merged & _ & (d' & layer & orig & tp & σa & σb & _ & _ & Horig & _)).
    rewrite (lookup_ge_None_2 pages (length pages)) in Horig by lia.
    discriminate.
  - exists e. eexists. split; [reflexivity|]. intros q. apply (Hkeep q).
Qed.

Lemma more_images_than_pages_fails_witness :
  exists e σ',
    @process_pdf short_reader Demo.processor "in.pdf" "scans/out.pdf" Demo.world
      = (Ok (false, ErrorProcessingPdf e), σ') /\
    forall q, file_at σ' q = file_at Demo.world q.
Proof.
  apply (@more_images_than_pages_fails short_reader Demo.processor
           "in.pdf" "scans/out.pdf" Demo.world [Byte.x01]
           [Demo.image_of Byte.x01] []).
  - vm_compute. reflexivity.
  - reflexivity.
  - reflexivity.
  - simpl. lia.
Defined.

(** X12.  What [_setup_font] does, in full: it never raises and writes
    no file; when the font file is a file that [TTFont] accepts it
    registers the custom font, logs it at level INFO and settles on it;
    in every other case it registers nothing, logs one warning with the
    error and settles on Helvetica. *)
Theorem setup_font_registers_or_falls_back `{Externals} (σ : World) :
  exists name σ',
    _setup_font σ = (Ok name, σ') /\ fs σ' = fs σ /\
    ((exists data,
        resolve σ custom_font_path = Some (File data) /\
        TTFont "0xProto-Regular" data = None /\
        name = "0xProto-Regular"%string /\
        fonts σ' = {[name]} ∪ fonts σ /\
        log σ' = log σ ++ [(INFO, RegisteredCustomFont name)]) \/
     (exists e,
        font_registration_fails σ e /\
        name = "Helvetica"%string /\
        fonts σ' = fonts σ /\
        log σ' = log σ ++ [(WARNING, FontRegistrationFailed e)])).
Proof.
  unfold font_registration_fails.
  destruct (resolve σ custom_font_path) as [[data|]|] eqn:Hres.
  - destruct (TTFont "0xProto-Regular" data) as [e|] eqn:Hfont.
    + assert (Hf : font_registration_fails σ e).
      { unfold font_registration_fails. rewrite Hres. exact Hfont. }
      rewrite (setup_font_fallback σ e Hf). eexists _, _.
      split; [reflexivity|]. split; [reflexivity|]. right. exists e.
      repeat split; reflexivity || exact Hfont.
    + unfold _setup_font, try_except, bind at 1, os_path_exists.
      change (pathlib_join (pathlib_join module_dir "fonts")
                ("0xProto-Regular" ++ ".ttf")) with custom_font_path.
      rewrite Hres.
      unfold bind at 1, registerFont at 1, bind at 1, read_file.
      rewrite Hres, Hfont. eexists _, _.
      split; [reflexivity|]. split; [reflexivity|]. left. exists data.
      repeat split; reflexivity || exact Hfont.
  - assert (Hf : font_registration_fails σ (IsADirectoryError custom_font_path)).
    { unfold font_registration_fails. rewrite Hres. reflexivity. }
    rewrite (setup_font_fallback σ _ Hf). eexists _, _.
    split; [reflexivity|]. split; [reflexivity|]. right. eexists.
    repeat split; reflexivity.
  - assert (Hf : font_registration_fails σ (FileNotFoundError custom_font_path)).
    { unfold font_registration_fails. rewrite Hres. reflexivity. }
    rewrite (setup_font_fallback σ _ Hf). eexists _, _.
    split; [reflexivity|]. split; [reflexivity|]. right. eexists.
    repeat split; reflexivity.
Qed.

(** ** [main] *)

Lemma list_ascii_of_string_app a b :
  list_ascii_of_string (a ++ b) = list_ascii_of_string a ++ list_ascii_of_string b.
Proof. induction a as [|ch a IH]; [reflexivity|]. simpl. rewrite IH. reflexivity. Qed.

Lemma existsb_rev {A} (f : A -> bool) l : existsb f (rev l) = existsb f l.
Proof.
  induction l as [|a l IH]; [reflexivity|].
  simpl. rewrite existsb_app, IH. simpl. rewrite orb_false_r. apply orb_comm.
Qed.

Lemma break_slash_some l :
  existsb is_slash l = true -> snd (break_slash l) <> [].
Proof.
  induction l as [|a l IH]; [discriminate|].
  simpl. destruct (is_slash a); [discriminate|].
  intros Hl. destruct (break_slash l) as [t h]. apply IH. exact Hl.
Qed.

Lemma drop_slashes_nil l : drop_slashes l = [] -> forallb is_slash l = true.
Proof.
  induction l as [|a l IH]; [reflexivity|].
  simpl. destruct (is_slash a); [exact IH|discriminate].
Qed.

Lemma string_of_list_ascii_nil l : string_of_list_ascii l = ""%string -> l = [].
Proof. destruct l; [reflexivity|discriminate]. Qed.

Lemma rev_nil_inv {A} (l : list A) : rev l = [] -> l = [].
Proof.
  intros Hl. apply (f_equal (@rev A)) in Hl. rewrite rev_involutive in Hl.
  exact Hl.
Qed.

(** A path with a slash has a directory part. *)
Lemma dirname_with_slash p :
  existsb is_slash (list_ascii_of_string p) = true -> dirname p <> ""%string.
Proof.
  intros Hp. rewrite <- existsb_rev in Hp. apply break_slash_some in Hp.
  unfold dirname, posixpath_split.
  destruct (break_slash (rev (list_ascii_of_string p))) as [t h].
  simpl in Hp. destruct (forallb is_slash h) eqn:Hall; simpl; intros Hnil.
  - apply string_of_list_ascii_nil, rev_nil_inv in Hnil. contradiction.
  - apply string_of_list_ascii_nil, rev_nil_inv, drop_slashes_nil in Hnil.
    congruence.
Qed.

Lemma os_path_join_slash a b :
  a <> ""%string ->
  existsb is_slash (list_ascii_of_string (os_path_join a b)) = true.
Proof.
  intros Ha. unfold os_path_join.
  destruct (starts_with_slash b) eqn:Hb.
  - destruct b as [|ch b]; [discriminate|]. simpl in *. rewrite Hb. reflexivity.
  - destruct (String.eqb a "") eqn:Hempty;
      [apply String.eqb_eq in Hempty; contradiction|].
    cbn [orb]. destruct (ends_with_slash a) eqn:Hend.
    + rewrite list_ascii_of_string_app, existsb_app.
      apply orb_true_iff. left. rewrite <- existsb_rev.
      unfold ends_with_slash in Hend.
      destruct (rev (list_ascii_of_string a)); [discriminate|].
      simpl. rewrite Hend. reflexivity.
    + rewrite !list_ascii_of_string_app, !existsb_app.
      apply orb_true_iff. right. reflexivity.
Qed.

Section MainFacts.

Context `{Externals}.
Variable processor : PdfOcrProcessor.

Lemma main_turn_cancel g t σ :
  event t = None \/ event t = Some "Cancel"%string ->
  main_turn processor g t σ = (Ok (g, true), σ).
Proof.
  intros Hev. unfold main_turn, event_is.
  destruct Hev as [->| ->]; reflexivity.
Qed.

(** The turns after the one that leaves the loop are not read. *)
Lemma main_loop_stops pre : forall g σ t rest,
  (forall g1 σ1, main_turn processor g1 t σ1 = (Ok (g1, true), σ1)) ->
  main_loop processor g (pre ++ t :: rest) σ
  = main_loop processor g (pre ++ [t]) σ.
Proof.
  induction pre as [|a pre IH]; intros g σ t rest Ht.
  - simpl. unfold bind. rewrite !Ht. reflexivity.
  - simpl. unfold bind.
    destruct (main_turn processor g a σ) as [[[g' stop]|e] σ1]; [|reflexivity].
    destruct stop; [reflexivity|]. apply IH. exact Ht.
Qed.

(** As long as no file is picked, a turn shows the request to select,
    or nothing, and leaves the world alone. *)
Lemma main_turn_no_file g t σ :
  truthy (selected_file g) = false ->
  (event_is t "Select File" = true -> truthy (picked t) = false) ->
  exists g' stop,
    main_turn processor g t σ = (Ok (g', stop), σ) /\
    truthy (selected_file g') = false /\
    (shown g' = shown g \/ shown g' = shown g ++ [PopupPleaseSelect]).
Proof.
  intros Hno Hpick. unfold main_turn.
  destruct (event_is t "Select File").
  { eexists _, _. split; [reflexivity|]. split; [apply Hpick; reflexivity|].
    left. reflexivity. }
  destruct (event_is t "Select Folder").
  { eexists _, _. split; [reflexivity|]. split; [exact Hno|].
    left. reflexivity. }
  destruct (event_is t "Start OCR").
  { destruct (selected_file g) as [file|] eqn:Hfile;
      destruct (output_folder g) as [folder|];
      try rewrite Hno; cbn [andb];
      (eexists _, _; split; [reflexivity|]; split;
       [simpl; rewrite Hfile; exact Hno|right; reflexivity]). }
  destruct (event t) as [e|]; [destruct (String.eqb e "Cancel")|];
    (eexists _, _; split; [reflexivity|]; split; [exact Hno|left; reflexivity]).
Qed.

Lemma main_loop_no_file turns : forall g σ,
  truthy (selected_file g) = false ->
  Forall (fun p => p = PopupPleaseSelect) (shown g) ->
  Forall (fun t => event_is t "Select File" = true ->
                   truthy (picked t) = false) turns ->
  exists g',
    main_loop processor g turns σ = (Ok g', σ) /\
    Forall (fun p => p = PopupPleaseSelect) (shown g').
Proof.
  induction turns as [|t turns IH]; intros g σ Hno Hshown Hturns.
  - exists g. split; [reflexivity|exact Hshown].
  - apply Forall_cons in Hturns as [Ht Hturns].
    destruct (main_turn_no_file g t σ Hno Ht)
      as (g1 & stop & Hturn & Hno1 & Hshown1).
    assert (Hs1 : Forall (fun p => p = PopupPleaseSelect) (shown g1)).
    { destruct Hshown1 as [->| ->]; [exact Hshown|].
      apply Forall_app. split; [exact Hshown|]. repeat constructor. }
    simpl. unfold bind. rewrite Hturn. destruct stop.
    + exists g1. split; [reflexivity|exact Hs1].
    + apply IH; assumption.
Qed.

End MainFacts.

(** X13.  The output path the window builds names a directory: with a
    folder chosen, the directory part of
    [os.path.join(output_folder, name + ".pdf")] is never empty, whatever
    is typed as the name, so that [process_pdf] is not asked by [main] to
    create the directory of the empty path. *)
Theorem the_window_gives_a_path_with_a_directory (folder name : string) :
  truthy (Some folder) = true ->
  dirname (os_path_join folder (name ++ ".pdf")) <> ""%string.
Proof.
  intros Hfolder. apply dirname_with_slash, os_path_join_slash.
  intros ->. discriminate.
Qed.

Lemma the_window_gives_a_path_with_a_directory_witness :
  dirname (os_path_join "scans" ("output" ++ ".pdf")) <> ""%string.
Proof.
  apply (the_window_gives_a_path_with_a_directory "scans" "output").
  reflexivity.
Defined.

(** X14.  Cancel, or the closing of the window, ends the loop of [main]
    at once: the turn changes neither the selection nor the world and
    shows nothing, and the events after it are not read. *)
Theorem cancel_ends_the_loop `{Externals} (processor : PdfOcrProcessor)
    (t : Turn) (rest : list Turn) :
  event t = None \/ event t = Some "Cancel"%string ->
  forall g σ,
    main_loop processor g (t :: rest) σ = (Ok g, σ) /\
    forall pre,
      main_loop processor g (pre ++ t :: rest) σ
      = main_loop processor g (pre ++ [t]) σ.
Proof.
  intros Hev g σ. split.
  - simpl. unfold bind. rewrite (main_turn_cancel processor g t σ Hev).
    reflexivity.
  - intros pre. apply main_loop_stops.
    intros g1 σ1. apply main_turn_cancel. exact Hev.
Qed.

Lemma cancel_ends_the_loop_witness :
  @main_loop Demo.env Demo.processor
    {| selected_file := Some "in.pdf"%string;
       output_folder := Some "scans"%string; shown := [] |}
    ({| event := Some "Cancel"%string; values_name := "output";
        picked := None |} ::
     [{| event := Some "Start OCR"%string; values_name := "output";
         picked := None |}]) Demo.world
  = (Ok {| selected_file := Some "in.pdf"%string;
           output_folder := Some "scans"%string; shown := [] |}, Demo.world).
Proof.
  apply (@cancel_ends_the_loop Demo.env Demo.processor
           {| event := Some "Cancel"%string; values_name := "output";
              picked := None |}
           [{| event := Some "Start OCR"%string; values_name := "output";
               picked := None |}]).
  right. reflexivity.
Defined.

(** X15.  Without an input file nothing is processed: as long as every
    file dialog is dismissed or left empty, [main] only constructs the
    processor, so the world is as [__init__] leaves it, and every popup
    shown asks to select the input file, the output folder and the
    name. *)
Theorem nothing_is_processed_without_a_file `{Externals}
    (turns : list Turn) (σ : World) :
  Forall (fun t => event_is t "Select File" = true ->
                   truthy (picked t) = false) turns ->
  exists processor σ' g,
    __init__ σ = (Ok processor, σ') /\
    main turns σ = (Ok g, σ') /\
    Forall (fun p => p = PopupPleaseSelect) (shown g).
Proof.
  intros Hturns.
  destruct (setup_font_known σ) as (name & σ' & Hs & _).
  assert (Hinit : __init__ σ =
    (Ok {| font_name := name; conf_threshold := 60; dpi := 300 |}, σ')).
  { unfold __init__, bind. rewrite Hs. reflexivity. }
  destruct (main_loop_no_file
              {| font_name := name; conf_threshold := 60; dpi := 300 |} turns
              {| selected_file := Some ""%string;
                 output_folder := Some ""%string; shown := [] |} σ')
    as (g & Hloop & Hshown); [reflexivity|constructor|exact Hturns|].
  eexists _, σ', g. split; [exact Hinit|]. split; [|exact Hshown].
  unfold main, bind. rewrite Hinit. exact Hloop.
Qed.

Lemma nothing_is_processed_without_a_file_witness :
  exists processor σ' g,
    @__init__ Demo.env Demo.world = (Ok processor, σ') /\
    @main Demo.env
      [{| event := Some "Start OCR"%string; values_name := "output";
          picked := None |};
       {| event := Some "Select File"%string; values_name := "output";
          picked := None |};
       {| event := Some "Select Folder"%string; values_name := "output";
          picked := Some "scans"%string |};
       {| event := Some "Start OCR"%string; values_name := "output";
          picked := None |}] Demo.world = (Ok g, σ') /\
    Forall (fun p => p = PopupPleaseSelect) (shown g).
Proof.
  apply (@nothing_is_processed_without_a_file Demo.env).
  repeat constructor; vm_compute; intros Hev;
    first [reflexivity|discriminate Hev].
Defined.

(** ** The text on the layer *)

Lemma utf8_roundtrip_ignore_clean t :
  Forall (fun ch => is_surrogate ch = false) (utf8_roundtrip_ignore t).
Proof.
  unfold utf8_roundtrip_ignore. induction t as [|ch t IH]; [constructor|].
  simpl. destruct (is_surrogate ch) eqn:Hch; simpl; [exact IH|].
  constructor; [exact Hch|exact IH].
Qed.

Section CleanFacts.

Context `{Externals}.

Lemma clean_write_text_block blk size : forall cv,
  Forall clean_cmd (code cv) ->
  returns (fun cv' => Forall clean_cmd (code cv')) (_write_text_block cv blk size).
Proof.
  induction blk as [|item rest IH]; intros cv Hcv; cbn [_write_text_block].
  - apply returns_ret. exact Hcv.
  - apply returns_bind. intros [|ch t]; [apply IH; exact Hcv|].
    apply (returns_bind_with (fun cv' => Forall clean_cmd (code cv')));
      [|intros cv' Hcv'; apply IH; exact Hcv'].
    apply returns_try.
    + intros σ a σ'. rewrite write_item_spec.
      destruct (item_y (snd size) item) as [y|e]; [|discriminate].
      destruct (drawString_raises _ _ _ _); [discriminate|].
      intros [= <- _]. cbn [code add_code]. apply Forall_app.
      split; [exact Hcv|].
      constructor; [apply (utf8_roundtrip_ignore_clean (ch :: t))|constructor].
    + intros e. apply returns_bind. intros _. apply returns_ret. exact Hcv.
Qed.

Lemma clean_flush cv blk size :
  Forall clean_cmd (code cv) ->
  returns (fun cv' => Forall clean_cmd (code cv')) (flush cv blk size).
Proof.
  intros Hcv. destruct blk; [apply returns_ret; exact Hcv|].
  apply clean_write_text_block. exact Hcv.
Qed.

Lemma clean_layer_step self d size st i :
  Forall clean_cmd (code (c st)) ->
  returns (fun st' => Forall clean_cmd (code (c st')))
    (layer_step self d size st i).
Proof.
  intros Hst. unfold layer_step.
  apply returns_bind. intros v. apply returns_bind. intros conf.
  destruct (float_lt_int conf (conf_threshold self));
    [apply returns_ret; exact Hst|].
  apply returns_bind. intros b.
  apply (returns_bind_with (fun st' => Forall clean_cmd (code (c st')))).
  - destruct (py_ne b (last_block_num st)); [|apply returns_ret; exact Hst].
    apply (returns_bind_with (fun cv' => Forall clean_cmd (code cv')));
      [apply clean_flush; exact Hst|].
    intros cv Hcv. apply returns_bind. intros b'. apply returns_ret. exact Hcv.
  - intros st1 Hst1. repeat (apply returns_bind; intros ?).
    apply returns_ret. exact Hst1.
Qed.

Lemma clean_create_text_layer self d size :
  returns (fun cv => Forall clean_cmd (code cv)) (_create_text_layer self d size).
Proof.
  unfold _create_text_layer.
  apply (returns_bind_with (fun c0 => code c0 = [])).
  { intros σ c0 σ'. unfold setFont.
    destruct (font_known σ (font_name self)); [|discriminate].
    intros [= <- _]. reflexivity. }
  intros c0 Hc0. apply returns_bind. intros texts.
  apply (returns_bind_with (fun st => Forall clean_cmd (code (c st)))).
  - apply returns_foldM.
    + intros st i Hst. apply clean_layer_step. exact Hst.
    + simpl. rewrite Hc0. constructor.
  - intros st Hst. apply clean_flush. exact Hst.
Qed.

End CleanFacts.

(** X16.  No text on a layer holds a surrogate code point: what
    [drawString] is given has gone through the UTF-8 round trip, whatever
    the recognition output holds. *)
Theorem drawn_text_has_no_surrogates `{Externals} (self : PdfOcrProcessor)
    (d : ocr_dict) (size : Z * Z) (σ σ' : World) (cv : Canvas) :
  _create_text_layer self d size σ = (Ok cv, σ') ->
  forall x y t,
    In (DrawString x y t) (code cv) ->
    forall ch, In ch t -> is_surrogate ch = false.
Proof.
  intros Hrun x y t Hin ch Hch.
  pose proof (clean_create_text_layer self d size σ cv σ' Hrun) as Hclean.
  rewrite Forall_forall in Hclean.
  specialize (Hclean _ (proj2 (list_elem_of_In _ _) Hin)). simpl in Hclean.
  rewrite Forall_forall in Hclean. apply Hclean, list_elem_of_In. exact Hch.
Qed.

Lemma drawn_text_has_no_surrogates_witness :
  @_create_text_layer Demo.env Demo.processor
    (ocr_of_words
       [{| w_text := PyStr [72%N; 56832%N; 105%N]; w_conf := PyInt 95;
           w_block_num := PyInt 0; w_left := PyInt 10;
           w_top := PyInt 20; w_width := PyInt 50;
           w_height := PyInt 15 |}])
    (100, 1000) Demo.world
  = (Ok (add_code
           (setFillColor
              {| pagesize := (100, 1000); fontname := "Helvetica";
                 fontsize := 8;
                 fillcolor := {| red := 0; green := 0; blue := 0; alpha := 1 |};
                 code := [] |}
              {| red := 0; green := 0; blue := 0; alpha := 0 |})
           (DrawString (PyInt 10) (PyInt 965) [72%N; 105%N])), Demo.world) /\
  is_surrogate 105 = false.
Proof.
  assert (Hrun :
    @_create_text_layer Demo.env Demo.processor
      (ocr_of_words
         [{| w_text := PyStr [72%N; 56832%N; 105%N]; w_conf := PyInt 95;
             w_block_num := PyInt 0; w_left := PyInt 10;
             w_top := PyInt 20; w_width := PyInt 50;
             w_height := PyInt 15 |}])
      (100, 1000) Demo.world
    = (Ok (add_code
             (setFillColor
                {| pagesize := (100, 1000); fontname := "Helvetica";
                   fontsize := 8;
                   fillcolor := {| red := 0; green := 0; blue := 0; alpha := 1 |};
                   code := [] |}
                {| red := 0; green := 0; blue := 0; alpha := 0 |})
             (DrawString (PyInt 10) (PyInt 965) [72%N; 105%N])), Demo.world)).
  { vm_compute. reflexivity. }
  split; [exact Hrun|].
  apply (@drawn_text_has_no_surrogates Demo.env Demo.processor _ _ _ _ _
           Hrun (PyInt 10) (PyInt 965) [72%N; 105%N]).
  - left. reflexivity.
  - right. left. reflexivity.
Defined.

(** ** A confidence that is not a number *)

(** X17.  The filter keeps what is not below the threshold, so a
    confidence that [float] reads as NaN passes it, whatever the
    threshold is: the word is drawn like one of full confidence. *)
Theorem nan_confidence_passes_the_filter `{Externals} (self : PdfOcrProcessor)
    (size : Z * Z) (l1 l2 : list WordRecord) (w : WordRecord) :
  py_float (w_conf w) = Ok S754_nan ->
  passes self w = true /\
  forall x y t σ cv σ',
    item_cmd (snd size) (item_of w) = Some (DrawString x y t) ->
    (forall cv0, drawString_raises cv0 x y t = None) ->
    _create_text_layer self (ocr_of_words (l1 ++ w :: l2)) size σ = (Ok cv, σ') ->
    In (DrawString x y t) (code cv).
Proof.
  intros Hf. split.
  - unfold passes. rewrite Hf. reflexivity.
  - intros x y t σ cv σ' Hcmd Hdraw.
    rewrite (create_text_layer_words self size _ _ σ (presents_ocr_of_words _)).
    eapply layer_of_words_draws; try eassumption. reflexivity.
Qed.

Lemma nan_confidence_passes_the_filter_witness :
  @passes Demo.env Demo.processor
    (Demo.word "Hi" (PyStr (ustr " NaN ")) 0 10 20 50 15) = true.
Proof.
  apply (@nan_confidence_passes_the_filter Demo.env Demo.processor
           (100, 1000) [] []
           (Demo.word "Hi" (PyStr (ustr " NaN ")) 0 10 20 50 15)).
  vm_compute. reflexivity.
Defined.

(** ** The directories and the log of a run *)

Lemma same_fs_refl σ : same_fs σ σ.
Proof. reflexivity. Qed.

Lemma same_fs_trans σ1 σ2 σ3 : same_fs σ1 σ2 -> same_fs σ2 σ3 -> same_fs σ1 σ3.
Proof. unfold same_fs. congruence. Qed.

Lemma warned_same_fs σ σ' : warned σ σ' -> same_fs σ σ'.
Proof. intros (Hf & _). exact Hf. Qed.

Lemma fs_only_refl σ : fs_only σ σ.
Proof. split; reflexivity. Qed.

Lemma fs_only_trans σ1 σ2 σ3 : fs_only σ1 σ2 -> fs_only σ2 σ3 -> fs_only σ1 σ3.
Proof. intros [? ?] [? ?]. split; congruence. Qed.

Lemma fs_only_mkdir name : steps_in fs_only (mkdir name).
Proof.
  intros σ. unfold mkdir.
  destruct (String.eqb name ""); [apply fs_only_refl|].
  destruct (is_root name); [apply fs_only_refl|].
  destruct (fs σ !! unslash name); [apply fs_only_refl|].
  destruct (check_parent σ (unslash name)); [apply fs_only_refl|].
  split; reflexivity.
Qed.

Lemma fs_only_mkdir_exist_ok name : steps_in fs_only (mkdir_exist_ok name).
Proof.
  unfold mkdir_exist_ok.
  apply (steps_in_try fs_only fs_only_trans); [apply fs_only_mkdir|].
  intros e. apply (steps_in_bind fs_only fs_only_trans).
  - intros σ. apply fs_only_refl.
  - intros [|]; [apply steps_in_ret|apply steps_in_raise]; exact fs_only_refl.
Qed.

Lemma fs_only_makedirs_upto n : forall name,
  steps_in fs_only (makedirs_upto n name).
Proof.
  induction n as [|n IH]; intros name; cbn [makedirs_upto];
    destruct (posixpath_split name) as [head tail];
    destruct (if String.eqb tail "" then posixpath_split head else (head, tail))
      as [head' tail'];
    destruct (negb (String.eqb head' "") && negb (String.eqb tail' ""));
    try apply fs_only_mkdir_exist_ok;
    (apply (steps_in_bind fs_only fs_only_trans);
     [intros σ; apply fs_only_refl|]);
    intros [|]; try apply fs_only_mkdir_exist_ok.
  apply (steps_in_bind fs_only fs_only_trans).
  - apply (steps_in_try fs_only fs_only_trans); [apply IH|].
    intros []; (apply steps_in_ret || apply steps_in_raise); exact fs_only_refl.
  - intros _. destruct (String.eqb tail' ".");
      [apply steps_in_ret; exact fs_only_refl|apply fs_only_mkdir_exist_ok].
Qed.

Lemma fs_only_makedirs name : steps_in fs_only (makedirs name).
Proof. apply fs_only_makedirs_upto. Qed.

Lemma fs_only_open_wb p : steps_in fs_only (open_wb p).
Proof.
  intros σ. unfold open_wb.
  destruct (String.eqb p ""); [apply fs_only_refl|].
  destruct (ends_with_slash p); [apply fs_only_refl|].
  destruct (fs σ !! p) as [[data|]|]; try apply fs_only_refl;
    destruct (check_parent σ p); (apply fs_only_refl || (split; reflexivity)).
Qed.

Lemma warnings_are_not_info ws :
  Forall is_warning ws -> List.filter is_info ws = [].
Proof.
  induction 1 as [|l ws [e ->] _ IH]; [reflexivity|]. simpl. exact IH.
Qed.

(** The rest of a computation that leaves the files and the directories
    alone does not show in them. *)
Lemma same_fs_after {A B} (m : M A) (k : A -> M B) σ :
  (forall a, steps_in same_fs (k a)) ->
  fs (snd (bind m k σ)) = fs (snd (m σ)).
Proof.
  intros Hk. unfold bind. destruct (m σ) as [[a|e] σ1]; [|reflexivity].
  apply Hk.
Qed.

Section RunFacts.

Context `{Externals}.
Variable self : PdfOcrProcessor.

Lemma fs_only_save writer output_path :
  steps_in fs_only (save writer output_path).
Proof.
  unfold save.
  apply (steps_in_bind fs_only fs_only_trans); [apply fs_only_open_wb|].
  intros _. destruct (writer_write writer) as [data failure].
  apply (steps_in_bind fs_only fs_only_trans);
    [intros σ; split; reflexivity|].
  intros _. destruct failure;
    [apply steps_in_raise|apply steps_in_ret]; exact fs_only_refl.
Qed.

Lemma same_fs_page_step pages total writer it :
  steps_in same_fs (page_step self pages total writer it).
Proof.
  destruct it as [i image]. unfold page_step.
  apply (steps_in_bind same_fs same_fs_trans);
    [apply steps_in_lift; exact same_fs_refl|]. intros d.
  apply (steps_in_bind same_fs same_fs_trans).
  { eapply steps_in_weaken; [exact warned_same_fs|].
    apply warned_create_text_layer. }
  intros layer.
  repeat (apply (steps_in_bind same_fs same_fs_trans);
          [apply steps_in_lift; exact same_fs_refl|intros ?]).
  apply (steps_in_bind same_fs same_fs_trans); [intros σ; reflexivity|].
  intros _. apply steps_in_ret. exact same_fs_refl.
Qed.

(** After [os.makedirs], the assembling of the pages leaves the files and
    the directories alone. *)
Lemma assemble_fs input_path output_path σ :
  resolve σ input_path <> None ->
  fs (snd (assemble self input_path output_path σ))
  = fs (snd (makedirs (dirname output_path) σ)).
Proof.
  intros Hin. unfold assemble, bind at 1, os_path_exists.
  destruct (resolve σ input_path); [|contradiction]. cbn [negb].
  apply same_fs_after. intros _.
  apply (steps_in_bind same_fs same_fs_trans); [intros σ1; reflexivity|].
  intros _.
  assert (Hread : forall p, steps_in same_fs (read_file p)).
  { intros p σ1. unfold read_file.
    destruct (resolve σ1 p) as [[data|]|]; reflexivity. }
  apply (steps_in_bind same_fs same_fs_trans); [apply Hread|]. intros data.
  apply (steps_in_bind same_fs same_fs_trans);
    [apply steps_in_lift; exact same_fs_refl|]. intros images.
  apply (steps_in_bind same_fs same_fs_trans); [apply Hread|]. intros data'.
  apply (steps_in_bind same_fs same_fs_trans);
    [apply steps_in_lift; exact same_fs_refl|]. intros pages.
  apply (steps_in_foldM same_fs same_fs_refl same_fs_trans).
  intros. apply same_fs_page_step.
Qed.

(** A page that is processed adds its line to the log, after the
    warnings of its words. *)
Lemma page_step_log pages total writer i img σ out σ' :
  page_step self pages total writer (i, img) σ = (Ok out, σ') ->
  exists ws,
    log σ' = log σ ++ ws ++ [(INFO, ProcessedPage (i + 1) total)] /\
    Forall is_warning ws.
Proof.
  unfold page_step.
  destruct (image_to_data img) as [d|e];
    [rewrite bind_lift_Ok|rewrite bind_lift_Raise; discriminate].
  unfold bind at 1.
  pose proof (warned_create_text_layer self d (image_size img) σ)
    as (_ & _ & ws & Hl & Hw).
  destruct (_create_text_layer self d (image_size img) σ) as [[layer|e] σ1];
    [|discriminate].
  simpl in Hl.
  destruct (page_at pages i) as [orig|e];
    [rewrite bind_lift_Ok|rewrite bind_lift_Raise; discriminate].
  destruct (layer_page layer) as [tp|e];
    [rewrite bind_lift_Ok|rewrite bind_lift_Raise; discriminate].
  destruct (merge_page orig tp) as [merged|e];
    [rewrite bind_lift_Ok|rewrite bind_lift_Raise; discriminate].
  unfold bind, logger, ret. intros [= _ <-]. simpl.
  exists ws. split; [|exact Hw]. rewrite Hl, app_assoc. reflexivity.
Qed.

Lemma foldM_page_step_log pages total imgs : forall k writer σ out σ',
  foldM (page_step self pages total) writer
    (combine (seq k (length imgs)) imgs) σ = (Ok out, σ') ->
  exists new,
    log σ' = log σ ++ new /\
    List.filter is_info new
      = map (fun i => (INFO, ProcessedPage (i + 1) total)) (seq k (length imgs)) /\
    Forall (fun l => is_info l = true \/ is_warning l) new.
Proof.
  induction imgs as [|img imgs IH]; intros k writer σ out σ'.
  - simpl. unfold ret. intros Heq. injection Heq as _ <-.
    exists []. split; [symmetry; apply app_nil_r|].
    split; [reflexivity|constructor].
  - cbn [foldM combine seq length map]. unfold bind.
    destruct (page_step self pages total writer (k, img) σ) as [[w|e] σ1] eqn:Hstep;
      [|discriminate].
    intros Hrest.
    apply page_step_log in Hstep as (ws & Hl1 & Hws).
    apply IH in Hrest as (new & Hl2 & Hf & Hall).
    exists (ws ++ [(INFO, ProcessedPage (k + 1) total)] ++ new).
    split; [|split].
    + rewrite Hl2, Hl1, <- !app_assoc. reflexivity.
    + rewrite !List.filter_app, (warnings_are_not_info ws Hws), Hf. reflexivity.
    + apply Forall_app. split.
      * eapply Forall_impl; [exact Hws|]. intros l Hl. right. exact Hl.
      * constructor; [left; reflexivity|exact Hall].
Qed.

Lemma assemble_log input_path output_path σ out σ' :
  assemble self input_path output_path σ = (Ok out, σ') ->
  exists data images new,
    file_at σ input_path = Some data /\
    convert_from_path data (dpi self) = Ok images /\
    log σ' = log σ ++ (INFO, ConvertingPdfToImages) :: new /\
    List.filter is_info new
      = map (fun i => (INFO, ProcessedPage (i + 1) (length images)))
          (seq 0 (length images)) /\
    Forall (fun l => is_info l = true \/ is_warning l) new.
Proof.
  unfold assemble, bind at 1, os_path_exists.
  destruct (resolve σ input_path) as [n|] eqn:Hin; [|discriminate].
  cbn [negb]. unfold bind at 1.
  pose proof (keeps_files_makedirs (dirname output_path) σ input_path) as Hkeep.
  pose proof (fs_only_makedirs (dirname output_path) σ) as [_ Hlog].
  destruct (makedirs (dirname output_path) σ) as [[[]|e] σ1]; [|discriminate].
  simpl in Hkeep, Hlog. unfold bind at 1, logger at 1.
  unfold bind at 1, read_file at 1.
  set (σ2 := {| fs := fs σ1; fonts := fonts σ1;
                log := log σ1 ++ [(INFO, ConvertingPdfToImages)] |}).
  destruct (resolve σ2 input_path) as [[data|]|] eqn:Hres; try discriminate.
  unfold bind at 1, lift at 1.
  destruct (convert_from_path data (dpi self)) as [images|e] eqn:Hconv;
    [|discriminate].
  unfold bind at 1, read_file at 1. rewrite Hres.
  unfold bind at 1, lift at 1.
  destruct (PdfReader_pages data) as [pages|e]; [|discriminate].
  unfold enumerate. intros Hloop.
  apply foldM_page_step_log in Hloop as (new & Hl & Hf & Hall).
  exists data, images, new.
  split; [rewrite <- Hkeep; apply (resolve_file σ2); exact Hres|].
  split; [exact Hconv|]. split; [|split; [exact Hf|exact Hall]].
  rewrite Hl. simpl. rewrite Hlog, <- app_assoc. reflexivity.
Qed.

End RunFacts.

(** X18.  A run that fails while the pages are assembled does not undo
    [os.makedirs]: the files and directories it leaves are those the
    creation of the output directory left, so a directory made for the
    output stays, without the output file. *)
Theorem directories_made_stay_after_a_failure `{Externals}
    (self : PdfOcrProcessor) (input_path output_path : string) (σ : World) :
  resolve σ input_path <> None ->
  is_Ok (fst (assemble self input_path output_path σ)) = false ->
  fs (snd (process_pdf self input_path output_path σ))
  = fs (snd (makedirs (dirname output_path) σ)).
Proof.
  intros Hin Hfail. rewrite <- (assemble_fs self input_path output_path σ Hin).
  rewrite process_pdf_unfold.
  destruct (assemble self input_path output_path σ) as [[writer|e] σ1];
    [discriminate|reflexivity].
Qed.

Lemma directories_made_stay_after_a_failure_witness :
  fs (snd (@process_pdf short_reader Demo.processor "in.pdf" "new/out.pdf"
             Demo.world)) !! "new"%string = Some Dir /\
  fs (snd (@process_pdf short_reader Demo.processor "in.pdf" "new/out.pdf"
             Demo.world)) !! "new/out.pdf"%string = None.
Proof.
  rewrite (@directories_made_stay_after_a_failure short_reader Demo.processor
             "in.pdf" "new/out.pdf" Demo.world).
  - split; vm_compute; reflexivity.
  - vm_compute. discriminate.
  - vm_compute. reflexivity.
Defined.

(** X19.  The log of a run that succeeds tells its progress: between the
    lines that were there and the end, its lines of level INFO are the
    start of the conversion, one line for each image in order, numbered
    from 1 out of the number of images, and the line of the saved file;
    every other line it gained is the warning of a word that was not
    written. *)
Theorem a_successful_run_logs_every_page `{Externals}
    (self : PdfOcrProcessor) (input_path output_path : string)
    (σ σ' : World) (msg : message) :
  process_pdf self input_path output_path σ = (Ok (true, msg), σ') ->
  exists data images new,
    file_at σ input_path = Some data /\
    convert_from_path data (dpi self) = Ok images /\
    log σ' = log σ ++ new /\
    List.filter is_info new = progress_lines output_path (length images) /\
    Forall (fun l => is_info l = true \/
                     exists e, l = (WARNING, FailedToWriteText e)) new.
Proof.
  rewrite process_pdf_unfold.
  destruct (assemble self input_path output_path σ) as [[writer|e] σ1] eqn:Ha;
    [|discriminate].
  pose proof (fs_only_save writer output_path σ1) as [_ Hsave].
  destruct (save writer output_path σ1) as [[[]|e] σ2]; [|discriminate].
  simpl in Hsave. intros [= _ <-].
  apply assemble_log in Ha as (data & images & new & Hdata & Hconv & Hl & Hf & Hall).
  exists data, images,
    ((INFO, ConvertingPdfToImages) :: new ++
     [(INFO, SavedSearchablePdf output_path)]).
  split; [exact Hdata|]. split; [exact Hconv|]. split; [|split].
  - simpl. rewrite Hsave, Hl, <- app_assoc. reflexivity.
  - unfold progress_lines. cbn [List.filter is_info fst].
    rewrite List.filter_app, Hf. reflexivity.
  - constructor; [left; reflexivity|]. apply Forall_app. split; [exact Hall|].
    constructor; [left; reflexivity|constructor].
Qed.

Lemma a_successful_run_logs_every_page_witness :
  exists data images new,
    file_at Demo.world "scans/doc.pdf" = Some data /\
    @convert_from_path Demo.env data 300 = Ok images /\
    log (snd (@process_pdf Demo.env Demo.processor "scans/doc.pdf"
                "scans/out.pdf" Demo.world)) = log Demo.world ++ new /\
    List.filter is_info new = progress_lines "scans/out.pdf" (length images) /\
    Forall (fun l => is_info l = true \/
                     exists e, l = (WARNING, FailedToWriteText e)) new.
Proof.
  apply (@a_successful_run_logs_every_page Demo.env Demo.processor
           "scans/doc.pdf" "scans/out.pdf" Demo.world _ ProcessingCompleted).
  vm_compute. reflexivity.
Defined.

(** ** The window never fails *)

Section MainTotal.

Context `{Externals}.
Variable processor : PdfOcrProcessor.



End MainTotal.

